(** * SRRM dashboard: pipeline run orchestration and risk aggregation

    A shallow embedding of the analytic core of the SRRM front end
    ([lib/queries.ts], [lib/airflow.ts], [app/upload/page.tsx],
    [app/shap/page.tsx]) together with the properties its design document
    states about it.

    Conventions of the embedding.
    - A JavaScript [string] is a [string] of code units; the helpers below are
      exact on ASCII text and leave code units above 127 untouched, except
      [toUpperCase], which is given for ASCII text only.
    - A JavaScript [number] that arrives through JSON from the record store is
      a finite double; it is modelled by the rational it denotes ([Q]), so
      ordering and signs are exact.  The type [jsnum] adds [NaN] and the two
      infinities; sums and quotients are rounded to the nearest double as
      IEEE 754 prescribes ([Js.round64]).  The two zeros are not told apart.
    - A JavaScript [Map] is an insertion-ordered association list ([JsMap]):
      [set] on a present key keeps its position, on an absent key appends.
    - [Array.prototype.sort] is the stable sort the language standard
      requires, driven by the comparator of the call site.
    - The record store and the orchestrator are external: a query is modelled
      by the rows it answers with, an HTTP exchange by its response. *)

From Stdlib Require Import List String Ascii Bool Arith ZArith QArith Lia.
From Stdlib Require Import Qabs Qround Qpower Lqa Permutation Sorted DecimalString.
From Stdlib Require Import OrderedTypeEx.
From Stdlib Require Floats.
Import ListNotations.

Local Open Scope string_scope.
Local Open Scope list_scope.
Local Open Scope nat_scope.

(* ================================================================== *)
(** * JavaScript built-ins used by the sources *)
(* ================================================================== *)

Module Js.

(** ** Strings *)

Definition is_upper (c : ascii) : bool :=
  (65 <=? nat_of_ascii c) && (nat_of_ascii c <=? 90).

Definition lower_char (c : ascii) : ascii :=
  if is_upper c then ascii_of_nat (nat_of_ascii c + 32) else c.

(** [String.prototype.toLowerCase]. *)
Fixpoint toLowerCase (s : string) : string :=
  match s with
  | EmptyString => EmptyString
  | String c s' => String (lower_char c) (toLowerCase s')
  end.

(** [String.prototype.replaceAll] for a one-character pattern and
    replacement, the only way the sources call it. *)
Fixpoint replaceAll (s : string) (pat rep : ascii) : string :=
  match s with
  | EmptyString => EmptyString
  | String c s' =>
      String (if Ascii.eqb c pat then rep else c) (replaceAll s' pat rep)
  end.

(** White space of [trim]: TAB, LF, VT, FF, CR and SPACE. *)
Definition is_space (c : ascii) : bool :=
  let n := nat_of_ascii c in
  ((9 <=? n) && (n <=? 13)) || (n =? 32).

Fixpoint trimStart (s : string) : string :=
  match s with
  | EmptyString => EmptyString
  | String c s' => if is_space c then trimStart s' else s
  end.

Fixpoint trimEnd (s : string) : string :=
  match s with
  | EmptyString => EmptyString
  | String c s' =>
      match trimEnd s' with
      | EmptyString => if is_space c then EmptyString else String c EmptyString
      | t => String c t
      end
  end.

(** [String.prototype.trim]. *)
Definition trim (s : string) : string := trimEnd (trimStart s).

(** [String.prototype.includes]: [sub] occurs in [s] as a substring,
    compared code unit by code unit (so case-sensitively). *)
Fixpoint includes (s sub : string) : bool :=
  if String.prefix sub s then true
  else match s with
       | EmptyString => false
       | String _ s' => includes s' sub
       end.

(** ** Numbers *)

(** A double: a finite value (the rational it denotes), or one of the three
    non-finite ones. *)
Inductive jsnum : Type :=
| Fin (q : Q)
| PosInf
| NegInf
| NaN.

(** [Number.isFinite]. *)
Definition isFinite (x : jsnum) : bool :=
  match x with Fin _ => true | _ => false end.

(** [Math.abs]. *)
Definition abs (x : jsnum) : jsnum :=
  match x with
  | Fin q => Fin (Qabs q)
  | PosInf | NegInf => PosInf
  | NaN => NaN
  end.

(** Binary [-] on doubles. *)
Definition sub (x y : jsnum) : jsnum :=
  match x, y with
  | NaN, _ | _, NaN => NaN
  | Fin a, Fin b => Fin (a - b)
  | Fin _, PosInf => NegInf
  | Fin _, NegInf => PosInf
  | PosInf, PosInf => NaN
  | PosInf, _ => PosInf
  | NegInf, NegInf => NaN
  | NegInf, _ => NegInf
  end.

(** [x > 0], [x < 0] and [x >= 0]; every comparison with [NaN] is false. *)
Definition gt0 (x : jsnum) : bool :=
  match x with
  | Fin q => negb (Qle_bool q 0)
  | PosInf => true
  | _ => false
  end.

Definition lt0 (x : jsnum) : bool :=
  match x with
  | Fin q => negb (Qle_bool 0 q)
  | NegInf => true
  | _ => false
  end.

Definition ge0 (x : jsnum) : bool :=
  match x with
  | Fin q => Qle_bool 0 q
  | PosInf => true
  | _ => false
  end.

(** ** Sums and quotients of doubles

    The sum and the quotient of two doubles are the exact results rounded to
    the nearest double, ties to the double with an even significand
    (IEEE 754 binary64, round to nearest even). *)

Definition pow2 (e : Z) : Q := Qpower 2 e.

(** The largest [k] with [2 ^ k <= q], for a positive [q]. *)
Definition ilog2 (q : Q) : Z :=
  let k := (Z.log2 (Qnum q) - Z.log2 (Zpos (Qden q)))%Z in
  if Qle_bool (pow2 k) q then k else (k - 1)%Z.

(** The nearest integer, ties to the even one. *)
Definition round_half_even (r : Q) : Z :=
  let f := Qfloor r in
  match Qcompare (r - inject_Z f) (1 # 2) with
  | Lt => f
  | Gt => (f + 1)%Z
  | Eq => if Z.even f then f else (f + 1)%Z
  end.

(** The exponent of the unit in the last place of the doubles around a
    positive [q]: a significand has 53 bits, and the subnormal doubles are
    the multiples of [2 ^ -1074]. *)
Definition ulp_exponent (q : Q) : Z := Z.max (ilog2 q - 52) (-1074).

(** The nearest multiple of that unit. *)
Definition round_magnitude (q : Q) : Q :=
  let e := ulp_exponent q in
  (inject_Z (round_half_even (q / pow2 e)) * pow2 e)%Q.

(** The double nearest to a rational; a magnitude that rounds to
    [2 ^ 1024] or more overflows to an infinity. *)
Definition round64 (x : Q) : jsnum :=
  let q := Qred x in
  if Qeq_bool q 0 then Fin 0
  else
    let r := Qred (round_magnitude (Qabs q)) in
    if Qle_bool (pow2 1024) r then (if Qle_bool 0 q then PosInf else NegInf)
    else Fin (if Qle_bool 0 q then r else Qred (- r)).

(** Binary [+] on doubles. *)
Definition add (a b : jsnum) : jsnum :=
  match a, b with
  | NaN, _ | _, NaN => NaN
  | PosInf, NegInf | NegInf, PosInf => NaN
  | PosInf, _ | _, PosInf => PosInf
  | NegInf, _ | _, NegInf => NegInf
  | Fin x, Fin y => round64 (x + y)
  end.

(** Binary [/] on doubles; a zero divisor is taken for [+0]. *)
Definition div (a b : jsnum) : jsnum :=
  match a, b with
  | NaN, _ | _, NaN => NaN
  | Fin x, Fin y =>
      if Qeq_bool y 0 then
        if Qeq_bool x 0 then NaN else if Qle_bool 0 x then PosInf else NegInf
      else round64 (x / y)
  | Fin _, _ => Fin 0
  | PosInf, Fin y => if Qle_bool 0 y then PosInf else NegInf
  | NegInf, Fin y => if Qle_bool 0 y then NegInf else PosInf
  | _, _ => NaN
  end.

(** An array length as a double. *)
Definition of_length (n : nat) : jsnum := Fin (inject_Z (Z.of_nat n)).

(** ** Array.prototype.sort

    The comparator answers with a number; the sort reads only its sign and
    takes [NaN] for zero.  [a] stays in front of [b] unless the comparator
    is positive on [(a, b)]; elements that compare as equal keep their
    relative order. *)
Section Sort.
Context {A : Type}.
Variable comparefn : A -> A -> jsnum.

  (** [a] may precede [b]. *)
Definition before (a b : A) : bool := negb (gt0 (comparefn a b)).

Fixpoint insert (a : A) (l : list A) : list A :=
    match l with
    | [] => [a]
    | b :: l' => if before a b then a :: l else b :: insert a l'
    end.

Definition sort (l : list A) : list A := fold_right insert [] l.
End Sort.

(** The decimal spelling of a natural number, as [String (n)] and template
  literals produce it. *)
Definition decimal (n : nat) : string :=
DecimalString.NilZero.string_of_uint (Nat.to_uint n).

(** [Array.prototype.slice (0, n)]. *)
Definition slice0 {A : Type} (n : nat) (l : list A) : list A := firstn n l.

(** ** More strings: upper case, split and join *)

Definition is_lower (c : ascii) : bool :=
  (97 <=? nat_of_ascii c) && (nat_of_ascii c <=? 122).

Definition upper_char (c : ascii) : ascii :=
  if is_lower c then ascii_of_nat (nat_of_ascii c - 32) else c.

(** The text with every letter a to z replaced by its capital. *)
Fixpoint upper_ascii (s : string) : string :=
  match s with
  | EmptyString => EmptyString
  | String c s' => String (upper_char c) (upper_ascii s')
  end.

(** A text of ASCII characters only. *)
Fixpoint is_ascii (s : string) : bool :=
  match s with
  | EmptyString => true
  | String c s' => (nat_of_ascii c <? 128) && is_ascii s'
  end.

(** [String.prototype.toUpperCase] on ASCII text, where it capitalises the
    letters a to z and nothing else.  Outside ASCII the mapping is
    Unicode's, which may even change the length of the text; it is not
    modelled, and the result is [None]. *)
Definition toUpperCase (s : string) : option string :=
  if is_ascii s then Some (upper_ascii s) else None.

(** [String.prototype.split] on a one-character separator. *)
Fixpoint split (s : string) (sep : ascii) : list string :=
  match s with
  | EmptyString => [EmptyString]
  | String c s' =>
      if Ascii.eqb c sep then EmptyString :: split s' sep
      else match split s' sep with
           | w :: ws => String c w :: ws
           | [] => [String c EmptyString]
           end
  end.

(** [Array.prototype.join]. *)
Definition join (l : list string) (sep : string) : string := String.concat sep l.

(** [s.charAt (0)] and [s.slice (1)]. *)
Definition charAt0 (s : string) : string :=
  match s with
  | EmptyString => EmptyString
  | String c _ => String c EmptyString
  end.

Definition slice1 (s : string) : string :=
  match s with
  | EmptyString => EmptyString
  | String _ s' => s'
  end.

End Js.

(** ** Map *)

Module JsMap.
Section Map.
Context {V : Type}.

Definition t : Type := list (string * V).

Definition empty : t := [].

Fixpoint get (m : t) (k : string) : option V :=
    match m with
    | [] => None
    | (k', v) :: m' => if String.eqb k' k then Some v else get m' k
    end.

Definition has (m : t) (k : string) : bool :=
    match get m k with Some _ => true | None => false end.

Fixpoint set (m : t) (k : string) (v : V) : t :=
    match m with
    | [] => [(k, v)]
    | (k', v') :: m' =>
        if String.eqb k' k then (k, v) :: m' else (k', v') :: set m' k v
    end.

Definition keys (m : t) : list string := map fst m.

  (** [Array.from (m.values ())]. *)
Definition values (m : t) : list V := map snd m.
End Map.
Arguments t : clear implicits.
End JsMap.

(** ** Exceptions

    A computation either completes normally or throws; [try_catch] is a
    [try { ... } catch { ... }] block. *)

Module Exn.

Record error : Type := { name : string; message : string }.

Inductive completion (A : Type) : Type :=
| Normal (a : A)
| Thrown (e : error).
Arguments Normal {A} a.
Arguments Thrown {A} e.

Definition bind {A B : Type} (c : completion A) (k : A -> completion B)
  : completion B :=
  match c with
  | Normal a => k a
  | Thrown e => Thrown e
  end.

Definition try_catch {A : Type} (c : completion A) (handler : error -> completion A)
  : completion A :=
  match c with
  | Normal a => Normal a
  | Thrown e => handler e
  end.

(** [new Error (msg)]. *)
Definition Error (msg : string) : error := {| name := "Error"; message := msg |}.

Definition TypeError (msg : string) : error :=
  {| name := "TypeError"; message := msg |}.

(** [String (err)] for an error object. *)
Definition to_string (e : error) : string := name e ++ ": " ++ message e.

End Exn.

Notation "x <- c ;; k" := (Exn.bind c (fun x => k))
  (at level 61, c at next level, right associativity).

(** ** JSON values, as [JSON.parse] and the HTTP clients deliver them *)

#[local] Unset Elimination Schemes.
Inductive json : Type :=
| JNull
| JBool (b : bool)
| JNum (n : Js.jsnum)
| JStr (s : string)
| JArr (elems : list json)
| JObj (props : list (string * json)).
#[local] Set Elimination Schemes.

(** The empty object literal. *)
Definition empty_object : json := JObj [].

(** ToBoolean, as used by [!x], [x || y] and [if (x)]. *)
Definition truthy (v : json) : bool :=
  match v with
  | JNull => false
  | JBool b => b
  | JNum (Js.Fin q) => negb (Qeq_bool q 0)
  | JNum Js.NaN => false
  | JNum _ => true
  | JStr s => negb (String.eqb s "")
  | JArr _ | JObj _ => true
  end.

(** Own property lookup on an object; the properties of a [JObj] are listed
    in enumeration order with distinct names. *)
Fixpoint prop_lookup (props : list (string * json)) (k : string) : option json :=
  match props with
  | [] => None
  | (k', v) :: rest => if String.eqb k' k then Some v else prop_lookup rest k
  end.

(* ================================================================== *)
(** * lib/queries.ts *)
(* ================================================================== *)

Module Queries.

(** ** Rows of the record store (types/db.ts) *)

(** [prediction_date] is the instant the store keeps and orders by;
    [predicted_risk] is declared a string but read through [?? ""]. *)
Record RiskPredictionHistoryRow : Type := {
  supplier_id : string;
  prediction_date : Z;
  predicted_risk : option string;
  prob_high : option Q;
  prob_medium : option Q;
  prob_low : option Q;
  model_version : option string
}.

Record SupplierProfile : Type := {
  profile_supplier_id : string;
  profile_supplier_name : string
}.

Record SupplierRiskMasterRow : Type := {
  master_supplier_id : string;
  master_date : Z;
  is_predicted : option bool
}.

(** [RiskPredictionHistoryRow & { supplier_name?: string }]. *)
Record LatestPrediction : Type := {
  row : RiskPredictionHistoryRow;
  supplier_name : option string
}.

(** What a store query resolves to: [{ data, error, count }]. *)
Record Answer (A : Type) : Type := {
  data : option A;
  error : option string;
  count : option nat
}.
Arguments data {A} _.
Arguments error {A} _.
Arguments count {A} _.

(** [x ?? d]. *)
Definition nullish {A : Type} (x : option A) (d : A) : A :=
  match x with Some a => a | None => d end.

(** ** getLatestPredictionsPerSupplier *)

(** The reducing loop: keep the first row seen for each supplier. *)
Definition keep_first (latestBySupplier : JsMap.t RiskPredictionHistoryRow)
  (r : RiskPredictionHistoryRow) : JsMap.t RiskPredictionHistoryRow :=
  if JsMap.has latestBySupplier (supplier_id r) then latestBySupplier
  else JsMap.set latestBySupplier (supplier_id r) r.

Definition latestBySupplier (rows : list RiskPredictionHistoryRow)
  : JsMap.t RiskPredictionHistoryRow :=
  fold_left keep_first rows JsMap.empty.

(** [answer] is what the store returns for
    [.select ("*").order ("supplier_id", asc).order ("prediction_date", desc)]. *)
Definition getLatestPredictionsPerSupplier
  (answer : Answer (list RiskPredictionHistoryRow))
  : Exn.completion (list RiskPredictionHistoryRow) :=
  match error answer with
  | Some msg =>
      Exn.Thrown (Exn.Error ("Failed to fetch risk_prediction_history: " ++ msg))
  | None =>
      let rows := nullish (data answer) [] in
      Exn.Normal (JsMap.values (latestBySupplier rows))
  end.

(** ** getExecutiveOverview *)

Definition normalizeRiskLabel (label : option string) : string :=
  Js.trim (Js.replaceAll (Js.toLowerCase (nullish label "")) "_" " ").

Record Tally : Type := { high : nat; medium : nat; low : nat; unknown : nat }.

Record RiskCounts : Type := { High : nat; Medium : nat; Low : nat; Unknown : nat }.

Inductive RiskCategory : Type := CatHigh | CatMedium | CatLow | CatUnknown.

(** The category a normalised label is tallied under. *)
Definition label_category (r : string) : RiskCategory :=
  if String.eqb r "high risk" || String.eqb r "high" then CatHigh
  else if String.eqb r "medium risk" || String.eqb r "medium" then CatMedium
  else if String.eqb r "low risk" || String.eqb r "low" then CatLow
  else CatUnknown.

(** [counts.<category> += 1]. *)
Definition bump_tally (counts : Tally) (c : RiskCategory) : Tally :=
  match c with
  | CatHigh => {| high := high counts + 1; medium := medium counts;
                  low := low counts; unknown := unknown counts |}
  | CatMedium => {| high := high counts; medium := medium counts + 1;
                    low := low counts; unknown := unknown counts |}
  | CatLow => {| high := high counts; medium := medium counts;
                 low := low counts + 1; unknown := unknown counts |}
  | CatUnknown => {| high := high counts; medium := medium counts;
                     low := low counts; unknown := unknown counts + 1 |}
  end.

Definition zero_tally : Tally := {| high := 0; medium := 0; low := 0; unknown := 0 |}.

(** One turn of the first loop.  The tally object is shared with the map, so
    the increment is visible there: it is written back under the same key. *)
Definition tally_step (supplierRiskCounts : JsMap.t Tally)
  (p : RiskPredictionHistoryRow) : JsMap.t Tally :=
  let m :=
    if JsMap.has supplierRiskCounts (supplier_id p) then supplierRiskCounts
    else JsMap.set supplierRiskCounts (supplier_id p) zero_tally in
  match JsMap.get m (supplier_id p) with
  | Some counts =>
      let r := normalizeRiskLabel (predicted_risk p) in
      JsMap.set m (supplier_id p) (bump_tally counts (label_category r))
  | None => m
  end.

Definition supplierRiskCounts (allPredictions : list RiskPredictionHistoryRow)
  : JsMap.t Tally :=
  fold_left tally_step allPredictions JsMap.empty.

(** [Math.max (a, b, c, d)] on counters. *)
Definition Math_max (a b c d : nat) : nat := Nat.max (Nat.max (Nat.max a b) c) d.

(** The branch the second loop takes for one supplier. *)
Definition majority (counts : Tally) : RiskCategory :=
  let max := Math_max (high counts) (medium counts) (low counts) (unknown counts) in
  if high counts =? max then CatHigh
  else if medium counts =? max then CatMedium
  else if low counts =? max then CatLow
  else CatUnknown.

(** [riskCounts.<category> += 1]. *)
Definition bump_risk (rc : RiskCounts) (c : RiskCategory) : RiskCounts :=
  match c with
  | CatHigh => {| High := High rc + 1; Medium := Medium rc;
                  Low := Low rc; Unknown := Unknown rc |}
  | CatMedium => {| High := High rc; Medium := Medium rc + 1;
                    Low := Low rc; Unknown := Unknown rc |}
  | CatLow => {| High := High rc; Medium := Medium rc;
                 Low := Low rc + 1; Unknown := Unknown rc |}
  | CatUnknown => {| High := High rc; Medium := Medium rc;
                     Low := Low rc; Unknown := Unknown rc + 1 |}
  end.

Definition assign_step (rc : RiskCounts) (entry : string * Tally) : RiskCounts :=
  bump_risk rc (majority (snd entry)).

Definition riskCounts_of (m : JsMap.t Tally) : RiskCounts :=
  fold_left assign_step m {| High := 0; Medium := 0; Low := 0; Unknown := 0 |}.

(** [new Map (profiles.map ((p) => [p.supplier_id, p.supplier_name]))]. *)
Definition nameById (profiles : list SupplierProfile) : JsMap.t string :=
  fold_left (fun m p => JsMap.set m (profile_supplier_id p) (profile_supplier_name p))
    profiles JsMap.empty.

Definition with_name (names : JsMap.t string) (p : RiskPredictionHistoryRow)
  : LatestPrediction :=
  {| row := p; supplier_name := JsMap.get names (supplier_id p) |}.

(** [r.prob_high ?? 0]. *)
Definition prob_high_or_0 (r : RiskPredictionHistoryRow) : Q :=
  nullish (prob_high r) 0%Q.

(** [allPredictions.length === 0 ? null : allPredictions.reduce (...) /
    allPredictions.length]. *)
Definition avgProbHigh_of (allPredictions : list RiskPredictionHistoryRow)
  : option Js.jsnum :=
  if List.length allPredictions =? 0 then None
  else
    Some
      (Js.div
         (fold_left (fun sum r => Js.add sum (Js.Fin (prob_high_or_0 r)))
            allPredictions (Js.Fin 0))
         (Js.of_length (List.length allPredictions))).

(** The comparator of the top-ten sort. *)
Definition by_prob_high_desc (a b : LatestPrediction) : Js.jsnum :=
  Js.sub (Js.Fin (prob_high_or_0 (row b))) (Js.Fin (prob_high_or_0 (row a))).

Definition topHighRisk_of (allWithNames : list LatestPrediction)
  : list LatestPrediction :=
  Js.slice0 10 (Js.sort by_prob_high_desc allWithNames).

Record ExecutiveOverview : Type := {
  latestPredictions : list LatestPrediction;
  riskCounts : RiskCounts;
  avgProbHigh : option Js.jsnum;
  topHighRisk : list LatestPrediction;
  totalSuppliers : nat;
  totalPredictions : nat
}.

(** The body of [getExecutiveOverview] after its five parallel reads have
    resolved. *)
Definition getExecutiveOverview
  (profiles : list SupplierProfile)
  (latest all : list RiskPredictionHistoryRow)
  (nSuppliers nPredictions : nat) : ExecutiveOverview :=
  let names := nameById profiles in
  {| latestPredictions := map (with_name names) latest;
     riskCounts := riskCounts_of (supplierRiskCounts all);
     avgProbHigh := avgProbHigh_of all;
     topHighRisk := topHighRisk_of (map (with_name names) all);
     totalSuppliers := nSuppliers;
     totalPredictions := nPredictions |}.

(** ** SHAP explanations *)

Record ShapExplanationsRow : Type := {
  shap_supplier_id : string;
  shap_prediction_date : Z;
  shap_values : json
}.

Inductive Direction : Type := increases | reduces.

Record TopFeature : Type := {
  feature : string;
  shap : Js.jsnum;
  direction : Direction
}.

Record ShapSummary : Type := {
  summary_supplier_id : string;
  summary_supplier_name : option string;
  summary_prediction_date : Z;
  summary_predicted_risk : option string;
  top_features : list TopFeature
}.

(** An entry after [.map (([feature, value]) => ({ feature, shap: Number (value) }))]. *)
Record ShapValue : Type := { sv_feature : string; sv_shap : Js.jsnum }.

(** An array index as a property name. *)
Definition index_key (i : nat) : string := Js.decimal i.

Fixpoint chars_from (i : nat) (s : string) : list (string * json) :=
  match s with
  | EmptyString => []
  | String c s' => (index_key i, JStr (String c EmptyString)) :: chars_from (S i) s'
  end.

(** [Object.entries]: the own enumerable string-keyed properties; it throws
    on [null]. *)
Definition Object_entries (v : json) : Exn.completion (list (string * json)) :=
  match v with
  | JNull =>
      Exn.Thrown (Exn.TypeError "Cannot convert undefined or null to object")
  | JObj props => Exn.Normal props
  | JArr elems =>
      Exn.Normal (combine (map index_key (seq 0 (List.length elems))) elems)
  | JStr s => Exn.Normal (chars_from 0 s)
  | JBool _ | JNum _ => Exn.Normal []
  end.

(** The comparator of both rankings: larger magnitude first. *)
Definition by_magnitude_desc (a b : ShapValue) : Js.jsnum :=
  Js.sub (Js.abs (sv_shap b)) (Js.abs (sv_shap a)).

Definition classify (x : ShapValue) : TopFeature :=
  {| feature := sv_feature x;
     shap := sv_shap x;
     direction := if Js.ge0 (sv_shap x) then increases else reduces |}.

Section Decoding.

(** [JSON.parse] and the [Number] coercion are the platform's. *)
Variable JSON_parse : string -> Exn.completion json.
Variable Number : json -> Js.jsnum.

Definition parseShapValues (raw : json) : Exn.completion json :=
  if negb (truthy raw) then Exn.Normal empty_object
  else
    match raw with
    | JStr s => Exn.try_catch (JSON_parse s) (fun _ => Exn.Normal empty_object)
    | _ => Exn.Normal raw
    end.

Definition to_shap_value (e : string * json) : ShapValue :=
  {| sv_feature := fst e; sv_shap := Number (snd e) |}.

(** The ranking pipeline of [getLatest3ShapSummaries] on one explanation. *)
Definition rank_top3 (shapDict : json) : Exn.completion (list TopFeature) :=
  entries <- Object_entries shapDict ;;
  Exn.Normal
    (map classify
       (Js.slice0 3
          (Js.sort by_magnitude_desc
             (filter (fun x => Js.isFinite (sv_shap x))
                (map to_shap_value entries))))).

(** One turn of the loop over the three latest predictions; [answer] is the
    store's reply to the explanation query for [p]. *)
Definition summarize (names : JsMap.t string) (p : RiskPredictionHistoryRow)
  (answer : Answer (list ShapExplanationsRow)) : Exn.completion ShapSummary :=
  match error answer with
  | Some msg => Exn.Thrown (Exn.Error ("Failed to fetch SHAP: " ++ msg))
  | None =>
      let raw :=
        match nullish (data answer) [] with
        | r :: _ => shap_values r
        | [] => JNull
        end in
      shapDict <- parseShapValues raw ;;
      top <- rank_top3 shapDict ;;
      Exn.Normal
        {| summary_supplier_id := supplier_id p;
           summary_supplier_name := JsMap.get names (supplier_id p);
           summary_prediction_date := prediction_date p;
           summary_predicted_risk := predicted_risk p;
           top_features := top |}
  end.

Fixpoint summarize_all (names : JsMap.t string)
  (shapQuery : RiskPredictionHistoryRow -> Answer (list ShapExplanationsRow))
  (latest3 : list RiskPredictionHistoryRow) : Exn.completion (list ShapSummary) :=
  match latest3 with
  | [] => Exn.Normal []
  | p :: rest =>
      s <- summarize names p (shapQuery p) ;;
      summaries <- summarize_all names shapQuery rest ;;
      Exn.Normal (s :: summaries)
  end.

Definition getLatest3ShapSummaries
  (preds : Answer (list RiskPredictionHistoryRow))
  (profiles : list SupplierProfile)
  (shapQuery : RiskPredictionHistoryRow -> Answer (list ShapExplanationsRow))
  : Exn.completion (list ShapSummary) :=
  match error preds with
  | Some msg => Exn.Thrown (Exn.Error ("Failed to fetch latest predictions: " ++ msg))
  | None =>
      summarize_all (nameById profiles) shapQuery (nullish (data preds) [])
  end.

(** [getLatestShapForSupplier]: the decoded explanation of the newest row. *)
Definition getLatestShapForSupplier (answer : Answer (list ShapExplanationsRow))
  : Exn.completion (option (string * Z * json)) :=
  match error answer with
  | Some msg => Exn.Thrown (Exn.Error ("Failed to fetch latest SHAP: " ++ msg))
  | None =>
      match nullish (data answer) [] with
      | [] => Exn.Normal None
      | r :: _ =>
          v <- parseShapValues (shap_values r) ;;
          Exn.Normal (Some (shap_supplier_id r, shap_prediction_date r, v))
      end
  end.

End Decoding.

(** ** getUnpredictedCount *)

(** The filter grammar of the store, as far as this query uses it, with the
    three-valued reading SQL gives it: [None] is "unknown". *)
Inductive Filter : Type :=
| is_predicted_eq (b : bool)
| is_predicted_is_null
| or_ (f g : Filter).

Fixpoint eval (f : Filter) (r : SupplierRiskMasterRow) : option bool :=
  match f with
  | is_predicted_eq b =>
      match is_predicted r with
      | Some v => Some (Bool.eqb v b)
      | None => None
      end
  | is_predicted_is_null =>
      match is_predicted r with
      | Some _ => Some false
      | None => Some true
      end
  | or_ f g =>
      match eval f r, eval g r with
      | Some true, _ | _, Some true => Some true
      | Some false, Some false => Some false
      | _, _ => None
      end
  end.

(** A row is returned (and counted) when the filter is true on it. *)
Definition selected (f : Filter) (r : SupplierRiskMasterRow) : bool :=
  match eval f r with Some true => true | _ => false end.

(** [.or ("is_predicted.eq.false,is_predicted.is.null")]. *)
Definition unpredicted_filter : Filter :=
  or_ (is_predicted_eq false) is_predicted_is_null.

(** The store's reply to [.select ("*", { head: true, count: "exact" })]
    under a filter: no rows, the exact count. *)
Definition count_query (f : Filter) (table : list SupplierRiskMasterRow)
  : Answer (list SupplierRiskMasterRow) :=
  {| data := None; error := None;
     count := Some (List.length (filter (selected f) table)) |}.

Definition getUnpredictedCount (answer : Answer (list SupplierRiskMasterRow))
  : Exn.completion nat :=
  match error answer with
  | Some msg => Exn.Thrown (Exn.Error ("Failed to count unpredicted rows: " ++ msg))
  | None => Exn.Normal (nullish (count answer) 0)
  end.

(** ** Distinct values: getTotalSuppliers, getShapSupplierIds,
       getRiskMasterFilterOptions *)

(** [set.add (x)] on a [Set] of strings, kept in insertion order. *)
Definition set_add (s : list string) (x : string) : list string :=
  if existsb (String.eqb x) s then s else s ++ [x].

(** [(row as any)?.k] on a row as the store delivers it. *)
Definition row_prop (row : json) (k : string) : option json :=
  match row with
  | JObj props => prop_lookup props k
  | _ => None
  end.

(** [if (typeof v === "string") set.add (v)] for [v = row?.k]. *)
Definition add_string_prop (k : string) (set : list string) (row : json)
  : list string :=
  match row_prop row k with
  | Some (JStr v) => set_add set v
  | _ => set
  end.

(** [if (typeof v === "string" && v.trim ()) set.add (v)]. *)
Definition add_nonblank_prop (k : string) (set : list string) (row : json)
  : list string :=
  match row_prop row k with
  | Some (JStr v) => if String.eqb (Js.trim v) "" then set else set_add set v
  | _ => set
  end.

Definition getTotalSuppliers (answer : Answer (list json)) : Exn.completion nat :=
  match error answer with
  | Some msg =>
      Exn.Thrown
        (Exn.Error ("Failed to fetch supplier_risk_master for supplier count: " ++ msg))
  | None =>
      Exn.Normal
        (List.length
           (fold_left (add_string_prop "supplier_id") (nullish (data answer) []) []))
  end.

(** The comparison [Array.prototype.sort] uses when given none: strings by
    code units. *)
Definition default_compare (a b : string) : Js.jsnum :=
  match String.compare a b with
  | Lt => Js.Fin (-1 # 1)
  | Eq => Js.Fin 0
  | Gt => Js.Fin 1
  end.

(** [Array.from (set).sort ()]. *)
Definition sorted_values (set : list string) : list string :=
  Js.sort default_compare set.

Definition getShapSupplierIds (answer : Answer (list json))
  : Exn.completion (list string) :=
  match error answer with
  | Some msg => Exn.Thrown (Exn.Error ("Failed to fetch SHAP supplier IDs: " ++ msg))
  | None =>
      Exn.Normal
        (sorted_values
           (fold_left (add_string_prop "supplier_id") (nullish (data answer) []) []))
  end.

Record RiskMasterFilterOptions : Type := {
  supplierIds : list string;
  riskCategories : list string;
  industrySegments : list string;
  totalRows : nat
}.

(** The three sets of the loop. *)
Record OptionSets : Type := {
  set_suppliers : list string;
  set_categories : list string;
  set_segments : list string
}.

Definition collect_options (sets : OptionSets) (row : json) : OptionSets :=
  {| set_suppliers := add_string_prop "supplier_id" (set_suppliers sets) row;
     set_categories := add_nonblank_prop "risk_category" (set_categories sets) row;
     set_segments := add_nonblank_prop "industry_segment" (set_segments sets) row |}.

Definition getRiskMasterFilterOptions (answer : Answer (list json))
  : Exn.completion RiskMasterFilterOptions :=
  match error answer with
  | Some msg =>
      Exn.Thrown
        (Exn.Error ("Failed to fetch supplier_risk_master filter options: " ++ msg))
  | None =>
      let sets :=
        fold_left collect_options (nullish (data answer) [])
          {| set_suppliers := []; set_categories := []; set_segments := [] |} in
      Exn.Normal
        {| supplierIds := "All" :: sorted_values (set_suppliers sets);
           riskCategories := "All" :: sorted_values (set_categories sets);
           industrySegments := "All" :: sorted_values (set_segments sets);
           totalRows :=
             nullish (count answer)
               (match data answer with
                | Some rows => List.length rows
                | None => 0
                end) |}
  end.

(** ** Pages: getPredictionHistoryPage, getRiskMasterPage

    Page numbers and page sizes are integers. *)

Record PageOf (A : Type) : Type := {
  page_rows : list A;
  page_total : nat;
  page_number : Z;
  page_size : Z
}.
Arguments page_rows {A} _.
Arguments page_total {A} _.
Arguments page_number {A} _.
Arguments page_size {A} _.

(** [ranged from to] is the store's answer to the query with
    [.range (from, to)]. *)
Definition getPredictionHistoryPage (argPage argPageSize : Z)
  (ranged : Z -> Z -> Answer (list RiskPredictionHistoryRow))
  : Exn.completion (PageOf RiskPredictionHistoryRow) :=
  let page := Z.max 1 argPage in
  let pageSize := Z.min 100 (Z.max 5 argPageSize) in
  let from := ((page - 1) * pageSize)%Z in
  let to := (from + pageSize - 1)%Z in
  let answer := ranged from to in
  match error answer with
  | Some msg => Exn.Thrown (Exn.Error ("Failed to fetch prediction history: " ++ msg))
  | None =>
      Exn.Normal
        {| page_rows := nullish (data answer) [];
           page_total := nullish (count answer) 0;
           page_number := page;
           page_size := pageSize |}
  end.

Definition getRiskMasterPage (argPage argPageSize : Z)
  (ranged : Z -> Z -> Answer (list SupplierRiskMasterRow))
  : Exn.completion (PageOf SupplierRiskMasterRow) :=
  let page := Z.max 1 argPage in
  let pageSize := Z.min 200 (Z.max 10 argPageSize) in
  let from := ((page - 1) * pageSize)%Z in
  let to := (from + pageSize - 1)%Z in
  let answer := ranged from to in
  match error answer with
  | Some msg => Exn.Thrown (Exn.Error ("Failed to fetch supplier_risk_master: " ++ msg))
  | None =>
      Exn.Normal
        {| page_rows := nullish (data answer) [];
           page_total := nullish (count answer) 0;
           page_number := page;
           page_size := pageSize |}
  end.

End Queries.

(* ================================================================== *)
(** * app/supplier-risk-master/page.tsx: the pager *)
(* ================================================================== *)

Module SupplierRiskMasterPage.

(** [Math.max (1, Math.ceil (total / pageSize))], for a positive page
    size. *)
Definition totalPages (total pageSize : Z) : Z :=
  Z.max 1 (Qceiling (inject_Z total / inject_Z pageSize)).

(** [Math.min (Math.max (1, page), totalPages)]. *)
Definition safePage (page pages : Z) : Z := Z.min (Z.max 1 page) pages.

End SupplierRiskMasterPage.

(* ================================================================== *)
(** * app/shap/page.tsx *)
(* ================================================================== *)

Module ShapPage.

Record Entry : Type := { feature : string; value : Js.jsnum }.

Definition by_magnitude_desc (a b : Entry) : Js.jsnum :=
  Js.sub (Js.abs (value b)) (Js.abs (value a)).

Section Page.

Variable Number : json -> Js.jsnum.

Definition to_entry (e : string * json) : Entry :=
  {| feature := fst e; value := Number (snd e) |}.

(** [latest?.shap_values ?? {}]. *)
Definition shap_values_or_empty (latest : option (string * Z * json)) : json :=
  match latest with
  | Some (_, _, JNull) | None => empty_object
  | Some (_, _, v) => v
  end.

Definition shapEntries (latest : option (string * Z * json))
  : Exn.completion (list Entry) :=
  entries <- Queries.Object_entries (shap_values_or_empty latest) ;;
  Exn.Normal
    (Js.sort by_magnitude_desc
       (filter (fun x => Js.isFinite (value x)) (map to_entry entries))).

Definition increasing (shapEntries : list Entry) : list Entry :=
  Js.slice0 5 (filter (fun x => Js.gt0 (value x)) shapEntries).

Definition reducing (shapEntries : list Entry) : list Entry :=
  Js.slice0 5 (filter (fun x => Js.lt0 (value x)) shapEntries).

End Page.

(** [word.charAt (0).toUpperCase () + word.slice (1)]. *)
Definition capitalise (word : string) : option string :=
  match Js.toUpperCase (Js.charAt0 word) with
  | Some first => Some (first ++ Js.slice1 word)%string
  | None => None
  end.

(** [Array.prototype.map] with a callback that is modelled on part of its
    inputs only. *)
Fixpoint map_all {A B : Type} (f : A -> option B) (l : list A) : option (list B) :=
  match l with
  | [] => Some []
  | a :: l' =>
      match f a, map_all f l' with
      | Some b, Some bs => Some (b :: bs)
      | _, _ => None
      end
  end.

(** [prettyFeature]: underscores to spaces, every word capitalised; [None]
    where a word starts outside ASCII. *)
Definition prettyFeature (name : string) : option string :=
  match map_all capitalise (Js.split (Js.replaceAll name "_" " ") " ") with
  | Some words => Some (Js.join words " ")
  | None => None
  end.

End ShapPage.

(* ================================================================== *)
(** * app/api/supabase/export-risk-master/route.ts *)
(* ================================================================== *)

Module ExportRoute.

Definition quote : ascii := ascii_of_nat 34.
Definition newline : ascii := ascii_of_nat 10.
Definition comma : ascii := ",".

(** The test of the regular expression that looks for a double quote, a
    comma or a line feed. *)
Fixpoint needs_quoting (s : string) : bool :=
  match s with
  | EmptyString => false
  | String c s' =>
      Ascii.eqb c quote || Ascii.eqb c comma || Ascii.eqb c newline
      || needs_quoting s'
  end.

(** [s.replaceAll] of one double quote by two. *)
Fixpoint double_quotes (s : string) : string :=
  match s with
  | EmptyString => EmptyString
  | String c s' =>
      if Ascii.eqb c quote then String quote (String quote (double_quotes s'))
      else String c (double_quotes s')
  end.

(** A cell value is given by the text [String (value)] makes of it; [None]
    is [null] or [undefined]. *)
Definition csvEscape (value : option string) : string :=
  let s := match value with Some s => s | None => EmptyString end in
  if needs_quoting s then String quote (double_quotes s ++ String quote EmptyString)
  else s.

(** A row of the store: its columns, in order, with their values. *)
Definition Row : Type := list (string * option string).

(** [r[h]]: [undefined] for a column the row does not have. *)
Fixpoint cell (r : Row) (h : string) : option string :=
  match r with
  | [] => None
  | (k, v) :: r' => if String.eqb k h then v else cell r' h
  end.

Definition toCsv (rows : list Row) : string :=
  match rows with
  | [] => EmptyString
  | first :: _ =>
      let headers := map fst first in
      let lines :=
        Js.join (map (fun h => csvEscape (Some h)) headers) ","
        :: map (fun r => Js.join (map (fun h => csvEscape (cell r h)) headers) ",")
             rows in
      Js.join lines (String newline EmptyString)
  end.

End ExportRoute.

(* ================================================================== *)
(** * components/risk-badge.tsx *)
(* ================================================================== *)

Module RiskBadge.

Inductive Variant : Type := riskHigh | riskMedium | riskLow | outline.

(** The badge of a risk label: its variant and its text. *)
Definition RiskBadge (risk : option string) : Variant * string :=
  let normalized :=
    Js.trim (Js.replaceAll (Js.toLowerCase (match risk with Some s => s | None => "" end))
               "_" " ") in
  if String.eqb normalized "high" || String.eqb normalized "high risk"
  then (riskHigh, "High Risk")
  else if String.eqb normalized "medium" || String.eqb normalized "medium risk"
  then (riskMedium, "Medium Risk")
  else if String.eqb normalized "low" || String.eqb normalized "low risk"
  then (riskLow, "Low Risk")
  else (outline, "Unknown").

End RiskBadge.

(* ================================================================== *)
(** * lib/airflow.ts *)
(* ================================================================== *)

Module Airflow.

(** What [fetch] resolves to; reading the body may itself fail. *)
Record Response : Type := {
  ok : bool;
  status : nat;
  text : Exn.completion string
}.

(** The declared result is [{ success, message, details }]; [message] is
    whatever value the code puts there. *)
Record TriggerResult : Type := {
  success : bool;
  message : json;
  details : json
}.

(** [v?.k]. *)
Definition opt_prop (v : json) (k : string) : option json :=
  match v with
  | JObj props => prop_lookup props k
  | _ => None
  end.

(** [a || b], with [None] for [undefined]. *)
Definition or_else (a : option json) (b : json) : json :=
  match a with
  | Some v => if truthy v then v else b
  | None => b
  end.

(** [v.includes (x)] for a string [x]: substring search on a string,
    membership on an array, a [TypeError] where there is no such method. *)
Definition includes (v : json) (x : string) : Exn.completion bool :=
  match v with
  | JStr s => Exn.Normal (Js.includes s x)
  | JArr elems =>
      Exn.Normal
        (existsb (fun e => match e with JStr s => String.eqb s x | _ => false end)
           elems)
  | _ => Exn.Thrown (Exn.TypeError "errorMsg.includes is not a function")
  end.

Section Trigger.

Variable JSON_parse : string -> Exn.completion json.

(** The inner [try]: the parsed body, or [{}] when the body is empty, is not
    JSON, or cannot be read. *)
Definition read_data (response : Response) : json :=
  match
    (t <- text response ;;
     if String.eqb t "" then Exn.Normal empty_object else JSON_parse t)
  with
  | Exn.Normal d => d
  | Exn.Thrown _ => empty_object
  end.

Definition errorMsg_of (response : Response) : json :=
  let data := read_data response in
  or_else (opt_prop data "detail")
    (or_else (opt_prop data "error") (JStr ("HTTP " ++ Js.decimal (status response)))).

(** The body of the outer [try]. *)
Definition trigger_body (response : Response) : Exn.completion TriggerResult :=
  let data := read_data response in
  if negb (ok response) then
    let errorMsg := errorMsg_of response in
    a <- includes errorMsg "No new rows to predict" ;;
    b <- (if a then Exn.Normal true else includes errorMsg "no new rows") ;;
    if b then
      Exn.Normal
        {| success := true;
           message := JStr "No new rows to predict (INFO: all rows already processed)";
           details := data |}
    else
      Exn.Normal {| success := false; message := errorMsg; details := data |}
  else
    Exn.Normal
      {| success := true;
         message := JStr "Airflow DAG triggered successfully!";
         details := data |}.

(** [fetched] is the outcome of the one [fetch] call. *)
Definition triggerPredictionDag (fetched : Exn.completion Response) : TriggerResult :=
  match (response <- fetched ;; trigger_body response) with
  | Exn.Normal r => r
  | Exn.Thrown err =>
      {| success := false;
         message := JStr (Exn.message err);
         details := JObj [("error", JStr (Exn.to_string err))] |}
  end.

End Trigger.

(** The orchestrator's error text of a response, when it is text. *)
Definition error_text (JSON_parse : string -> Exn.completion json)
  (response : Response) : option string :=
  match errorMsg_of JSON_parse response with
  | JStr s => Some s
  | _ => None
  end.

End Airflow.

(* ================================================================== *)
(** * app/api/airflow/trigger/route.ts *)
(* ================================================================== *)

Module TriggerRoute.

(** What a route answers with: the HTTP status and the JSON body.  A body
    built from parsed JSON reads back on the client as the same value. *)
Record HttpJson : Type := { status : nat; body : json }.

(** [result] is what the awaited [triggerPredictionDag ()] completes with. *)
Definition POST (result : Exn.completion Airflow.TriggerResult) : HttpJson :=
  match result with
  | Exn.Normal r =>
      if Airflow.success r then
        {| status := 200;
           body := JObj [("success", JBool true);
                         ("message", Airflow.message r);
                         ("details", Airflow.details r)] |}
      else
        {| status := 500;
           body := JObj [("error", Airflow.message r);
                         ("details", Airflow.details r)] |}
  | Exn.Thrown err =>
      {| status := 500; body := JObj [("error", JStr (Exn.message err))] |}
  end.

End TriggerRoute.

(* ================================================================== *)
(** * app/upload/page.tsx: the run status poller *)
(* ================================================================== *)

Module UploadPage.

(** [data.data] of a status reply: the orchestrator's view of the run. *)
Record RunData : Type := { state : string }.

(** What one status request comes back with: the request (or reading its
    JSON body) fails, or a body [{ success, data }] arrives. *)
Inductive StatusReply : Type :=
| Rejected (e : Exn.error)
| Body (success : bool) (data : option RunData).

(** Everything a poll does to the outside: requests, state setters of the
    page, and timers. *)
Inductive Effect : Type :=
| FetchStatus (runId : string)
| SetDagStatus (s : string)
| SetTriggering (b : bool)
| SetTriggerResult (success : bool) (message : string)
| SetShowPredictions (b : bool)
| RefreshUnpredicted
| FetchRecentPredictions (since : string)
| SetTimeout (ms : nat).

(** The closure of [pollDagStatus]: the attempt counter, the timer that is
    pending (if any), and the effects so far, oldest first. *)
Record Poller : Type := {
  attempts : nat;
  scheduled : option nat;
  effects : list Effect
}.

Definition maxAttempts : nat := 60.

Definition failed_message : string :=
  "❌ DAG run failed. Check Airflow for details.".
Definition timeout_message : string :=
  "⏱️ Polling timeout. DAG may still be running. Check Airflow.".
Definition status_error_message : string :=
  "Failed to fetch DAG status. Check Airflow.".
Definition poll_error_message : string := "Error polling DAG status.".

(** The poll stops after performing [es]. *)
Definition stop (n : nat) (done es : list Effect) : Poller :=
  {| attempts := n; scheduled := None; effects := done ++ es |}.

(** [setTimeout (poll, 5000)] after performing [es]. *)
Definition again (n : nat) (done es : list Effect) : Poller :=
  {| attempts := n; scheduled := Some 5000; effects := done ++ es ++ [SetTimeout 5000] |}.

(** One firing of [poll], given what the status request comes back with. *)
Definition poll (runId triggerTime : string) (reply : StatusReply) (p : Poller)
  : Poller :=
  let n := attempts p + 1 in
  let done := effects p ++ [FetchStatus runId] in
  match reply with
  | Body true (Some d) =>
      let st := state d in
      if String.eqb st "success" then
        stop n done
          [SetDagStatus st; SetTriggering false; RefreshUnpredicted;
           FetchRecentPredictions triggerTime; SetShowPredictions true]
      else if String.eqb st "failed" then
        stop n done
          [SetDagStatus st; SetTriggering false;
           SetTriggerResult false failed_message]
      else if String.eqb st "running" || String.eqb st "queued" then
        if n <? maxAttempts then again n done [SetDagStatus st]
        else
          stop n done
            [SetDagStatus st; SetTriggering false;
             SetTriggerResult false timeout_message]
      else stop n done [SetDagStatus st]
  | Body _ _ =>
      if n <? maxAttempts then again n done []
      else stop n done [SetTriggering false; SetTriggerResult false status_error_message]
  | Rejected _ =>
      if n <? maxAttempts then again n done []
      else stop n done [SetTriggering false; SetTriggerResult false poll_error_message]
  end.

(** [pollDagStatus]: nothing is polled yet, the first poll is two seconds
    away. *)
Definition pollDagStatus : Poller :=
  {| attempts := 0; scheduled := Some 2000; effects := [SetTimeout 2000] |}.

(** The timer loop: while a poll is pending, fire it.  [replies i] is what
    the [i]-th status request (counting from 0) comes back with; [fuel]
    bounds the number of firings. *)
Fixpoint run (runId triggerTime : string) (replies : nat -> StatusReply)
  (fuel : nat) (p : Poller) : Poller :=
  match fuel with
  | 0 => p
  | S fuel' =>
      match scheduled p with
      | None => p
      | Some _ =>
          run runId triggerTime replies fuel'
            (poll runId triggerTime (replies (attempts p)) p)
      end
  end.

(** The terminal classifications of the design, read off the closure. *)
Inductive Terminal : Type := Success | Failed | TimedOut | PollError.

Definition is_fetch (e : Effect) : bool :=
  match e with FetchStatus _ => true | _ => false end.

(** Effects only the success branch performs. *)
Definition is_success_effect (e : Effect) : bool :=
  match e with
  | RefreshUnpredicted | FetchRecentPredictions _ | SetShowPredictions _ => true
  | _ => false
  end.

(** The effect only the failure branch performs. *)
Definition is_failure_effect (e : Effect) : bool :=
  match e with
  | SetTriggerResult _ m => String.eqb m failed_message
  | _ => false
  end.

Definition terminal (p : Poller) : option Terminal :=
  match scheduled p with
  | Some _ => None
  | None =>
      match rev (effects p) with
      | SetShowPredictions true :: _ => Some Success
      | SetTriggerResult false m :: _ =>
          if String.eqb m failed_message then Some Failed
          else if String.eqb m timeout_message then Some TimedOut
          else Some PollError
      | _ => None
      end
  end.

(** ** triggerDag *)

(** The result card of the page: [{ success, message, details }]. *)
Record ShownResult : Type := {
  shown_success : bool;
  shown_message : json;
  shown_details : option json
}.

(** What [triggerDag] does: state setters of the page, the request to the
    trigger route, and the start of the poll loop. *)
Inductive PageEffect : Type :=
| PSetTriggering (b : bool)
| PSetTriggerResult (r : option ShownResult)
| PSetDagRunId (v : option json)
| PSetDagStatus (s : option string)
| PSetShowPredictions (b : bool)
| PostTrigger
| StartPolling (runId : json) (triggerTime : string).

(** [res.ok]. *)
Definition is_ok (status : nat) : bool := (200 <=? status) && (status <=? 299).

(** [v.k]: a [TypeError] on [null], [undefined] where there is no such
    property. *)
Definition prop (v : json) (k : string) : Exn.completion (option json) :=
  match v with
  | JNull => Exn.Thrown (Exn.TypeError "Cannot read properties of null")
  | JObj props => Exn.Normal (prop_lookup props k)
  | _ => Exn.Normal None
  end.

(** [v?.k] on a value that may be [undefined]. *)
Definition chain (v : option json) (k : string) : option json :=
  match v with
  | Some (JObj props) => prop_lookup props k
  | _ => None
  end.

Section TriggerDag.

(** [String (x)], as [new Error (x)] applies it to its argument. *)
Variable ToString : json -> string.

(** The body of the [try] block; [fetched] is the outcome of the request
    and of reading its JSON body. *)
Definition trigger_try (triggerTime : string)
  (fetched : Exn.completion TriggerRoute.HttpJson)
  : Exn.completion (list PageEffect) :=
  res <- fetched ;;
  let data := TriggerRoute.body res in
  if negb (is_ok (TriggerRoute.status res)) then
    error <- prop data "error" ;;
    Exn.Thrown
      (Exn.Error (ToString (Airflow.or_else error (JStr "Failed to trigger DAG"))))
  else
    details <- prop data "details" ;;
    let runId := chain details "dag_run_id" in
    message <- prop data "message" ;;
    Exn.Normal
      ([PSetDagRunId runId; PSetDagStatus (Some "running");
        PSetTriggerResult
          (Some {| shown_success := true;
                   shown_message :=
                     Airflow.or_else message
                       (JStr "✅ Airflow DAG triggered successfully!");
                   shown_details := details |})]
       ++ match runId with
          | Some v => if truthy v then [StartPolling v triggerTime] else []
          | None => []
          end).

Definition triggerDag (triggerTime : string)
  (fetched : Exn.completion TriggerRoute.HttpJson) : list PageEffect :=
  [PSetTriggering true; PSetTriggerResult None; PSetDagRunId None;
   PSetDagStatus (Some "queued"); PSetShowPredictions false; PostTrigger]
  ++ match trigger_try triggerTime fetched with
     | Exn.Normal es => es
     | Exn.Thrown err =>
         [PSetDagStatus None;
          PSetTriggerResult
            (Some {| shown_success := false;
                     shown_message := JStr (Exn.message err);
                     shown_details := None |});
          PSetTriggering false]
     end.

End TriggerDag.

(** The two pieces of page state the trigger button reads, with their
    initial values. *)
Record ButtonState : Type := { triggering : bool; dagStatus : option string }.

Definition initial_state : ButtonState :=
  {| triggering := false; dagStatus := None |}.

Definition apply_effect (st : ButtonState) (e : PageEffect) : ButtonState :=
  match e with
  | PSetTriggering b => {| triggering := b; dagStatus := dagStatus st |}
  | PSetDagStatus s => {| triggering := triggering st; dagStatus := s |}
  | _ => st
  end.

Definition page_after (es : list PageEffect) : ButtonState :=
  fold_left apply_effect es initial_state.

(** [disabled={triggering || dagStatus === "running"}]. *)
Definition button_disabled (st : ButtonState) : bool :=
  triggering st
  || match dagStatus st with
     | Some s => String.eqb s "running"
     | None => false
     end.

(** ** Choosing a file: the header check and the summary

    [handleFileChange], from the parsed file on: [fields] is
    [parsed.meta.fields], [data] is [parsed.data].  A parsed row is an
    object from header field to cell text. *)

Definition REQUIRED_COLUMNS : list string :=
  ["supplier_id"; "date"; "on_time_delivery_rate"; "quality_score";
   "geopolitical_risk_score"; "communication_score"; "annual_spending_rupees";
   "total_risk_score"; "risk_category"; "industry_segment"; "supplier_size"].

Definition CsvRow : Type := JsMap.t string.

Record Validation : Type := { valid : bool; missing : list string }.

(** The pieces of page state the handler sets; it resets them before the
    file is read. *)
Record FileSummary : Type := {
  rowCount : nat;
  uniqueSuppliers : nat;
  preview : list CsvRow;
  validation : option Validation
}.

(** [REQUIRED_COLUMNS.filter((col) => !headers.includes(col))]. *)
Definition missing_columns (headers : list string) : list string :=
  filter (fun col => negb (existsb (String.eqb col) headers)) REQUIRED_COLUMNS.

(** [(parsed.data ?? []).filter((r) => r && Object.keys(r).length > 0)]. *)
Definition data_rows (data : list CsvRow) : list CsvRow :=
  filter (fun r => 0 <? List.length (JsMap.keys r)) data.

(** [new Set(rows.map((r) => String(r["supplier_id"] ?? "").trim()).filter(Boolean))]. *)
Definition supplier_ids (rows : list CsvRow) : list string :=
  fold_left Queries.set_add
    (filter (fun s => negb (String.eqb s ""))
       (map (fun r => Js.trim (Queries.nullish (JsMap.get r "supplier_id") "")) rows))
    [].

Definition handleFileChange (fields : list string) (data : list CsvRow)
  : FileSummary :=
  let headers := map Js.trim fields in
  let missing := missing_columns headers in
  if 0 <? List.length missing then
    {| rowCount := 0; uniqueSuppliers := 0; preview := [];
       validation := Some {| valid := false; missing := missing |} |}
  else
    let rows := data_rows data in
    {| rowCount := List.length rows;
       uniqueSuppliers := List.length (supplier_ids rows);
       preview := Js.slice0 10 rows;
       validation := Some {| valid := true; missing := [] |} |}.

End UploadPage.

(* ================================================================== *)
(** * app/api/supabase/upload-csv/route.ts: storing an uploaded file *)
(* ================================================================== *)

Module UploadRoute.

Definition REQUIRED_COLUMNS : list string :=
  ["supplier_id"; "date"; "on_time_delivery_rate"; "quality_score";
   "geopolitical_risk_score"; "communication_score"; "annual_spending_rupees";
   "total_risk_score"; "risk_category"; "industry_segment"; "supplier_size"].

(** A parsed row ([dynamicTyping: false]: every cell is text). *)
Definition CsvRow : Type := JsMap.t string.

(** One record handed to the store.  [None] is [undefined] for the first
    two fields and [null] for the others. *)
Record UploadRecord : Type := {
  supplier_id : option string;
  date : option string;
  on_time_delivery_rate : option Q;
  quality_score : option Q;
  geopolitical_risk_score : option Q;
  communication_score : option Q;
  annual_spending_rupees : option Q;
  total_risk_score : option Q;
  risk_category : option string;
  industry_segment : option string;
  supplier_size : option string;
  is_predicted : bool
}.

(** The response: status 400 with [{ error }], or status 200 with
    [{ success: true, inserted, data }], of which [inserted] is kept. *)
Inductive Reply : Type :=
| Status400 (error : string)
| Success (inserted : nat).

Section Post.

(** [parseFloat], and the store's [insert (records).select ()]. *)
Variable parseFloat : string -> Js.jsnum.
Variable insert : list UploadRecord -> Queries.Answer (list UploadRecord).

(** [toNum]; a cell is text, so the [typeof v === "number"] branch is
    never taken. *)
Definition toNum (v : option string) : option Q :=
  match v with
  | None => None
  | Some s =>
      if String.eqb s "" then None
      else match parseFloat s with
           | Js.Fin n => Some n
           | _ => None
           end
  end.

Definition to_record (row : CsvRow) : UploadRecord :=
  {| supplier_id := JsMap.get row "supplier_id";
     date := JsMap.get row "date";
     on_time_delivery_rate := toNum (JsMap.get row "on_time_delivery_rate");
     quality_score := toNum (JsMap.get row "quality_score");
     geopolitical_risk_score := toNum (JsMap.get row "geopolitical_risk_score");
     communication_score := toNum (JsMap.get row "communication_score");
     annual_spending_rupees := toNum (JsMap.get row "annual_spending_rupees");
     total_risk_score := toNum (JsMap.get row "total_risk_score");
     risk_category := JsMap.get row "risk_category";
     industry_segment := JsMap.get row "industry_segment";
     supplier_size := JsMap.get row "supplier_size";
     is_predicted := false |}.

(** [POST], from the parsed file on. *)
Definition POST (fields : list string) (data : list CsvRow) : Reply :=
  let headers := map Js.trim fields in
  let rows := filter (fun r => 0 <? List.length (JsMap.keys r)) data in
  let missing :=
    filter (fun col => negb (existsb (String.eqb col) headers)) REQUIRED_COLUMNS in
  if 0 <? List.length missing then
    Status400 ("Missing required columns: " ++ Js.join missing ", ")
  else if List.length rows =? 0 then
    Status400 "No data rows found"
  else
    let answer := insert (map to_record rows) in
    match Queries.error answer with
    | Some message => Status400 message
    | None =>
        Success (match Queries.data answer with
                 | Some stored => List.length stored
                 | None => List.length rows
                 end)
    end.

End Post.

End UploadRoute.

(* ================================================================== *)
(** * Reference definitions used to state the properties *)
(* ================================================================== *)

Import Queries.

Definition category_eqb (a b : RiskCategory) : bool :=
  match a, b with
  | CatHigh, CatHigh | CatMedium, CatMedium
  | CatLow, CatLow | CatUnknown, CatUnknown => true
  | _, _ => false
  end.

(** The category one prediction row counts for. *)
Definition row_category (p : RiskPredictionHistoryRow) : RiskCategory :=
  label_category (normalizeRiskLabel (predicted_risk p)).

(** How many rows of supplier [s] count for category [c]. *)
Definition votes (rows : list RiskPredictionHistoryRow) (s : string)
  (c : RiskCategory) : nat :=
  List.length
    (filter (fun p => String.eqb (supplier_id p) s && category_eqb (row_category p) c)
       rows).

(** The tally of supplier [s] over the whole history. *)
Definition tally_of (rows : list RiskPredictionHistoryRow) (s : string) : Tally :=
  {| high := votes rows s CatHigh; medium := votes rows s CatMedium;
     low := votes rows s CatLow; unknown := votes rows s CatUnknown |}.

Definition tally_count (t : Tally) (c : RiskCategory) : nat :=
  match c with
  | CatHigh => high t
  | CatMedium => medium t
  | CatLow => low t
  | CatUnknown => unknown t
  end.

Definition risk_count (rc : RiskCounts) (c : RiskCategory) : nat :=
  match c with
  | CatHigh => High rc
  | CatMedium => Medium rc
  | CatLow => Low rc
  | CatUnknown => Unknown rc
  end.

(** The fixed priority order of the tie-break. *)
Definition priority : list RiskCategory := [CatHigh; CatMedium; CatLow; CatUnknown].

(** The largest of the four counts, taken over the priority list. *)
Definition max_tally (t : Tally) : nat :=
  fold_right Nat.max 0 (map (tally_count t) priority).

(** The first category, in priority order, whose count is the maximum. *)
Definition first_at_max (t : Tally) : option RiskCategory :=
  find (fun c => tally_count t c =? max_tally t) priority.

(** Tally [t] falls to category [c] under the priority rule. *)
Definition classified_as (c : RiskCategory) (t : Tally) : bool :=
  match first_at_max t with
  | Some c' => category_eqb c' c
  | None => false
  end.

(** The distinct supplier ids of a history. *)
Definition distinct_suppliers (rows : list RiskPredictionHistoryRow) : list string :=
  nodup string_dec (map supplier_id rows).

(** The order the store answers the latest-prediction query in: supplier id
    ascending under the collation [id_lt] of the store, then prediction date
    descending. *)
Definition store_order (id_lt : string -> string -> Prop)
  (a b : RiskPredictionHistoryRow) : Prop :=
  id_lt (supplier_id a) (supplier_id b) \/
  (supplier_id a = supplier_id b /\ (prediction_date b <= prediction_date a)%Z).

(** A collation is a strict order on ids. *)
Definition collation (id_lt : string -> string -> Prop) : Prop :=
  (forall a, ~ id_lt a a) /\ (forall a b c, id_lt a b -> id_lt b c -> id_lt a c).

(** The store's answer to a query that selected [rows]. *)
Definition answered {A : Type} (rows : A) : Answer A :=
  {| data := Some rows; error := None; count := None |}.

(** The first row of supplier [s] in a list. *)
Definition first_of (s : string) (rows : list RiskPredictionHistoryRow)
  : option RiskPredictionHistoryRow :=
  find (fun x => String.eqb (supplier_id x) s) rows.

(** Occurrences of a category in a list of votes. *)
Definition occurrences (c : RiskCategory) (cats : list RiskCategory) : nat :=
  List.length (filter (fun x => category_eqb x c) cats).

(** Descending order of a rational key, and the test for one key value. *)
Definition key_desc {A : Type} (key : A -> Q) (a b : A) : Prop :=
  (key b <= key a)%Q.

Definition same_key {A : Type} (key : A -> Q) (k : Q) (x : A) : bool :=
  Qeq_bool (key x) k.

(** The ordering key of the top-ten list: [prob_high], null read as 0. *)
Definition prob_key (x : LatestPrediction) : Q := prob_high_or_0 (row x).

(** Sum and arithmetic mean of a list of rationals. *)
Definition Qsum (l : list Q) : Q := fold_right Qplus 0%Q l.

Definition mean (l : list Q) : Q :=
  (Qsum l / inject_Z (Z.of_nat (List.length l)))%Q.

(** Half the distance, relative to its size, between a normal double and
    the next one, and half the distance between two subnormal doubles: the
    rounding of a sum or quotient [x] moves it by at most
    [x * unit_roundoff + tiny]. *)
Definition unit_roundoff : Q := Js.pow2 (-53).

Definition tiny : Q := Js.pow2 (-1075).

(** [q] is a double: rounding leaves it as it is. *)
Definition is_double (q : Q) : bool :=
  match Js.round64 q with
  | Js.Fin r => Qeq_bool r q
  | _ => false
  end.

(** Every partial sum of [l], taken from [acc] on, is a double. *)
Fixpoint sums_exact (acc : Q) (l : list Q) : bool :=
  match l with
  | [] => true
  | x :: l' => is_double (acc + x)%Q && sums_exact (acc + x)%Q l'
  end.

(** No step of the average of [l] rounds: the list is not empty, and its
    partial sums and its mean are doubles. *)
Definition rounding_free (l : list Q) : bool :=
  negb (List.length l =? 0) && sums_exact 0%Q l && is_double (mean l).

(** A count as a rational. *)
Definition Qnat (n : nat) : Q := inject_Z (Z.of_nat n).

(** The sum the reducer accumulates over a list of doubles. *)
Definition double_sum (l : list Q) (acc : Js.jsnum) : Js.jsnum :=
  fold_left (fun sum x => Js.add sum (Js.Fin x)) l acc.

(** The doubles that the decimals 0.1, 0.2 and 0.6 denote. *)
Definition double_0_1 : Q := 3602879701896397 # 36028797018963968.

Definition double_0_2 : Q := 3602879701896397 # 18014398509481984.

Definition double_0_6 : Q := 5404319552844595 # 9007199254740992.

(** *** The machine's doubles *)

Module Hardware.
Import PrimFloat.

(** The number a hardware double holds; the infinities and NaN hold none. *)
Definition float_value (f : PrimFloat.float) : option Q :=
  match FloatOps.Prim2SF f with
  | SpecFloat.S754_zero _ => Some 0%Q
  | SpecFloat.S754_finite negative m e =>
      Some (Qred ((if negative then -1 else 1) * inject_Z (Zpos m) * Js.pow2 e)%Q)
  | _ => None
  end.

(** A [jsnum] and a hardware double are the same number. *)
Definition same_number (r : Js.jsnum) (f : PrimFloat.float) : bool :=
  match r, float_value f with
  | Js.Fin q, Some q' => Qeq_bool q q'
  | Js.PosInf, None => PrimFloat.eqb f PrimFloat.infinity
  | Js.NegInf, None => PrimFloat.eqb f PrimFloat.neg_infinity
  | _, _ => false
  end.

(** On the doubles [a] and [b], rounding the exact sum and the exact
    quotient gives what the hardware operations give. *)
Definition agrees_with_hardware (ab : PrimFloat.float * PrimFloat.float) : bool :=
  match float_value (fst ab), float_value (snd ab) with
  | Some x, Some y =>
      same_number (Js.round64 (x + y)) (PrimFloat.add (fst ab) (snd ab))
      && same_number (Js.round64 (x / y)) (PrimFloat.div (fst ab) (snd ab))
  | _, _ => false
  end.

(** Pairs of doubles: ordinary decimals, a tie, sums at the overflow
    threshold, subnormal quotients. *)
Definition hardware_samples : list (PrimFloat.float * PrimFloat.float) :=
  [ ((0x1.999999999999ap-4)%float, (0x1.999999999999ap-3)%float);
    ((0x1.999999999999ap-3)%float, (0x1.3333333333333p-1)%float);
    ((0x1.999999999999ap-1)%float, (0x1.8000000000000p+1)%float);
    ((0x1.3333333333333p-2)%float, (0x1.8000000000000p+1)%float);
    ((0x1.0000000000000p+0)%float, (0x1.8000000000000p+1)%float);
    ((-0x1.6666666666666p-1)%float, (0x1.8000000000000p+1)%float);
    ((0x1.1ccf385ebc8a0p+1023)%float, (0x1.1ccf385ebc8a0p+1023)%float);
    ((0x1.fffffffffffffp+1023)%float, (0x1.0000000000000p+970)%float);
    ((0x1.fffffffffffffp+1023)%float, (0x1.0000000000000p+969)%float);
    ((0x0.0000000000001p-1022)%float, (0x1.0000000000000p+1)%float);
    ((0x0.0000000000003p-1022)%float, (0x1.0000000000000p+1)%float);
    ((0x1.1fa182c40c60dp-1022)%float, (0x1.8000000000000p+1)%float);
    ((0x1.999999999999ap-4)%float, (-0x1.999999999999ap-4)%float);
    ((0x1.d6f3454800000p+26)%float, (0x1.0624dd2f1a9fcp-10)%float) ].

End Hardware.

(** A prediction row with the given supplier and [prob_high]. *)
Definition sample_row (id : string) (p : option Q) : RiskPredictionHistoryRow :=
  {| supplier_id := id; prediction_date := 0%Z; predicted_risk := None;
     prob_high := p; prob_medium := None; prob_low := None;
     model_version := None |}.

(** The average read as the exact arithmetic mean: for every history that
    is not empty and holds doubles, the average of the overview is the mean
    of [prob_high] with null read as 0. *)
Definition avg_is_exact_mean : Prop :=
  forall (profiles : list SupplierProfile)
         (latest allPredictions : list RiskPredictionHistoryRow)
         (nSuppliers nPredictions : nat),
    allPredictions <> [] ->
    Forall (fun x => is_double x = true) (map prob_high_or_0 allPredictions) ->
    exists q,
      avgProbHigh
        (getExecutiveOverview profiles latest allPredictions nSuppliers nPredictions)
      = Some (Js.Fin q)
      /\ (q == mean (map prob_high_or_0 allPredictions))%Q.

(** The magnitude a finite contribution is ranked by. *)
Definition magnitude (x : Js.jsnum) : Q :=
  match x with
  | Js.Fin q => Qabs q
  | _ => 0%Q
  end.

Definition entry_magnitude (e : ShapPage.Entry) : Q := magnitude (ShapPage.value e).

Definition entry_finite (e : ShapPage.Entry) : bool := Js.isFinite (ShapPage.value e).

(** The signed entry of the summary view that corresponds to an entry of the
    detail view: "increases" for a value that is at least 0, "reduces"
    otherwise. *)
Definition signed (e : ShapPage.Entry) : TopFeature :=
  {| feature := ShapPage.feature e;
     shap := ShapPage.value e;
     direction := if Js.ge0 (ShapPage.value e) then increases else reduces |}.

(** The ranking of the detail page on the entries of a decoded mapping. *)
Definition page_ranking (Number : json -> Js.jsnum) (entries : list (string * json))
  : list ShapPage.Entry :=
  Js.sort ShapPage.by_magnitude_desc
    (filter entry_finite (map (ShapPage.to_entry Number) entries)).

(** The payload the store holds for a prediction: that of the first
    explanation row, [null] when there is none. *)
Definition payload_of (answer : Answer (list ShapExplanationsRow)) : json :=
  match nullish (data answer) [] with
  | r :: _ => shap_values r
  | [] => JNull
  end.

(** [sm] is the summary of prediction [p] when the store answers the
    explanation query with [answer]: it names the prediction, and its
    features are the signed first three of the page's ranking of the decoded
    payload. *)
Definition summarises (JSON_parse : string -> Exn.completion json)
  (Number : json -> Js.jsnum) (names : JsMap.t string)
  (answer : Answer (list ShapExplanationsRow))
  (p : RiskPredictionHistoryRow) (sm : ShapSummary) : Prop :=
  exists shapDict entries,
    parseShapValues JSON_parse (payload_of answer) = Exn.Normal shapDict
    /\ Object_entries shapDict = Exn.Normal entries
    /\ sm = {| summary_supplier_id := supplier_id p;
               summary_supplier_name := JsMap.get names (supplier_id p);
               summary_prediction_date := prediction_date p;
               summary_predicted_risk := predicted_risk p;
               top_features := map signed (firstn 3 (page_ranking Number entries)) |}.

(** The record of the summary pipeline that an entry of the page stands for. *)
Definition as_value (e : ShapPage.Entry) : ShapValue :=
  {| sv_feature := ShapPage.feature e; sv_shap := ShapPage.value e |}.

(** One explanation row carrying the payload [raw]. *)
Definition shap_row (raw : json) : ShapExplanationsRow :=
  {| shap_supplier_id := "S1"; shap_prediction_date := 0%Z; shap_values := raw |}.

(** The summary of a prediction whose explanation contributes nothing. *)
Definition bare_summary (names : JsMap.t string) (p : RiskPredictionHistoryRow)
  : ShapSummary :=
  {| summary_supplier_id := supplier_id p;
     summary_supplier_name := JsMap.get names (supplier_id p);
     summary_prediction_date := prediction_date p;
     summary_predicted_risk := predicted_risk p;
     top_features := [] |}.

(** A snapshot row counts as unscored unless its flag is [true]. *)
Definition unscored (r : SupplierRiskMasterRow) : bool :=
  match is_predicted r with
  | Some true => false
  | Some false | None => true
  end.

Definition flag_is (v : option bool) (r : SupplierRiskMasterRow) : bool :=
  match is_predicted r, v with
  | Some a, Some b => Bool.eqb a b
  | None, None => true
  | _, _ => false
  end.

(** [sub] occurs in [s] when letter case is ignored. *)
Definition contains_ignoring_case (s sub : string) : bool :=
  Js.includes (Js.toLowerCase s) (Js.toLowerCase sub).

(** The double-quote character. *)
Definition dq : string := String (ascii_of_nat 34) EmptyString.

(** The JSON text of an object with the single member [detail]. *)
Definition detail_body (msg : string) : string :=
  "{" ++ dq ++ "detail" ++ dq ++ ":" ++ dq ++ msg ++ dq ++ "}".

(** A parser that reads that one text as [JSON.parse] does (for a message
    without characters that JSON escapes) and rejects every other text. *)
Definition parse_detail (msg : string) (t : string) : Exn.completion json :=
  if String.eqb t (detail_body msg) then Exn.Normal (JObj [("detail", JStr msg)])
  else Exn.Thrown {| Exn.name := "SyntaxError"; Exn.message := "Unexpected token" |}.

(** The orchestrator's HTTP 400 reply carrying [msg] as its detail. *)
Definition bad_request (msg : string) : Airflow.Response :=
  {| Airflow.ok := false; Airflow.status := 400;
     Airflow.text := Exn.Normal (detail_body msg) |}.

(** The benign no-op rule read with case-insensitive matching: every
    non-2xx reply whose error text contains "no new rows", whatever the
    letter case, is reported as a success. *)
Definition noop_ignoring_case : Prop :=
  forall (JSON_parse : string -> Exn.completion json)
         (response : Airflow.Response) (s : string),
    Airflow.ok response = false ->
    Airflow.error_text JSON_parse response = Some s ->
    contains_ignoring_case s "no new rows" = true ->
    Airflow.success (Airflow.triggerPredictionDag JSON_parse (Exn.Normal response))
    = true.

(** The two spellings the client looks for. *)
Definition spelled_no_new_rows (s : string) : bool :=
  Js.includes s "No new rows to predict" || Js.includes s "no new rows".

Definition noop_message : json :=
  JStr "No new rows to predict (INFO: all rows already processed)".

(** The number of status requests a poller has made. *)
Definition fetches (p : UploadPage.Poller) : nat :=
  List.length (filter UploadPage.is_fetch (UploadPage.effects p)).

(** Neither the success branch nor the failure branch has run. *)
Definition quiet (p : UploadPage.Poller) : Prop :=
  existsb UploadPage.is_success_effect (UploadPage.effects p) = false /\
  existsb UploadPage.is_failure_effect (UploadPage.effects p) = false.

(** A status reply that reports the run as queued or running. *)
Definition nonterminal (r : UploadPage.StatusReply) : Prop :=
  exists s, r = UploadPage.Body true (Some {| UploadPage.state := s |})
            /\ (s = "running" \/ s = "queued").

(** ** Sample data *)

(** A prediction row with the given supplier, day and label. *)
Definition labelled_row (id : string) (day : Z) (label : string)
  : RiskPredictionHistoryRow :=
  {| supplier_id := id; prediction_date := day; predicted_risk := Some label;
     prob_high := None; prob_medium := None; prob_low := None;
     model_version := None |}.

(** A history of two suppliers: E1 is rated High twice and Medium twice, E2
    Low once. *)
Definition sample_history : list RiskPredictionHistoryRow :=
  [ labelled_row "E1" 20240101 "High Risk";
    labelled_row "E2" 20240115 "low";
    labelled_row "E1" 20240201 "medium_risk";
    labelled_row "E1" 20240301 " HIGH ";
    labelled_row "E1" 20240401 "Medium" ].

(** The table of the resolver example and the store's ordered answer. *)
Definition sample_table : list RiskPredictionHistoryRow :=
  [ labelled_row "E1" 20240101 "Low";
    labelled_row "E1" 20240201 "High";
    labelled_row "E2" 20240115 "Medium" ].

Definition sample_answer : list RiskPredictionHistoryRow :=
  [ labelled_row "E1" 20240201 "High";
    labelled_row "E1" 20240101 "Low";
    labelled_row "E2" 20240115 "Medium" ].

(** Code-unit order on ids. *)
Definition code_unit_lt : string -> string -> Prop := String_as_OT.lt.

(** The store's ordering made executable for that collation: insertion of
    each row in front of the first row it may precede. *)
Definition row_leb (a b : RiskPredictionHistoryRow) : bool :=
  match String.compare (supplier_id a) (supplier_id b) with
  | Lt => true
  | Eq => (prediction_date b <=? prediction_date a)%Z
  | Gt => false
  end.

Fixpoint place (a : RiskPredictionHistoryRow) (l : list RiskPredictionHistoryRow)
  : list RiskPredictionHistoryRow :=
  match l with
  | [] => [a]
  | b :: l' => if row_leb a b then a :: l else b :: place a l'
  end.

Definition order_by (table : list RiskPredictionHistoryRow)
  : list RiskPredictionHistoryRow :=
  fold_right place [] table.

(** A run that never leaves the running state. *)
Definition always_running (i : nat) : UploadPage.StatusReply :=
  UploadPage.Body true (Some {| UploadPage.state := "running" |}).

(** A run that is queued twice, then running, then successful. *)
Definition scripted_run (i : nat) : UploadPage.StatusReply :=
  UploadPage.Body true
    (Some {| UploadPage.state :=
               nth i ["queued"; "queued"; "running"; "success"] "success" |}).

(** A snapshot row whose flag is [flag]. *)
Definition snapshot_row (flag : option bool) : SupplierRiskMasterRow :=
  {| master_supplier_id := "E1"; master_date := 20240101%Z; is_predicted := flag |}.

(** The contributions of the ranking example: a is 0.5, b is -0.8, c is 0.1
    and d is the text "x". *)
Definition sample_contributions : list (string * json) :=
  [ ("a", JNum (Js.Fin (5 # 10))); ("b", JNum (Js.Fin (- (8 # 10))));
    ("c", JNum (Js.Fin (1 # 10))); ("d", JStr "x") ].

(** ** The poller beyond the time-out *)

Definition is_timer (e : UploadPage.Effect) : bool :=
  match e with UploadPage.SetTimeout _ => true | _ => false end.

(** The number of timers a poller has set. *)
Definition timers (p : UploadPage.Poller) : nat :=
  List.length (filter is_timer (UploadPage.effects p)).

(** 1 while a poll is pending, 0 once the loop has stopped. *)
Definition pending (p : UploadPage.Poller) : nat :=
  match UploadPage.scheduled p with Some _ => 1 | None => 0 end.

(** A status request that fails, or a body without [success] and [data]. *)
Definition is_fault (r : UploadPage.StatusReply) : bool :=
  match r with
  | UploadPage.Body true (Some _) => false
  | _ => true
  end.

(** Replies after which the loop polls again while attempts remain. *)
Definition keeps_polling (r : UploadPage.StatusReply) : Prop :=
  nonterminal r \/ is_fault r = true.

(** The reply that reports state [s]. *)
Definition reports (s : string) : UploadPage.StatusReply :=
  UploadPage.Body true (Some {| UploadPage.state := s |}).

(** What a poll does while the run is in progress: requests, status
    updates and timers. *)
Definition is_progress_effect (e : UploadPage.Effect) : bool :=
  match e with
  | UploadPage.FetchStatus _ | UploadPage.SetDagStatus _
  | UploadPage.SetTimeout _ => true
  | _ => false
  end.

Definition is_set_triggering (e : UploadPage.Effect) : bool :=
  match e with UploadPage.SetTriggering _ => true | _ => false end.

(** The four states the poller knows. *)
Definition known_state (s : string) : bool :=
  String.eqb s "success" || String.eqb s "failed"
  || String.eqb s "running" || String.eqb s "queued".

(** A reply sequence: [k] faults, then the report of state [s]. *)
Definition faults_then (k : nat) (s : string) (i : nat) : UploadPage.StatusReply :=
  if i <? k then UploadPage.Body false None else reports s.

(** What holds of the closure after any number of polls. *)
Definition poller_inv (p : UploadPage.Poller) : Prop :=
  UploadPage.attempts p <= UploadPage.maxAttempts
  /\ fetches p = UploadPage.attempts p
  /\ timers p = fetches p + pending p
  /\ (UploadPage.scheduled p <> None ->
        UploadPage.attempts p < UploadPage.maxAttempts
        /\ forallb is_progress_effect (UploadPage.effects p) = true).

(** ** The trigger client beyond the benign no-op *)

(** [c] occurs in [s]. *)
Fixpoint has_char (c : ascii) (s : string) : bool :=
  match s with
  | EmptyString => false
  | String a s' => Ascii.eqb a c || has_char c s'
  end.

(** The reply reached the client and is 2xx, or its error message matches
    one of the two spellings. *)
Definition accepted_or_benign (JSON_parse : string -> Exn.completion json)
  (response : Airflow.Response) : Prop :=
  Airflow.ok response = true
  \/ Airflow.includes (Airflow.errorMsg_of JSON_parse response)
       "No new rows to predict" = Exn.Normal true
  \/ Airflow.includes (Airflow.errorMsg_of JSON_parse response)
       "no new rows" = Exn.Normal true.

(** The body of a reply is empty, cannot be read, or is not JSON. *)
Definition no_json_body (JSON_parse : string -> Exn.completion json)
  (response : Airflow.Response) : Prop :=
  (exists e, Airflow.text response = Exn.Thrown e)
  \/ Airflow.text response = Exn.Normal ""
  \/ (exists t e, Airflow.text response = Exn.Normal t
                  /\ JSON_parse t = Exn.Thrown e).

(** A parser that rejects every text. *)
Definition parse_nothing (t : string) : Exn.completion json :=
  Exn.Thrown {| Exn.name := "SyntaxError"; Exn.message := "Unexpected token" |}.

(** A non-2xx reply with a plain-text body. *)
Definition plain_reply (code : nat) (body : string) : Airflow.Response :=
  {| Airflow.ok := false; Airflow.status := code; Airflow.text := Exn.Normal body |}.

(** ** From the orchestrator's reply to the page *)

(** What the page does when the trigger client, behind the trigger route,
    got [fetched] from the orchestrator. *)
Definition page_effects (ToString : json -> string)
  (JSON_parse : string -> Exn.completion json) (triggerTime : string)
  (fetched : Exn.completion Airflow.Response) : list UploadPage.PageEffect :=
  UploadPage.triggerDag ToString triggerTime
    (Exn.Normal
       (TriggerRoute.POST
          (Exn.Normal (Airflow.triggerPredictionDag JSON_parse fetched)))).

(** What [triggerDag] does before the request. *)
Definition trigger_preamble : list UploadPage.PageEffect :=
  [UploadPage.PSetTriggering true; UploadPage.PSetTriggerResult None;
   UploadPage.PSetDagRunId None; UploadPage.PSetDagStatus (Some "queued");
   UploadPage.PSetShowPredictions false; UploadPage.PostTrigger].

(** What it does when the trigger failed with message [m]. *)
Definition trigger_failure (m : string) : list UploadPage.PageEffect :=
  [UploadPage.PSetDagStatus None;
   UploadPage.PSetTriggerResult
     (Some {| UploadPage.shown_success := false;
              UploadPage.shown_message := JStr m;
              UploadPage.shown_details := None |});
   UploadPage.PSetTriggering false].

(** A rendering that, like [String], is the identity on text; the examples
    render nothing else. *)
Definition text_to_string (v : json) : string :=
  match v with
  | JStr s => s
  | _ => "[object Object]"
  end.

(** ** The aggregates beyond the stated properties *)

(** The number of predictions a tally accounts for. *)
Definition tally_total (t : Tally) : nat :=
  high t + medium t + low t + unknown t.

(** The number of predictions a tally map accounts for. *)
Definition map_total (m : JsMap.t Tally) : nat :=
  list_sum (map (fun e => tally_total (snd e)) m).

(** The number of rows of supplier [s]. *)
Definition rows_of (rows : list RiskPredictionHistoryRow) (s : string) : nat :=
  List.length (filter (fun p => String.eqb (supplier_id p) s) rows).

Definition risk_total (rc : RiskCounts) : nat :=
  High rc + Medium rc + Low rc + Unknown rc.

(** ** The summaries of the three latest predictions *)

Definition value_magnitude (x : ShapValue) : Q := magnitude (sv_shap x).

Definition value_finite (x : ShapValue) : bool := Js.isFinite (sv_shap x).

Definition feature_magnitude (t : TopFeature) : Q := magnitude (shap t).

(** A feature of a summary is well formed: its value is finite and its
    direction is the sign of the value. *)
Definition well_signed (t : TopFeature) : Prop :=
  exists q, shap t = Js.Fin q
            /\ direction t = (if Qle_bool 0 q then increases else reduces).

(** The store holds, for prediction [p], an explanation whose payload is
    the text [s]. *)
Definition explained_by_text
  (shapQuery : RiskPredictionHistoryRow -> Answer (list ShapExplanationsRow))
  (p : RiskPredictionHistoryRow) (s : string) : Prop :=
  exists r rows, shapQuery p = answered (r :: rows) /\ shap_values r = JStr s.

(** A parser that knows the text [null]. *)
Definition parse_null (t : string) : Exn.completion json :=
  if String.eqb t "null" then Exn.Normal JNull
  else Exn.Thrown {| Exn.name := "SyntaxError"; Exn.message := "Unexpected token" |}.

(** ** Distinct values *)

(** The text value of property [k] of a row, if it has one. *)
Definition text_prop (k : string) (row : json) : option string :=
  match row_prop row k with
  | Some (JStr v) => Some v
  | _ => None
  end.

(** The text values of property [k] in the rows of an answer. *)
Definition text_props (k : string) (rows : list json) : list string :=
  flat_map (fun row => match text_prop k row with Some v => [v] | None => [] end)
    rows.

(** A text that is more than white space. *)
Definition nonblank (v : string) : bool := negb (String.eqb (Js.trim v) "").

(** Code-unit order, weak. *)
Definition code_unit_le (a b : string) : Prop := String.compare a b <> Gt.

(** ** Pages *)

(** The store's reading of [.range (from, to)] on the rows a query selects,
    in the order it asks for: the rows at positions [from] to [to], both
    included, and the exact count of all of them. *)
Definition ranged_answer {A : Type} (ordered : list A) (from to : Z)
  : Answer (list A) :=
  {| data := Some (firstn (Z.to_nat (to - from + 1)) (skipn (Z.to_nat from) ordered));
     error := None;
     count := Some (List.length ordered) |}.

(** The rows of one page of the prediction history and of the risk master. *)
Definition history_rows (argPageSize : Z) (ordered : list RiskPredictionHistoryRow)
  (argPage : Z) : list RiskPredictionHistoryRow :=
  match getPredictionHistoryPage argPage argPageSize (ranged_answer ordered) with
  | Exn.Normal pg => page_rows pg
  | Exn.Thrown _ => []
  end.

Definition master_rows (argPageSize : Z) (ordered : list SupplierRiskMasterRow)
  (argPage : Z) : list SupplierRiskMasterRow :=
  match getRiskMasterPage argPage argPageSize (ranged_answer ordered) with
  | Exn.Normal pg => page_rows pg
  | Exn.Thrown _ => []
  end.

(** The page size after clamping to [lo .. hi]. *)
Definition clamp (lo hi x : Z) : Z := Z.min hi (Z.max lo x).

(** Pages 1 to [k], one after the other. *)
Definition pages_upto {A : Type} (rows_of_page : Z -> list A) (k : nat) : list A :=
  flat_map (fun i => rows_of_page (Z.of_nat i + 1)%Z) (seq 0 k).

(** ** Labels and feature names *)

(** The badge variant that shows a category. *)
Definition variant_of (c : RiskCategory) : RiskBadge.Variant :=
  match c with
  | CatHigh => RiskBadge.riskHigh
  | CatMedium => RiskBadge.riskMedium
  | CatLow => RiskBadge.riskLow
  | CatUnknown => RiskBadge.outline
  end.

(** The label padded with a blank on either side. *)
Definition padded (s : string) : string := (" " ++ s ++ " ")%string.

(** ** Reading CSV back

    A reader of comma-separated text in the usual convention: fields are
    separated by commas and records by line feeds; a field that starts with
    a double quote runs to the closing quote, two quotes in it standing for
    one; the end of the text closes the last record. *)

Inductive csv_mode : Type := AtStart | InPlain | InQuoted | AfterQuote.

Definition snoc (s : string) (c : ascii) : string :=
  (s ++ String c EmptyString)%string.

Fixpoint csv_parse (m : csv_mode) (cur : string) (fields : list string)
  (recs : list (list string)) (input : string) : list (list string) :=
  match input with
  | EmptyString => recs ++ [fields ++ [cur]]
  | String c rest =>
      match m with
      | InQuoted =>
          if Ascii.eqb c ExportRoute.quote
          then csv_parse AfterQuote cur fields recs rest
          else csv_parse InQuoted (snoc cur c) fields recs rest
      | _ =>
          if Ascii.eqb c ExportRoute.comma
          then csv_parse AtStart EmptyString (fields ++ [cur]) recs rest
          else if Ascii.eqb c ExportRoute.newline
          then csv_parse AtStart EmptyString [] (recs ++ [fields ++ [cur]]) rest
          else if Ascii.eqb c ExportRoute.quote
          then match m with
               | InPlain => csv_parse InPlain (snoc cur c) fields recs rest
               | _ => csv_parse InQuoted
                        (match m with AfterQuote => snoc cur c | _ => cur end)
                        fields recs rest
               end
          else csv_parse InPlain (snoc cur c) fields recs rest
      end
  end.

Definition read_csv (text : string) : list (list string) :=
  csv_parse AtStart EmptyString [] [] text.

(** The text a cell is written as. *)
Definition cell_text (value : option string) : string :=
  match value with Some s => s | None => EmptyString end.

(** The table a list of rows stands for: the column names of the first
    row, then the cells of every row under these columns. *)
Definition table_of (rows : list ExportRoute.Row) : list (list string) :=
  match rows with
  | [] => []
  | first :: _ =>
      map fst first
      :: map (fun r => map (fun h => cell_text (ExportRoute.cell r h)) (map fst first))
           rows
  end.

(** The rest of the text closes the field: it is empty, or goes on with a
    comma or a line feed. *)
Definition closes_field (rest : string) : Prop :=
  match rest with
  | EmptyString => True
  | String c _ => c = ExportRoute.comma \/ c = ExportRoute.newline
  end.

(** It closes the record. *)
Definition closes_record (rest : string) : Prop :=
  match rest with
  | EmptyString => True
  | String c _ => c = ExportRoute.newline
  end.

(** What the reader does once a record of fields [all] is complete. *)
Definition after_record (all : list string) (recs : list (list string))
  (rest : string) : list (list string) :=
  match rest with
  | EmptyString => recs ++ [all]
  | String _ rest' => csv_parse AtStart EmptyString [] (recs ++ [all]) rest'
  end.

Definition write_line (cells : list (option string)) : string :=
  Js.join (map ExportRoute.csvEscape cells) ",".

(** *** Uploads *)

(** Some header field is column [c] once blanks around it are dropped. *)
Definition header_has (fields : list string) (c : string) : Prop :=
  exists h, In h fields /\ Js.trim h = c.

Definition complete_header (fields : list string) : Prop :=
  forall c, In c UploadRoute.REQUIRED_COLUMNS -> header_has fields c.

Definition is_none {A : Type} (x : option A) : bool :=
  match x with Some _ => false | None => true end.

(** Column [c] of a stored record holds no value. *)
Definition column_empty (c : string) (r : UploadRoute.UploadRecord) : bool :=
  if String.eqb c "supplier_id" then is_none (UploadRoute.supplier_id r)
  else if String.eqb c "date" then is_none (UploadRoute.date r)
  else if String.eqb c "on_time_delivery_rate" then
    is_none (UploadRoute.on_time_delivery_rate r)
  else if String.eqb c "quality_score" then is_none (UploadRoute.quality_score r)
  else if String.eqb c "geopolitical_risk_score" then
    is_none (UploadRoute.geopolitical_risk_score r)
  else if String.eqb c "communication_score" then
    is_none (UploadRoute.communication_score r)
  else if String.eqb c "annual_spending_rupees" then
    is_none (UploadRoute.annual_spending_rupees r)
  else if String.eqb c "total_risk_score" then
    is_none (UploadRoute.total_risk_score r)
  else if String.eqb c "risk_category" then is_none (UploadRoute.risk_category r)
  else if String.eqb c "industry_segment" then
    is_none (UploadRoute.industry_segment r)
  else if String.eqb c "supplier_size" then is_none (UploadRoute.supplier_size r)
  else false.

(** The supplier id a row shows in the summary. *)
Definition shown_id (r : UploadPage.CsvRow) : string :=
  Js.trim (nullish (JsMap.get r "supplier_id") "").

(** A reader that agrees with [parseFloat] on texts made of decimal digits
    only, the only texts the examples hold. *)
Fixpoint read_digits (acc : option Z) (s : string) : option Z :=
  match s with
  | EmptyString => acc
  | String c s' =>
      let n := nat_of_ascii c in
      if (48 <=? n) && (n <=? 57) then
        read_digits (Some (10 * nullish acc 0 + Z.of_nat (n - 48))%Z) s'
      else None
  end.

Definition parse_float_digits (s : string) : Js.jsnum :=
  match read_digits None s with
  | Some z => Js.Fin (inject_Z z)
  | None => Js.NaN
  end.

Definition store_all (records : list UploadRoute.UploadRecord)
  : Answer (list UploadRoute.UploadRecord) :=
  {| data := Some records; error := None; count := None |}.

(** A file whose header pads one column name with a blank. *)
Definition padded_fields : list string :=
  ["supplier_id"; "date"; "on_time_delivery_rate"; " quality_score";
   "geopolitical_risk_score"; "communication_score"; "annual_spending_rupees";
   "total_risk_score"; "risk_category"; "industry_segment"; "supplier_size"].

Definition padded_row (id : string) : UploadPage.CsvRow :=
  [("supplier_id", id); ("date", "2024-01-01"); ("on_time_delivery_rate", "90");
   (" quality_score", "80"); ("geopolitical_risk_score", "1");
   ("communication_score", "2"); ("annual_spending_rupees", "3");
   ("total_risk_score", "4"); ("risk_category", "Low");
   ("industry_segment", "Steel"); ("supplier_size", "Small")].

(** The last profile of a supplier. *)
Definition last_profile (profiles : list SupplierProfile) (id : string)
  : option SupplierProfile :=
  find (fun p => String.eqb (profile_supplier_id p) id) (rev profiles).


(** A coercion that agrees with [Number] on numbers, on [null], on booleans
    and on texts that spell no number, the values the examples hold. *)
Definition number_of (v : json) : Js.jsnum :=
  match v with
  | JNum n => n
  | JNull => Js.Fin 0
  | JBool b => Js.Fin (if b then 1 else 0)
  | _ => Js.NaN
  end.

(** An explanation store that answers every prediction with [raw]. *)
Definition explained_with (raw : json) (p : RiskPredictionHistoryRow)
  : Answer (list ShapExplanationsRow) :=
  answered [shap_row raw].

(** Two rows of an export, with a comma, a double quote, a line feed and a
    null among their cells. *)
Definition sample_export : list ExportRoute.Row :=
  [ [("supplier_id", Some "S1"); ("note", Some "late, twice")];
    [("supplier_id", Some "S2"); ("note", None)];
    [("supplier_id", Some "S3");
     ("note",
      Some (String.append "said "
              (String.append dq
                 (String.append "ok"
                    (String.append dq (String ExportRoute.newline "twice"))))))] ].

Definition sample_profiles : list SupplierProfile :=
  [ {| profile_supplier_id := "E1"; profile_supplier_name := "Acme" |};
    {| profile_supplier_id := "E1"; profile_supplier_name := "Acme Ltd" |} ].

(* ================================================================== *)
(** * Facts about the insertion-ordered map *)
(* ================================================================== *)

Section JsMapFacts.

Context {V : Type}.
Implicit Types (m : JsMap.t V) (k : string) (v : V).

Lemma has_get_some m k :
  JsMap.has m k = true -> exists c, JsMap.get m k = Some c.
Proof.
  unfold JsMap.has. destruct (JsMap.get m k) as [c|]; [eauto | discriminate].
Qed.

Lemma has_get_none m k : JsMap.has m k = false -> JsMap.get m k = None.
Proof.
  unfold JsMap.has. destruct (JsMap.get m k); [discriminate | reflexivity].
Qed.

Lemma get_set_same m k v : JsMap.get (JsMap.set m k v) k = Some v.
Proof.
  induction m as [|[k' v'] m IH]; simpl.
  - now rewrite String.eqb_refl.
  - destruct (String.eqb k' k) eqn:E; simpl.
    + now rewrite String.eqb_refl.
    + now rewrite E.
Qed.

Lemma get_set_other m k k' v :
  k <> k' -> JsMap.get (JsMap.set m k v) k' = JsMap.get m k'.
Proof.
  intros Hne. induction m as [|[k0 v0] m IH]; simpl.
  - apply String.eqb_neq in Hne. now rewrite Hne.
  - destruct (String.eqb k0 k) eqn:E; simpl.
    + apply String.eqb_eq in E. subst k0.
      apply String.eqb_neq in Hne. now rewrite Hne.
    + now rewrite IH.
Qed.

Lemma has_In_keys m k : JsMap.has m k = true <-> In k (JsMap.keys m).
Proof.
  unfold JsMap.has. induction m as [|[k0 v0] m IH]; simpl.
  - split; [discriminate | tauto].
  - destruct (String.eqb k0 k) eqn:E.
    + apply String.eqb_eq in E. tauto.
    + apply String.eqb_neq in E. rewrite IH. tauto.
Qed.

Lemma has_false_keys m k : JsMap.has m k = false <-> ~ In k (JsMap.keys m).
Proof.
  rewrite <- has_In_keys. destruct (JsMap.has m k); split; congruence.
Qed.

Lemma keys_set_present m k v :
  JsMap.has m k = true -> JsMap.keys (JsMap.set m k v) = JsMap.keys m.
Proof.
  unfold JsMap.has. induction m as [|[k0 v0] m IH]; simpl.
  - discriminate.
  - destruct (String.eqb k0 k) eqn:E; simpl.
    + apply String.eqb_eq in E. now subst.
    + intros H. now rewrite IH.
Qed.

Lemma keys_set_absent m k v :
  JsMap.has m k = false -> JsMap.keys (JsMap.set m k v) = JsMap.keys m ++ [k].
Proof.
  unfold JsMap.has. induction m as [|[k0 v0] m IH]; simpl.
  - reflexivity.
  - destruct (String.eqb k0 k) eqn:E; simpl.
    + discriminate.
    + intros H. now rewrite IH.
Qed.

Lemma set_absent m k v :
  JsMap.has m k = false -> JsMap.set m k v = m ++ [(k, v)].
Proof.
  unfold JsMap.has. induction m as [|[k0 v0] m IH]; simpl.
  - reflexivity.
  - destruct (String.eqb k0 k) eqn:E; simpl.
    + discriminate.
    + intros H. now rewrite IH.
Qed.

Lemma get_In m k v : JsMap.get m k = Some v -> In (k, v) m.
Proof.
  induction m as [|[k0 v0] m IH]; simpl.
  - discriminate.
  - destruct (String.eqb k0 k) eqn:E.
    + apply String.eqb_eq in E. intros [= ->]. left. now subst.
    + intros H. right. now apply IH.
Qed.

Lemma In_get_nodup m k v :
  NoDup (JsMap.keys m) -> In (k, v) m -> JsMap.get m k = Some v.
Proof.
  induction m as [|[k0 v0] m IH]; simpl.
  - tauto.
  - intros Hnd [Heq | Hin].
    + injection Heq as -> ->. now rewrite String.eqb_refl.
    + inversion Hnd as [|? ? Hnotin Hnd']; subst.
      destruct (String.eqb k0 k) eqn:E.
      * apply String.eqb_eq in E. subst k0. exfalso. apply Hnotin.
        apply (in_map fst) in Hin. exact Hin.
      * now apply IH.
Qed.

End JsMapFacts.

(* ================================================================== *)
(** * Risk aggregation: tallies and majority classes *)
(* ================================================================== *)

Section TallyFacts.

Implicit Types (m : JsMap.t Tally) (p : RiskPredictionHistoryRow) (s : string).

Lemma tally_step_get m p s :
  JsMap.get (tally_step m p) s =
  if String.eqb (supplier_id p) s
  then Some (bump_tally (nullish (JsMap.get m s) zero_tally) (row_category p))
  else JsMap.get m s.
Proof.
  unfold tally_step, row_category.
  destruct (JsMap.has m (supplier_id p)) eqn:Hhas.
  - destruct (has_get_some _ _ Hhas) as [c Hc]. rewrite Hc.
    destruct (String.eqb (supplier_id p) s) eqn:E.
    + apply String.eqb_eq in E. subst s. now rewrite get_set_same, Hc.
    + apply String.eqb_neq in E. now rewrite get_set_other.
  - rewrite get_set_same.
    destruct (String.eqb (supplier_id p) s) eqn:E.
    + apply String.eqb_eq in E. subst s.
      now rewrite get_set_same, (has_get_none _ _ Hhas).
    + apply String.eqb_neq in E. now rewrite !get_set_other.
Qed.

Lemma tally_step_keys m p :
  JsMap.keys (tally_step m p) =
  if JsMap.has m (supplier_id p) then JsMap.keys m
  else JsMap.keys m ++ [supplier_id p].
Proof.
  unfold tally_step.
  destruct (JsMap.has m (supplier_id p)) eqn:Hhas.
  - destruct (has_get_some _ _ Hhas) as [c Hc]. rewrite Hc.
    now apply keys_set_present.
  - rewrite get_set_same.
    rewrite keys_set_present.
    + now apply keys_set_absent.
    + unfold JsMap.has. now rewrite get_set_same.
Qed.

Lemma bump_tally_count t c c' :
  tally_count (bump_tally t c) c' =
  tally_count t c' + (if category_eqb c c' then 1 else 0).
Proof. destruct c, c'; simpl; lia. Qed.

Lemma fold_bump_count cats : forall t c,
  tally_count (fold_left bump_tally cats t) c = tally_count t c + occurrences c cats.
Proof.
  induction cats as [|x cats IH]; intros t c; simpl.
  - unfold occurrences. simpl. lia.
  - rewrite IH, bump_tally_count. unfold occurrences. simpl.
    destruct (category_eqb x c); simpl; lia.
Qed.

Lemma tally_ext (t u : Tally) :
  (forall c, tally_count t c = tally_count u c) -> t = u.
Proof.
  intros H. destruct t, u.
  pose proof (H CatHigh). pose proof (H CatMedium).
  pose proof (H CatLow). pose proof (H CatUnknown).
  simpl in *. congruence.
Qed.

Lemma votes_occurrences rows s c :
  votes rows s c =
  occurrences c
    (map row_category (filter (fun p => String.eqb (supplier_id p) s) rows)).
Proof.
  unfold votes, occurrences.
  induction rows as [|p rows IH]; simpl; [reflexivity|].
  destruct (String.eqb (supplier_id p) s); simpl.
  - destruct (category_eqb (row_category p) c); simpl; now rewrite IH.
  - exact IH.
Qed.

Lemma fold_tally_get rows : forall m s,
  JsMap.get (fold_left tally_step rows m) s =
  match filter (fun p => String.eqb (supplier_id p) s) rows with
  | [] => JsMap.get m s
  | mine =>
      Some (fold_left bump_tally (map row_category mine)
              (nullish (JsMap.get m s) zero_tally))
  end.
Proof.
  induction rows as [|p rows IH]; intros m s; simpl; [reflexivity|].
  rewrite IH, tally_step_get.
  destruct (String.eqb (supplier_id p) s); simpl.
  - now destruct (filter _ rows).
  - reflexivity.
Qed.

(** Every supplier that occurs in the history has an entry, and the entry is
    its tally over the whole history. *)
Lemma supplierRiskCounts_get rows s :
  In s (map supplier_id rows) ->
  JsMap.get (supplierRiskCounts rows) s = Some (tally_of rows s).
Proof.
  intros Hin. unfold supplierRiskCounts. rewrite fold_tally_get.
  destruct (filter (fun p => String.eqb (supplier_id p) s) rows) as [|p0 mine] eqn:Hf.
  - exfalso. apply in_map_iff in Hin as [p [Hp Hinp]].
    assert (In p (filter (fun p => String.eqb (supplier_id p) s) rows)) as Habs.
    { apply filter_In. split; [exact Hinp|]. subst s. apply String.eqb_refl. }
    rewrite Hf in Habs. exact Habs.
  - f_equal. apply tally_ext. intros c.
    rewrite fold_bump_count. simpl JsMap.get. simpl nullish.
    unfold tally_of. rewrite <- Hf.
    destruct c; simpl; now rewrite votes_occurrences.
Qed.

Lemma fold_tally_keys rows : forall m,
  NoDup (JsMap.keys m) ->
  NoDup (JsMap.keys (fold_left tally_step rows m)) /\
  (forall s, In s (JsMap.keys (fold_left tally_step rows m)) <->
             In s (JsMap.keys m) \/ In s (map supplier_id rows)).
Proof.
  induction rows as [|p rows IH]; intros m Hnd; simpl.
  - split; [exact Hnd | intros s; tauto].
  - assert (NoDup (JsMap.keys (tally_step m p))) as Hnd'.
    { rewrite tally_step_keys.
      destruct (JsMap.has m (supplier_id p)) eqn:Hhas; [exact Hnd|].
      apply has_false_keys in Hhas.
      apply NoDup_rev in Hnd. rewrite <- (rev_involutive (_ ++ _)).
      apply NoDup_rev. rewrite rev_app_distr. simpl. constructor; [|exact Hnd].
      now rewrite <- in_rev. }
    destruct (IH _ Hnd') as [H1 H2]. split; [exact H1|].
    intros s. rewrite H2, tally_step_keys.
    destruct (JsMap.has m (supplier_id p)) eqn:Hhas.
    + apply has_In_keys in Hhas. split; [tauto|].
      intros [H | [H | H]]; subst; tauto.
    + rewrite in_app_iff. simpl. tauto.
Qed.

Lemma supplierRiskCounts_keys rows :
  NoDup (JsMap.keys (supplierRiskCounts rows)) /\
  (forall s, In s (JsMap.keys (supplierRiskCounts rows)) <->
             In s (map supplier_id rows)).
Proof.
  destruct (fold_tally_keys rows JsMap.empty (NoDup_nil _)) as [H1 H2].
  split; [exact H1|]. intros s. unfold supplierRiskCounts. rewrite H2.
  simpl. tauto.
Qed.

Lemma keys_perm_distinct rows :
  Permutation (JsMap.keys (supplierRiskCounts rows)) (distinct_suppliers rows).
Proof.
  destruct (supplierRiskCounts_keys rows) as [Hnd Hin].
  apply NoDup_Permutation; [exact Hnd | apply NoDup_nodup |].
  intros s. unfold distinct_suppliers. now rewrite nodup_In, Hin.
Qed.

End TallyFacts.

Section MajorityFacts.

Lemma majority_first_at_max (t : Tally) : first_at_max t = Some (majority t).
Proof.
  unfold first_at_max, majority, max_tally, Math_max, priority.
  cbn [map fold_right find tally_count].
  replace (Nat.max (high t) (Nat.max (medium t) (Nat.max (low t) (Nat.max (unknown t) 0))))
    with (Nat.max (Nat.max (Nat.max (high t) (medium t)) (low t)) (unknown t)) by lia.
  set (mx := Nat.max (Nat.max (Nat.max (high t) (medium t)) (low t)) (unknown t)).
  destruct (Nat.eqb_spec (high t) mx); [reflexivity|].
  destruct (Nat.eqb_spec (medium t) mx); [reflexivity|].
  destruct (Nat.eqb_spec (low t) mx); [reflexivity|].
  destruct (Nat.eqb_spec (unknown t) mx); [reflexivity|].
  exfalso. subst mx. lia.
Qed.

Lemma bump_risk_count rc c c' :
  risk_count (bump_risk rc c) c' =
  risk_count rc c' + (if category_eqb c c' then 1 else 0).
Proof. destruct c, c'; simpl; lia. Qed.

Lemma fold_assign_count (m : JsMap.t Tally) : forall rc c,
  risk_count (fold_left assign_step m rc) c =
  risk_count rc c +
  List.length (filter (fun e => category_eqb (majority (snd e)) c) m).
Proof.
  induction m as [|e m IH]; intros rc c; simpl.
  - lia.
  - rewrite IH. unfold assign_step. rewrite bump_risk_count.
    destruct (category_eqb (majority (snd e)) c); simpl; lia.
Qed.

Lemma filter_length_perm {A : Type} (f : A -> bool) (l l' : list A) :
  Permutation l l' -> List.length (filter f l) = List.length (filter f l').
Proof.
  induction 1 as [|x l l' _ IH|x y l|l l' l'' _ IH1 _ IH2]; simpl.
  - reflexivity.
  - destruct (f x); simpl; now rewrite IH.
  - destruct (f x), (f y); reflexivity.
  - now rewrite IH1.
Qed.

Lemma filter_categories_total {A : Type} (f : A -> RiskCategory) (l : list A) :
  List.length (filter (fun x => category_eqb (f x) CatHigh) l) +
  List.length (filter (fun x => category_eqb (f x) CatMedium) l) +
  List.length (filter (fun x => category_eqb (f x) CatLow) l) +
  List.length (filter (fun x => category_eqb (f x) CatUnknown) l) =
  List.length l.
Proof.
  induction l as [|x l IH]; simpl; [reflexivity|].
  destruct (f x); simpl; lia.
Qed.

(** The entries of the tally map carry the suppliers' full tallies. *)
Lemma supplierRiskCounts_entries rows :
  supplierRiskCounts rows =
  map (fun s => (s, tally_of rows s)) (JsMap.keys (supplierRiskCounts rows)).
Proof.
  destruct (supplierRiskCounts_keys rows) as [Hnd Hin].
  assert (forall e, In e (supplierRiskCounts rows) -> snd e = tally_of rows (fst e)) as H.
  { intros [k v] He. simpl.
    pose proof (In_get_nodup _ _ _ Hnd He) as Hg.
    rewrite supplierRiskCounts_get in Hg.
    - congruence.
    - apply Hin. apply (in_map fst) in He. exact He. }
  revert H. generalize (supplierRiskCounts rows) as m.
  induction m as [|[k v] m IH]; intros H; simpl; [reflexivity|].
  f_equal.
  - f_equal. exact (H (k, v) (or_introl eq_refl)).
  - apply IH. intros e He. apply H. now right.
Qed.

(** The global count of a category is the number of distinct suppliers whose
    majority class it is. *)
Lemma riskCounts_by_category rows c :
  risk_count (riskCounts_of (supplierRiskCounts rows)) c =
  List.length
    (filter (fun s => category_eqb (majority (tally_of rows s)) c)
       (distinct_suppliers rows)).
Proof.
  unfold riskCounts_of. rewrite fold_assign_count.
  rewrite <- (filter_length_perm _ _ _ (keys_perm_distinct rows)).
  rewrite (supplierRiskCounts_entries rows) at 1.
  destruct c; simpl; clear;
    induction (JsMap.keys (supplierRiskCounts rows)) as [|k ks IH]; simpl;
    try reflexivity;
    destruct (category_eqb (majority (tally_of rows k)) _); simpl; congruence.
Qed.

End MajorityFacts.

(** C1.  Every supplier with at least one prediction has an entry in the
    tally map; that entry is the supplier's tally over the whole history,
    and the second loop of the aggregator assigns the supplier to the first
    of High, Medium, Low, Unknown whose count equals the largest of the
    four: its turn of the loop adds one to that category's global count and
    to no other, and each global count of the overview is the number of
    distinct suppliers that the priority rule puts in that category.  A
    supplier with tally 2/2/0/0 is counted High and one with tally 0/3/3/0
    Medium. *)
Theorem majority_follows_priority_order :
  forall (allPredictions : list RiskPredictionHistoryRow) (s : string),
    In s (map supplier_id allPredictions) ->
    JsMap.get (supplierRiskCounts allPredictions) s
      = Some (tally_of allPredictions s)
    /\ first_at_max (tally_of allPredictions s)
       = Some (majority (tally_of allPredictions s))
    /\ (forall rc c,
          risk_count (assign_step rc (s, tally_of allPredictions s)) c
          = risk_count rc c
            + (if classified_as c (tally_of allPredictions s) then 1 else 0))
    /\ (forall (profiles : list SupplierProfile)
               (latest : list RiskPredictionHistoryRow)
               (nSuppliers nPredictions : nat) c,
          risk_count
            (riskCounts
               (getExecutiveOverview profiles latest allPredictions
                  nSuppliers nPredictions)) c
          = List.length
              (filter (fun s' => classified_as c (tally_of allPredictions s'))
                 (distinct_suppliers allPredictions)))
    /\ majority {| high := 2; medium := 2; low := 0; unknown := 0 |} = CatHigh
    /\ majority {| high := 0; medium := 3; low := 3; unknown := 0 |} = CatMedium
    /\ riskCounts_of [("A", {| high := 2; medium := 2; low := 0; unknown := 0 |})]
       = {| High := 1; Medium := 0; Low := 0; Unknown := 0 |}
    /\ riskCounts_of [("B", {| high := 0; medium := 3; low := 3; unknown := 0 |})]
       = {| High := 0; Medium := 1; Low := 0; Unknown := 0 |}.
Proof.
  intros rows s Hin.
  assert (forall t c, classified_as c t = category_eqb (majority t) c) as Hcl.
  { intros t c. unfold classified_as. now rewrite majority_first_at_max. }
  split; [now apply supplierRiskCounts_get|].
  split; [apply majority_first_at_max|].
  split.
  { intros rc c. unfold assign_step. cbn [snd].
    rewrite bump_risk_count, Hcl. reflexivity. }
  split.
  { intros profiles latest nS nP c. cbn [getExecutiveOverview riskCounts].
    rewrite riskCounts_by_category. f_equal.
    apply filter_ext. intros s'. now rewrite Hcl. }
  split; [reflexivity|]. split; [reflexivity|]. split; reflexivity.
Qed.

(** C2.  The four global counts add up to the number of distinct supplier
    ids in the history, and each count is the number of distinct suppliers
    whose majority class is that category: the counts partition the
    suppliers that have a prediction. *)
Theorem risk_counts_partition_suppliers :
  forall (profiles : list SupplierProfile)
         (latest allPredictions : list RiskPredictionHistoryRow)
         (nSuppliers nPredictions : nat),
    let rc :=
      riskCounts
        (getExecutiveOverview profiles latest allPredictions nSuppliers nPredictions) in
    High rc + Medium rc + Low rc + Unknown rc
      = List.length (distinct_suppliers allPredictions)
    /\ forall c,
         risk_count rc c =
         List.length
           (filter (fun s => category_eqb (majority (tally_of allPredictions s)) c)
              (distinct_suppliers allPredictions)).
Proof.
  intros profiles latest rows nS nP rc.
  assert (forall c,
    risk_count rc c =
    List.length
      (filter (fun s => category_eqb (majority (tally_of rows s)) c)
         (distinct_suppliers rows))) as Hc.
  { intros c. subst rc. simpl. apply riskCounts_by_category. }
  split; [|exact Hc].
  rewrite <- (filter_categories_total (fun s => majority (tally_of rows s))
                (distinct_suppliers rows)).
  rewrite <- (Hc CatHigh), <- (Hc CatMedium), <- (Hc CatLow), <- (Hc CatUnknown).
  reflexivity.
Qed.

(* ================================================================== *)
(** * The latest-record resolver *)
(* ================================================================== *)

Section ResolverFacts.

Implicit Types (m : JsMap.t RiskPredictionHistoryRow) (r : RiskPredictionHistoryRow).

Lemma keep_first_get m r s :
  JsMap.get (keep_first m r) s =
  match JsMap.get m s with
  | Some v => Some v
  | None => if String.eqb (supplier_id r) s then Some r else None
  end.
Proof.
  unfold keep_first. destruct (JsMap.has m (supplier_id r)) eqn:Hhas.
  - destruct (JsMap.get m s) as [v|] eqn:Hg; [reflexivity|].
    destruct (String.eqb_spec (supplier_id r) s) as [<-|]; [|reflexivity].
    unfold JsMap.has in Hhas. now rewrite Hg in Hhas.
  - destruct (String.eqb_spec (supplier_id r) s) as [<-|Hne].
    + now rewrite get_set_same, (has_get_none _ _ Hhas).
    + rewrite get_set_other by exact Hne. now destruct (JsMap.get m s).
Qed.

Lemma keep_first_keys m r :
  JsMap.keys (keep_first m r) =
  if JsMap.has m (supplier_id r) then JsMap.keys m
  else JsMap.keys m ++ [supplier_id r].
Proof.
  unfold keep_first. destruct (JsMap.has m (supplier_id r)) eqn:Hhas;
    [reflexivity | now apply keys_set_absent].
Qed.

Lemma fold_keep_first_get rows : forall m s,
  JsMap.get (fold_left keep_first rows m) s =
  match JsMap.get m s with
  | Some v => Some v
  | None => first_of s rows
  end.
Proof.
  induction rows as [|r rows IH]; intros m s; simpl.
  - now destruct (JsMap.get m s).
  - rewrite IH, keep_first_get. destruct (JsMap.get m s); [reflexivity|].
    now destruct (String.eqb (supplier_id r) s).
Qed.

Lemma NoDup_snoc {A : Type} (l : list A) (x : A) :
  NoDup l -> ~ In x l -> NoDup (l ++ [x]).
Proof.
  intros Hnd Hx. apply NoDup_rev in Hnd.
  rewrite <- (rev_involutive (l ++ [x])). apply NoDup_rev.
  rewrite rev_app_distr. simpl. constructor; [|exact Hnd].
  now rewrite <- in_rev.
Qed.

Lemma fold_keep_first_keys rows : forall m,
  NoDup (JsMap.keys m) ->
  NoDup (JsMap.keys (fold_left keep_first rows m)) /\
  (forall s, In s (JsMap.keys (fold_left keep_first rows m)) <->
             In s (JsMap.keys m) \/ In s (map supplier_id rows)).
Proof.
  induction rows as [|r rows IH]; intros m Hnd; simpl.
  - split; [exact Hnd | intros s; tauto].
  - assert (NoDup (JsMap.keys (keep_first m r))) as Hnd'.
    { rewrite keep_first_keys.
      destruct (JsMap.has m (supplier_id r)) eqn:Hhas; [exact Hnd|].
      apply NoDup_snoc; [exact Hnd | now apply has_false_keys]. }
    destruct (IH _ Hnd') as [H1 H2]. split; [exact H1|].
    intros s. rewrite H2, keep_first_keys.
    destruct (JsMap.has m (supplier_id r)) eqn:Hhas.
    + apply has_In_keys in Hhas. split; [tauto|].
      intros [H | [H | H]]; subst; tauto.
    + rewrite in_app_iff. simpl. tauto.
Qed.

Lemma first_of_some s rows r :
  first_of s rows = Some r -> In r rows /\ supplier_id r = s.
Proof.
  unfold first_of. intros H. apply find_some in H as [H1 H2].
  split; [exact H1 | now apply String.eqb_eq].
Qed.

(** Each entry of the resolver's map is the first row of its supplier. *)
Lemma latestBySupplier_entries rows k r :
  In (k, r) (latestBySupplier rows) -> first_of k rows = Some r.
Proof.
  intros Hin. unfold latestBySupplier in *.
  destruct (fold_keep_first_keys rows JsMap.empty (NoDup_nil _)) as [Hnd _].
  pose proof (In_get_nodup _ _ _ Hnd Hin) as Hg.
  rewrite fold_keep_first_get in Hg. exact Hg.
Qed.

Lemma latestBySupplier_ids rows :
  map supplier_id (JsMap.values (latestBySupplier rows)) =
  JsMap.keys (latestBySupplier rows).
Proof.
  pose proof (latestBySupplier_entries rows) as H.
  revert H. generalize (latestBySupplier rows) as m.
  induction m as [|[k v] m IH]; intros H; simpl; [reflexivity|].
  f_equal.
  - exact (proj2 (first_of_some _ _ _ (H k v (or_introl eq_refl)))).
  - apply IH. intros k' r' Hin. apply H. now right.
Qed.

(** In a list sorted for a relation, the first element that passes a test
    is related to every later one that passes it. *)
Lemma find_heads_sorted {A : Type} (R : A -> A -> Prop) (f : A -> bool)
  (l : list A) (x : A) :
  StronglySorted R l -> find f l = Some x ->
  forall y, In y l -> f y = true -> y = x \/ R x y.
Proof.
  induction 1 as [|a l Hs IH Hall]; simpl; [discriminate|].
  destruct (f a) eqn:Hfa.
  - intros [= <-] y [-> | Hy] _; [now left | right].
    rewrite Forall_forall in Hall. now apply Hall.
  - intros Hfind y [-> | Hy] Hfy; [congruence|]. now apply IH.
Qed.

Lemma store_order_trans id_lt :
  collation id_lt -> Relations_1.Transitive (store_order id_lt).
Proof.
  intros [Hirr Htr] a b c [Hab | [Eab Dab]] [Hbc | [Ebc Dbc]]; unfold store_order.
  - left. eauto.
  - left. now rewrite <- Ebc.
  - left. now rewrite Eab.
  - right. split; [congruence | lia].
Qed.

End ResolverFacts.

Section StoreOrderFacts.

Lemma row_leb_order (a b : RiskPredictionHistoryRow) :
  row_leb a b = true -> store_order code_unit_lt a b.
Proof.
  unfold row_leb, store_order, code_unit_lt.
  destruct (String.compare (supplier_id a) (supplier_id b)) eqn:E; intros H.
  - right. split; [now apply String_as_OT.cmp_eq | lia].
  - left. now apply String_as_OT.cmp_lt.
  - discriminate.
Qed.

Lemma row_leb_total (a b : RiskPredictionHistoryRow) :
  row_leb a b = false -> store_order code_unit_lt b a.
Proof.
  unfold row_leb, store_order, code_unit_lt.
  destruct (String.compare (supplier_id a) (supplier_id b)) eqn:E; intros H.
  - right. split; [symmetry; now apply String_as_OT.cmp_eq | lia].
  - discriminate.
  - left. apply String_as_OT.cmp_lt.
    unfold String_as_OT.cmp in *. rewrite String_as_OT.cmp_antisym.
    unfold String_as_OT.cmp. now rewrite E.
Qed.

Lemma place_perm a l : Permutation (a :: l) (place a l).
Proof.
  induction l as [|b l IH]; simpl; [reflexivity|].
  destruct (row_leb a b); [reflexivity|].
  rewrite perm_swap. now constructor.
Qed.

Lemma place_head a b l :
  store_order code_unit_lt b a -> HdRel (store_order code_unit_lt) b l ->
  HdRel (store_order code_unit_lt) b (place a l).
Proof.
  intros Hba Hhd. destruct l as [|c l]; simpl; [now constructor|].
  destruct (row_leb a c); constructor; [exact Hba|].
  now inversion Hhd.
Qed.

Lemma place_sorted a l :
  Sorted (store_order code_unit_lt) l -> Sorted (store_order code_unit_lt) (place a l).
Proof.
  induction 1 as [|b l Hs IH Hhd]; simpl.
  - repeat constructor.
  - destruct (row_leb a b) eqn:E.
    + constructor; [now constructor|]. constructor. now apply row_leb_order.
    + constructor; [exact IH|]. apply place_head; [|exact Hhd].
      now apply row_leb_total.
Qed.

(** Every table has an ordered answer: the premises of the resolver's
    property can be met whatever the history is. *)
Lemma order_by_answers (table : list RiskPredictionHistoryRow) :
  Permutation table (order_by table)
  /\ Sorted (store_order code_unit_lt) (order_by table).
Proof.
  induction table as [|a table [IHp IHs]]; simpl.
  - split; constructor.
  - split.
    + rewrite <- place_perm. now constructor.
    + now apply place_sorted.
Qed.

End StoreOrderFacts.

(** C3.  Whatever the collation of the store, when it answers the ordered
    query with the rows of the table sorted by supplier id ascending and
    prediction date descending, the resolver returns normally, with exactly
    one row per distinct supplier id of the table; the row chosen for a
    supplier is a row of the table, no row of that supplier is newer, and it
    is the first row of that supplier in the answer.  An empty answer (or
    none) gives the empty result. *)
Theorem latest_record_per_supplier :
  forall (id_lt : string -> string -> Prop)
         (table rows : list RiskPredictionHistoryRow),
    collation id_lt ->
    Permutation table rows ->
    Sorted (store_order id_lt) rows ->
    exists out,
      getLatestPredictionsPerSupplier (answered rows) = Exn.Normal out
      /\ NoDup (map supplier_id out)
      /\ (forall s, In s (map supplier_id out) <-> In s (map supplier_id table))
      /\ (forall r, In r out ->
            In r table
            /\ (forall r', In r' table -> supplier_id r' = supplier_id r ->
                  (prediction_date r' <= prediction_date r)%Z)
            /\ first_of (supplier_id r) rows = Some r)
      /\ getLatestPredictionsPerSupplier (answered []) = Exn.Normal []
      /\ getLatestPredictionsPerSupplier
           {| data := None; error := None; count := None |} = Exn.Normal [].
Proof.
  intros id_lt table rows Hcol Hperm Hsorted.
  exists (JsMap.values (latestBySupplier rows)).
  destruct (fold_keep_first_keys rows JsMap.empty (NoDup_nil _)) as [Hnd Hkeys].
  fold (latestBySupplier rows) in Hnd, Hkeys.
  split; [reflexivity|]. split; [now rewrite latestBySupplier_ids|].
  split.
  { intros s. rewrite latestBySupplier_ids, Hkeys. simpl.
    split.
    - intros [[] | H]. apply (Permutation_in _ (Permutation_sym (Permutation_map _ Hperm))), H.
    - intros H. right. apply (Permutation_in _ (Permutation_map _ Hperm)), H. }
  split; [|split; reflexivity].
  intros r Hr. unfold JsMap.values in Hr. apply in_map_iff in Hr as [[k v] [Hv He]].
  simpl in Hv. subst v.
  pose proof (latestBySupplier_entries _ _ _ He) as Hfirst.
  destruct (first_of_some _ _ _ Hfirst) as [Hin Hid]. subst k.
  split; [now apply (Permutation_in _ (Permutation_sym Hperm))|].
  split; [|exact Hfirst].
  intros r' Hr' Hsame.
  apply (Permutation_in _ Hperm) in Hr'.
  pose proof (Sorted_StronglySorted (store_order_trans _ Hcol) Hsorted) as Hss.
  destruct (find_heads_sorted _ _ _ _ Hss Hfirst r' Hr') as [-> | [Hlt | [_ Hle]]].
  - now apply String.eqb_eq.
  - lia.
  - exfalso. rewrite Hsame in Hlt. exact (proj1 Hcol _ Hlt).
  - exact Hle.
Qed.

(* ================================================================== *)
(** * The stable sort under a descending-key comparator *)
(* ================================================================== *)

Section SortFacts.

Context {A : Type}.
Variable comparefn : A -> A -> Js.jsnum.
Variable key : A -> Q.
Variable dom : A -> Prop.

(** On [dom] the comparator orders by [key], larger first. *)
Hypothesis before_key :
  forall a b, dom a -> dom b ->
    Js.before comparefn a b = Qle_bool (key b) (key a).

Lemma insert_perm (a : A) (l : list A) :
  Permutation (a :: l) (Js.insert comparefn a l).
Proof.
  induction l as [|b l IH]; simpl; [reflexivity|].
  destruct (Js.before comparefn a b); [reflexivity|].
  rewrite perm_swap. now constructor.
Qed.

Lemma sort_perm (l : list A) : Permutation l (Js.sort comparefn l).
Proof.
  induction l as [|a l IH]; simpl; [reflexivity|].
  rewrite <- insert_perm. now constructor.
Qed.

Lemma sort_dom (l : list A) : Forall dom l -> Forall dom (Js.sort comparefn l).
Proof.
  intros H. rewrite Forall_forall in *. intros x Hx. apply H.
  now apply (Permutation_in _ (Permutation_sym (sort_perm l))).
Qed.

Lemma insert_sorted (a : A) (l : list A) :
  dom a -> Forall dom l ->
  StronglySorted (key_desc key) l -> StronglySorted (key_desc key) (Js.insert comparefn a l).
Proof.
  intros Ha Hl Hs. induction Hs as [|b l Hs IH Hall]; simpl.
  - repeat constructor.
  - inversion Hl as [|? ? Hb Hl']; subst.
    rewrite (before_key a b Ha Hb).
    destruct (Qle_bool (key b) (key a)) eqn:E.
    + apply Qle_bool_iff in E. constructor; [now constructor|].
      constructor; [exact E|].
      rewrite Forall_forall in *. intros x Hx. unfold key_desc in *.
      eapply Qle_trans; [apply (Hall x Hx) | exact E].
    + constructor; [now apply IH|].
      rewrite Forall_forall in *. intros x Hx.
      apply (Permutation_in _ (Permutation_sym (insert_perm a l))) in Hx.
      destruct Hx as [<- | Hx]; [|now apply Hall].
      unfold key_desc. apply Qlt_le_weak, Qnot_le_lt. intros Hle.
      apply Qle_bool_iff in Hle. congruence.
Qed.

Lemma sort_sorted (l : list A) :
  Forall dom l -> StronglySorted (key_desc key) (Js.sort comparefn l).
Proof.
  induction 1 as [|a l Ha Hl IH]; simpl; [constructor|].
  apply insert_sorted; [exact Ha | now apply sort_dom | exact IH].
Qed.

Lemma insert_same_key (k : Q) (a : A) (l : list A) :
  dom a -> Forall dom l ->
  filter (same_key key k) (Js.insert comparefn a l) = filter (same_key key k) (a :: l).
Proof.
  intros Ha Hl. induction Hl as [|b l Hb Hl IH]; [reflexivity|].
  cbn [Js.insert]. rewrite (before_key a b Ha Hb).
  destruct (Qle_bool (key b) (key a)) eqn:E; [reflexivity|].
  cbn [filter] in *. rewrite IH. unfold same_key.
  destruct (Qeq_bool (key a) k) eqn:Ea, (Qeq_bool (key b) k) eqn:Eb; try reflexivity.
  exfalso. apply Qeq_bool_iff in Ea, Eb.
  assert (Qle_bool (key b) (key a) = true) as Habs; [|congruence].
  apply Qle_bool_iff. rewrite Ea, Eb. apply Qle_refl.
Qed.

(** Stability: the elements of any one key keep their input order. *)
Lemma sort_stable (k : Q) (l : list A) :
  Forall dom l ->
  filter (same_key key k) (Js.sort comparefn l) = filter (same_key key k) l.
Proof.
  induction 1 as [|a l Ha Hl IH]; [reflexivity|].
  cbn [Js.sort fold_right]. fold (Js.sort comparefn l).
  rewrite insert_same_key; [|exact Ha | now apply sort_dom].
  cbn [filter]. now rewrite IH.
Qed.

End SortFacts.

(* ================================================================== *)
(** * Top ten and average of [prob_high] *)
(* ================================================================== *)

Section OverviewFacts.

Lemma Qle_bool_sub (a b : Q) : Qle_bool (b - a) 0 = Qle_bool b a.
Proof.
  destruct (Qle_bool b a) eqn:E.
  - apply Qle_bool_iff in E. apply Qle_bool_iff. lra.
  - destruct (Qle_bool (b - a) 0) eqn:E'; [|reflexivity].
    apply Qle_bool_iff in E'.
    assert (Qle_bool b a = true) as Habs by (apply Qle_bool_iff; lra).
    congruence.
Qed.

Lemma before_prob_high (a b : LatestPrediction) :
  Js.before by_prob_high_desc a b = Qle_bool (prob_key b) (prob_key a).
Proof.
  unfold Js.before, by_prob_high_desc, prob_key. simpl.
  now rewrite negb_involutive, Qle_bool_sub.
Qed.

Lemma map_row_with_name names (l : list RiskPredictionHistoryRow) :
  map row (map (with_name names) l) = l.
Proof.
  induction l as [|r l IH]; simpl; [reflexivity | now rewrite IH].
Qed.

End OverviewFacts.

(** C6.  The top-high-risk list is the first ten entries of a list that is a
    rearrangement of all prediction records, in descending order of
    [prob_high] with null read as 0, in which records of equal [prob_high]
    keep their input order.  For [prob_high] values 0.9, 0.1, 0.9, 0.5 the
    result is the first record, the third, the fourth, then the second. *)
Theorem top_high_risk_stable_top_ten :
  forall (profiles : list SupplierProfile)
         (latest allPredictions : list RiskPredictionHistoryRow)
         (nSuppliers nPredictions : nat),
    let allWithNames := map (with_name (nameById profiles)) allPredictions in
    (exists sorted,
       topHighRisk
         (getExecutiveOverview profiles latest allPredictions nSuppliers nPredictions)
       = firstn 10 sorted
       /\ Permutation allWithNames sorted
       /\ StronglySorted (key_desc prob_key) sorted
       /\ (forall k, filter (same_key prob_key k) sorted
                     = filter (same_key prob_key k) allWithNames))
    /\ map row allWithNames = allPredictions
    /\ map (fun x => supplier_id (row x))
         (topHighRisk
            (getExecutiveOverview [] []
               [sample_row "r1" (Some (9 # 10)); sample_row "r2" (Some (1 # 10));
                sample_row "r3" (Some (9 # 10)); sample_row "r4" (Some (5 # 10))]
               4 4))
       = ["r1"; "r3"; "r4"; "r2"].
Proof.
  intros profiles latest rows nS nP named.
  split; [|split; [apply map_row_with_name | reflexivity]].
  exists (Js.sort by_prob_high_desc named).
  assert (Forall (fun _ => True) named) as Hdom by (apply Forall_forall; trivial).
  split; [reflexivity|]. split; [apply sort_perm|]. split.
  - apply (sort_sorted by_prob_high_desc prob_key (fun _ => True)); [|exact Hdom].
    intros a b _ _. apply before_prob_high.
  - intros k.
    apply (sort_stable by_prob_high_desc prob_key (fun _ => True)); [|exact Hdom].
    intros a b _ _. apply before_prob_high.
Qed.

(* ================================================================== *)
(** * Rounding to the nearest double *)
(* ================================================================== *)

Section RoundingFacts.

Local Open Scope Q_scope.

Lemma pow2_pos (e : Z) : 0 < Js.pow2 e.
Proof. apply Qpower_0_lt. reflexivity. Qed.

Lemma pow2_add (a b : Z) : Js.pow2 (a + b) == Js.pow2 a * Js.pow2 b.
Proof. apply Qpower_plus. discriminate. Qed.

Lemma pow2_le (a b : Z) : (a <= b)%Z -> Js.pow2 a <= Js.pow2 b.
Proof. intros H. apply Qpower_le_compat_l; [exact H | discriminate]. Qed.

Lemma pow2_inject (n : Z) : (0 <= n)%Z -> Js.pow2 n == inject_Z (2 ^ n).
Proof. intros H. unfold Js.pow2. now rewrite (Zpower_Qpower 2 n H). Qed.

Lemma Qdiv_le_cross (a b n d : Q) :
  0 <= a -> a <= n -> 0 < d -> d <= b -> a / b <= n / d.
Proof.
  intros Ha Han Hd Hdb.
  assert (0 < b) as Hb by lra.
  apply Qle_shift_div_l; [exact Hd|].
  assert (a / b * d == a * d / b) as -> by (field; lra).
  apply Qle_shift_div_r; [exact Hb|].
  apply Qmult_le_compat_nonneg; split; lra.
Qed.

Lemma Qdiv_lt_cross (n d a b : Q) :
  0 <= n -> n < a -> 0 < b -> b <= d -> n / d < a / b.
Proof.
  intros Hn Hna Hb Hbd.
  assert (0 < d) as Hd by lra.
  apply Qlt_shift_div_l; [exact Hb|].
  assert (n / d * b == n * b / d) as -> by (field; lra).
  apply Qlt_shift_div_r; [exact Hd|].
  apply Qle_lt_trans with (n * d).
  - rewrite !(Qmult_comm n). apply Qmult_le_compat_r; lra.
  - apply Qmult_lt_compat_r; lra.
Qed.

(** [ilog2 q] is the exponent of the power of two at or below [q]. *)
Lemma ilog2_spec (q : Q) :
  0 < q -> Js.pow2 (Js.ilog2 q) <= q /\ q < Js.pow2 (Js.ilog2 q + 1).
Proof.
  intros Hq. unfold Js.ilog2.
  set (a := Z.log2 (Qnum q)). set (b := Z.log2 (Z.pos (Qden q))).
  assert (0 < Qnum q)%Z as Hn.
  { destruct q as [n d]. unfold Qlt in Hq. simpl in *. lia. }
  destruct (Z.log2_spec (Qnum q) Hn) as [Ha Ha'].
  destruct (Z.log2_spec (Z.pos (Qden q)) eq_refl) as [Hb' Hb].
  fold a in Ha, Ha'. fold b in Hb, Hb'.
  replace (Z.succ a) with (a + 1)%Z in Ha' by lia.
  replace (Z.succ b) with (b + 1)%Z in Hb by lia.
  assert (0 <= a)%Z as Ha0 by apply Z.log2_nonneg.
  assert (0 <= b)%Z as Hb0 by apply Z.log2_nonneg.
  assert (inject_Z (Qnum q) / inject_Z (Z.pos (Qden q)) == q) as Hfrac.
  { destruct q as [n d]. symmetry. apply Qmake_Qdiv. }
  assert (forall z, (0 <= z)%Z -> 0 < inject_Z (2 ^ z)) as Hpos.
  { intros z Hz. change 0 with (inject_Z 0). rewrite <- Zlt_Qlt.
    apply Z.pow_pos_nonneg; lia. }
  destruct (Qle_bool (Js.pow2 (a - b)) q) eqn:E.
  - split; [now apply Qle_bool_iff|].
    replace (a - b + 1)%Z with (a + 1 - b)%Z by lia.
    unfold Js.pow2. rewrite Qpower_minus by discriminate.
    fold (Js.pow2 (a + 1)). fold (Js.pow2 b).
    rewrite (pow2_inject (a + 1)), (pow2_inject b Hb0) by lia.
    apply Qle_lt_trans with (inject_Z (Qnum q) / inject_Z (Z.pos (Qden q)));
      [apply Qle_lteq; right; symmetry; exact Hfrac|].
    apply Qdiv_lt_cross.
    + change 0 with (inject_Z 0). rewrite <- Zle_Qle. lia.
    + rewrite <- Zlt_Qlt. exact Ha'.
    + apply Hpos, Hb0.
    + rewrite <- Zle_Qle. exact Hb'.
  - split.
    + replace (a - b - 1)%Z with (a - (b + 1))%Z by lia.
      unfold Js.pow2. rewrite Qpower_minus by discriminate.
      fold (Js.pow2 a). fold (Js.pow2 (b + 1)).
      rewrite (pow2_inject a Ha0), (pow2_inject (b + 1)) by lia.
      apply Qle_trans with (inject_Z (Qnum q) / inject_Z (Z.pos (Qden q)));
        [|apply Qle_lteq; right; exact Hfrac].
      apply Qdiv_le_cross.
      * apply Qlt_le_weak, Hpos, Ha0.
      * rewrite <- Zle_Qle. exact Ha.
      * change 0 with (inject_Z 0). rewrite <- Zlt_Qlt. reflexivity.
      * rewrite <- Zle_Qle. lia.
    + replace (a - b - 1 + 1)%Z with (a - b)%Z by lia.
      apply Qnot_le_lt. intros Hle. apply Qle_bool_iff in Hle. congruence.
Qed.

Lemma ilog2_le (q : Q) : 0 < q -> Js.pow2 (Js.ilog2 q) <= q.
Proof. intros Hq. apply (ilog2_spec q Hq). Qed.

Lemma round_half_even_error (r : Q) :
  Qabs (inject_Z (Js.round_half_even r) - r) <= 1 # 2.
Proof.
  unfold Js.round_half_even.
  pose proof (Qfloor_le r) as Hlo. pose proof (Qlt_floor r) as Hhi.
  set (f := Qfloor r) in *. rewrite inject_Z_plus in Hhi.
  change (inject_Z 1) with 1 in Hhi.
  apply Qabs_Qle_condition.
  destruct (Qcompare_spec (r - inject_Z f) (1 # 2)) as [He | Hl | Hg].
  - destruct (Z.even f); [|rewrite inject_Z_plus; change (inject_Z 1) with 1];
      split; lra.
  - split; lra.
  - rewrite inject_Z_plus. change (inject_Z 1) with 1. split; lra.
Qed.

Lemma round_half_even_nonneg (r : Q) : 0 <= r -> (0 <= Js.round_half_even r)%Z.
Proof.
  intros Hr. unfold Js.round_half_even.
  assert (0 <= Qfloor r)%Z as Hf.
  { rewrite <- (Qfloor_Z 0). now apply Qfloor_resp_le. }
  destruct (Qcompare _ _); [destruct (Z.even _)| |]; lia.
Qed.

(** Half a unit in the last place is within the rounding allowance. *)
Lemma half_ulp (q : Q) :
  0 < q -> Js.pow2 (Js.ulp_exponent q) * (1 # 2) <= q * unit_roundoff + tiny.
Proof.
  intros Hq. unfold Js.ulp_exponent, unit_roundoff, tiny.
  pose proof (ilog2_le q Hq) as Hlog.
  pose proof (pow2_pos (-53)) as Hu. pose proof (pow2_pos (-1075)) as Ht.
  assert (Js.pow2 (-1) == 1 # 2) as Hhalf by reflexivity.
  destruct (Z.max_spec (Js.ilog2 q - 52) (-1074)) as [[_ ->] | [_ ->]].
  - assert (Js.pow2 (-1074) * (1 # 2) == Js.pow2 (-1075)) as ->.
    { rewrite <- Hhalf, <- pow2_add. reflexivity. }
    assert (0 <= q * Js.pow2 (-53)) by (apply Qmult_le_0_compat; lra). lra.
  - assert (Js.pow2 (Js.ilog2 q - 52) * (1 # 2)
            == Js.pow2 (Js.ilog2 q) * Js.pow2 (-53)) as ->.
    { rewrite <- Hhalf, <- !pow2_add.
      now replace (Js.ilog2 q - 52 + -1)%Z with (Js.ilog2 q + -53)%Z by lia. }
    assert (Js.pow2 (Js.ilog2 q) * Js.pow2 (-53) <= q * Js.pow2 (-53))
      by (apply Qmult_le_compat_r; lra). lra.
Qed.

Lemma round_magnitude_error (q : Q) :
  0 < q ->
  0 <= Js.round_magnitude q
  /\ Qabs (Js.round_magnitude q - q) <= q * unit_roundoff + tiny.
Proof.
  intros Hq. unfold Js.round_magnitude.
  set (e := Js.ulp_exponent q). pose proof (pow2_pos e) as He.
  set (m := Js.round_half_even (q / Js.pow2 e)).
  assert (0 <= q / Js.pow2 e) as Hr.
  { apply Qle_shift_div_l; [exact He | lra]. }
  split.
  - apply Qmult_le_0_compat; [|lra].
    change 0 with (inject_Z 0). rewrite <- Zle_Qle.
    now apply round_half_even_nonneg.
  - eapply Qle_trans; [|apply (half_ulp q Hq)]. fold e.
    pose proof (round_half_even_error (q / Js.pow2 e)) as Herr. fold m in Herr.
    assert (inject_Z m * Js.pow2 e - q == (inject_Z m - q / Js.pow2 e) * Js.pow2 e)
      as -> by (field; lra).
    rewrite Qabs_Qmult, (Qabs_pos (Js.pow2 e)) by lra.
    rewrite (Qmult_comm (Js.pow2 e)). apply Qmult_le_compat_r; lra.
Qed.

Lemma round64_comp (x y : Q) : x == y -> Js.round64 x = Js.round64 y.
Proof. intros H. unfold Js.round64. now rewrite (Qred_complete x y H). Qed.

Lemma Qabs_pos_eq (q : Q) : 0 <= q -> Qabs q = q.
Proof.
  destruct q as [n d]. unfold Qle. simpl. intros H.
  unfold Qabs. f_equal. apply Z.abs_eq. lia.
Qed.

Lemma unit_roundoff_value : unit_roundoff == 1 # 9007199254740992.
Proof. reflexivity. Qed.

Lemma tiny_small : 0 < tiny /\ tiny <= unit_roundoff * (1 # 2).
Proof.
  split; [apply pow2_pos|]. unfold tiny, unit_roundoff.
  assert (Js.pow2 (-53) * (1 # 2) == Js.pow2 (-54)) as -> by reflexivity.
  apply pow2_le. lia.
Qed.

(** Rounding a sum or quotient that is not negative and far from overflow
    gives a double within the rounding allowance. *)
Lemma round64_error (x : Q) :
  0 <= x -> x <= Js.pow2 60 ->
  exists r, Js.round64 x = Js.Fin r /\ 0 <= r
            /\ Qabs (r - x) <= x * unit_roundoff + tiny.
Proof.
  intros H0 Hmax. unfold Js.round64.
  pose proof (Qred_correct x) as Hred. set (q := Qred x) in *.
  pose proof tiny_small as [Ht0 Ht]. pose proof unit_roundoff_value as Hu.
  assert (0 <= x * unit_roundoff) as Hxu by (apply Qmult_le_0_compat; lra).
  destruct (Qeq_bool q 0) eqn:Ez.
  - apply Qeq_bool_iff in Ez. exists 0. split; [reflexivity|].
    split; [lra|]. apply Qabs_Qle_condition. split; lra.
  - assert (0 < q) as Hq.
    { apply Qeq_bool_neq in Ez. destruct (Qlt_le_dec 0 q) as [Hlt | Hle];
        [exact Hlt | exfalso; apply Ez; lra]. }
    rewrite (Qabs_pos_eq q) by lra.
    destruct (round_magnitude_error q Hq) as [Hr0 Herr].
    pose proof (Qred_correct (Js.round_magnitude q)) as Hr.
    set (r := Qred (Js.round_magnitude q)) in *.
    apply Qabs_Qle_condition in Herr.
    assert (Js.pow2 60 == 1152921504606846976) as H60 by reflexivity.
    assert (Js.pow2 62 <= Js.pow2 1024) as Hbig by (apply pow2_le; lia).
    assert (Js.pow2 62 == 4611686018427387904) as H62 by reflexivity.
    assert (0 <= q * unit_roundoff <= q).
    { split; [apply Qmult_le_0_compat; lra|].
      rewrite <- (Qmult_1_r q) at 2. apply Qmult_le_l; lra. }
    assert (Qle_bool (Js.pow2 1024) r = false) as ->.
    { destruct (Qle_bool (Js.pow2 1024) r) eqn:E; [|reflexivity].
      apply Qle_bool_iff in E. lra. }
    assert (Qle_bool 0 q = true) as -> by (apply Qle_bool_iff; lra).
    exists r. split; [reflexivity|]. split; [lra|].
    apply Qabs_Qle_condition.
    assert (q * unit_roundoff == x * unit_roundoff) as Hqu by now rewrite Hred.
    split; lra.
Qed.

Lemma round64_not_nan (x : Q) : Js.round64 x <> Js.NaN.
Proof.
  unfold Js.round64. destruct (Qeq_bool _ _); [discriminate|].
  destruct (Qle_bool (Js.pow2 1024) _); [destruct (Qle_bool 0 _)|]; discriminate.
Qed.

Lemma is_double_round (q : Q) :
  is_double q = true -> exists r, Js.round64 q = Js.Fin r /\ r == q.
Proof.
  unfold is_double. destruct (Js.round64 q) as [r| | |]; try discriminate.
  intros H. apply Qeq_bool_iff in H. eauto.
Qed.

(** *** Sums *)

Lemma double_sum_exact (l : list Q) : forall (s acc : Q),
  s == acc -> sums_exact acc l = true ->
  exists s', double_sum l (Js.Fin s) = Js.Fin s' /\ s' == acc + Qsum l.
Proof.
  induction l as [|x l IH]; intros s acc Hs H.
  - exists s. split; [reflexivity|]. unfold Qsum. simpl. lra.
  - cbn [sums_exact] in H. apply andb_true_iff in H as [Hd Hrest].
    destruct (is_double_round _ Hd) as (r & Hr & Hreq).
    destruct (IH r (acc + x) Hreq Hrest) as (s' & Hs' & Heq).
    exists s'. split.
    + unfold double_sum. cbn [fold_left Js.add].
      rewrite (round64_comp (s + x) (acc + x)) by now rewrite Hs.
      rewrite Hr. exact Hs'.
    + rewrite Heq. unfold Qsum. cbn [fold_right]. lra.
Qed.

Lemma double_sum_not_nan (l : list Q) :
  forall acc, acc <> Js.NaN -> double_sum l acc <> Js.NaN.
Proof.
  induction l as [|x l IH]; intros acc H; [exact H|].
  unfold double_sum. cbn [fold_left]. apply IH.
  destruct acc; cbn [Js.add]; try discriminate;
    [apply round64_not_nan | contradiction].
Qed.

Lemma Qnat_pos (n : nat) : (0 < n)%nat -> 1 <= Qnat n.
Proof.
  intros H. unfold Qnat. change 1 with (inject_Z 1). rewrite <- Zle_Qle. lia.
Qed.

(** Division by a length that is not 0. *)
Lemma div_length (a : Js.jsnum) (n : nat) :
  (0 < n)%nat ->
  Js.div a (Js.of_length n)
  = match a with Js.Fin x => Js.round64 (x / Qnat n) | other => other end.
Proof.
  intros H. pose proof (Qnat_pos n H) as Hc. unfold Js.of_length. fold (Qnat n).
  assert (Qeq_bool (Qnat n) 0 = false) as Hz.
  { destruct (Qeq_bool (Qnat n) 0) eqn:E; [|reflexivity].
    apply Qeq_bool_iff in E. lra. }
  assert (Qle_bool 0 (Qnat n) = true) as Hp by (apply Qle_bool_iff; lra).
  destruct a; cbn [Js.div]; now rewrite ?Hz, ?Hp.
Qed.

Section Bound.

Variables N delta : Q.
Hypothesis HN : 1 <= N.
Hypothesis Hd0 : 0 <= delta.
Hypothesis Hd1 : (N + N * delta) * unit_roundoff + tiny <= delta.
Hypothesis Hbig : N + N * delta <= Js.pow2 60.

(** While at most [N] values between 0 and 1 are added, every addition
    stays within [delta] of the exact sum. *)
Lemma double_sum_error (l : list Q) : forall (s S k : Q),
  0 <= s -> 0 <= k -> 0 <= S -> S <= k ->
  Qabs (s - S) <= k * delta ->
  k + Qnat (List.length l) <= N ->
  Forall (fun x => 0 <= x <= 1) l ->
  exists s', double_sum l (Js.Fin s) = Js.Fin s' /\ 0 <= s'
             /\ 0 <= S + Qsum l /\ S + Qsum l <= k + Qnat (List.length l)
             /\ Qabs (s' - (S + Qsum l)) <= (k + Qnat (List.length l)) * delta.
Proof.
  induction l as [|x l IH]; intros s S k Hs Hk HS0 HSk Herr Hlen Hall.
  - exists s. split; [reflexivity|]. split; [exact Hs|].
    unfold Qnat, Qsum. cbn [fold_right List.length Z.of_nat].
    change (inject_Z 0) with 0.
    apply Qabs_Qle_condition in Herr.
    split; [lra|]. split; [lra|]. apply Qabs_Qle_condition. split; lra.
  - inversion Hall as [|? ? [Hx0 Hx1] Hall']; subst.
    assert (Qnat (List.length (x :: l)) == 1 + Qnat (List.length l)) as Hcnt.
    { unfold Qnat. cbn [List.length]. rewrite Nat2Z.inj_succ, <- Z.add_1_l.
      rewrite inject_Z_plus. reflexivity. }
    assert (0 <= Qnat (List.length l)) as Hc0.
    { unfold Qnat. change 0 with (inject_Z 0). rewrite <- Zle_Qle. lia. }
    apply Qabs_Qle_condition in Herr.
    assert (k * delta <= N * delta) as Hkd
      by (apply Qmult_le_compat_r; lra).
    assert (0 <= s + x <= N + N * delta) as [Ht0 Ht] by (split; lra).
    destruct (round64_error (s + x)) as (s1 & Hr & Hs1 & He); [lra | lra |].
    assert ((s + x) * unit_roundoff <= (N + N * delta) * unit_roundoff) as Hmul.
    { apply Qmult_le_compat_r; [lra|]. apply Qlt_le_weak, pow2_pos. }
    apply Qabs_Qle_condition in He.
    destruct (IH s1 (S + x) (k + 1)) as (s' & Hs' & Hs'0 & Hsum0 & Hsum & Hfinal);
      try lra; try assumption.
    + apply Qabs_Qle_condition. split; lra.
    + exists s'. split.
      { unfold double_sum. cbn [fold_left Js.add]. rewrite Hr. exact Hs'. }
      split; [exact Hs'0|].
      unfold Qsum in *. cbn [fold_right].
      apply Qabs_Qle_condition in Hfinal.
      assert ((k + Qnat (List.length (x :: l))) * delta
              == (k + 1 + Qnat (List.length l)) * delta) as Hprod
        by (rewrite Hcnt; ring).
      split; [lra|]. split; [lra|]. apply Qabs_Qle_condition. split; lra.
Qed.

End Bound.

(** The average of at most [2 ^ 51] values between 0 and 1. *)
Lemma mean_error (l : list Q) :
  l <> [] -> Qnat (List.length l) <= Js.pow2 51 ->
  Forall (fun x => 0 <= x <= 1) l ->
  exists a,
    Js.div (double_sum l (Js.Fin 0)) (Js.of_length (List.length l)) = Js.Fin a
    /\ Qabs (a - mean l) <= (2 * Qnat (List.length l) + 3) * unit_roundoff.
Proof.
  intros Hne Hmax Hall.
  assert (0 < List.length l)%nat as Hlen by (destruct l; [contradiction | simpl; lia]).
  pose proof (Qnat_pos _ Hlen) as HN. set (N := Qnat (List.length l)) in *.
  pose proof unit_roundoff_value as Hu. pose proof tiny_small as [Ht0 Ht].
  assert (Js.pow2 51 == 2251799813685248) as H51 by reflexivity.
  assert (Js.pow2 60 == 1152921504606846976) as H60 by reflexivity.
  set (w := N * unit_roundoff).
  assert (0 < w <= 1 # 4) as [Hw0 Hw] by (unfold w; split; nra).
  assert (w * w <= w * (1 # 4)) as Hww by nra.
  assert (unit_roundoff <= w) as Huw by (unfold w; nra).
  set (delta := 2 * w).
  assert (N * delta == 2 * (N * w)) as HNd by (unfold delta; ring).
  assert (N * w * unit_roundoff == w * w) as HNwu by (unfold w; ring).
  assert (N * w <= N * (1 # 4)) as HNw by nra.
  assert (0 <= N * w) as HNw0 by nra.
  destruct (double_sum_error N delta) with (l := l) (s := 0) (S := 0) (k := 0)
    as (s & Hs & Hs0 & Hsum0 & Hsum & Herr); try lra.
  - unfold delta. nra.
  - unfold delta. nra.
  - apply Qabs_Qle_condition. split; lra.
  - fold N. lra.
  - exact Hall.
  - rewrite Hs. rewrite (div_length (Js.Fin s) _ Hlen). fold N.
    fold N in Hsum, Herr. rewrite !Qplus_0_l in *.
    apply Qabs_Qle_condition in Herr.
    assert (0 <= s / N) as Hq0 by (apply Qle_shift_div_l; lra).
    assert (s / N <= 1 + delta) as Hq1.
    { apply Qle_shift_div_r; [lra|]. nra. }
    destruct (round64_error (s / N)) as (a & Ha & Ha0 & Hea);
      [lra | unfold delta in *; lra |].
    exists a. split; [exact Ha|].
    apply Qabs_Qle_condition in Hea.
    assert (mean l == Qsum l / N) as Hmean by reflexivity.
    assert (s / N - delta <= Qsum l / N <= s / N + delta) as [Hm1 Hm2].
    { split.
      - apply Qle_shift_div_l; [lra|].
        assert ((s / N - delta) * N == s - N * delta) as -> by (field; lra). lra.
      - apply Qle_shift_div_r; [lra|].
        assert ((s / N + delta) * N == s + N * delta) as -> by (field; lra). lra. }
    assert (s / N * unit_roundoff <= (1 + delta) * unit_roundoff) as Hmul.
    { apply Qmult_le_compat_r; lra. }
    assert (delta * unit_roundoff <= unit_roundoff * (1 # 2)) as Hdu
      by (unfold delta; nra).
    apply Qabs_Qle_condition. rewrite Hmean. unfold delta, w in *.
    split; lra.
Qed.

(** The reducer of the average adds the [prob_high] values, null read as
    0, from left to right. *)
Lemma avg_fold (rows : list RiskPredictionHistoryRow) (acc : Js.jsnum) :
  fold_left (fun sum r => Js.add sum (Js.Fin (prob_high_or_0 r))) rows acc
  = double_sum (map prob_high_or_0 rows) acc.
Proof.
  revert acc. induction rows as [|r rows IH]; intros acc; [reflexivity|].
  unfold double_sum in *. cbn [fold_left map]. apply IH.
Qed.

Lemma avgProbHigh_of_rows (r : RiskPredictionHistoryRow)
  (rows : list RiskPredictionHistoryRow) :
  avgProbHigh_of (r :: rows)
  = Some (Js.div (double_sum (map prob_high_or_0 (r :: rows)) (Js.Fin 0))
            (Js.of_length (List.length (map prob_high_or_0 (r :: rows))))).
Proof.
  unfold avgProbHigh_of. rewrite avg_fold, length_map. reflexivity.
Qed.

End RoundingFacts.

(** The rounding of this development and the binary64 arithmetic of the
    machine agree on the samples. *)
Example round64_agrees_with_hardware :
  forallb Hardware.agrees_with_hardware Hardware.hardware_samples = true.
Proof. vm_compute. reflexivity. Qed.



(* ================================================================== *)
(** * Ranking of feature contributions *)
(* ================================================================== *)

Section RankingFacts.

Variable Number : json -> Js.jsnum.

Lemma before_magnitude (a b : ShapPage.Entry) :
  entry_finite a = true -> entry_finite b = true ->
  Js.before ShapPage.by_magnitude_desc a b
  = Qle_bool (entry_magnitude b) (entry_magnitude a).
Proof.
  unfold entry_finite, entry_magnitude, Js.before, ShapPage.by_magnitude_desc.
  destruct (ShapPage.value a), (ShapPage.value b); simpl; try discriminate.
  intros _ _. now rewrite negb_involutive, Qle_bool_sub.
Qed.

Lemma insert_map {A B : Type} (f : A -> B) cmpA cmpB :
  (forall a b, cmpB (f a) (f b) = cmpA a b) ->
  forall a l, map f (Js.insert cmpA a l) = Js.insert cmpB (f a) (map f l).
Proof.
  intros H a l. induction l as [|b l IH]; simpl; [reflexivity|].
  unfold Js.before. rewrite H.
  destruct (Js.gt0 (cmpA a b)); simpl; [now rewrite IH | reflexivity].
Qed.

Lemma sort_map {A B : Type} (f : A -> B) cmpA cmpB :
  (forall a b, cmpB (f a) (f b) = cmpA a b) ->
  forall l, map f (Js.sort cmpA l) = Js.sort cmpB (map f l).
Proof.
  intros H l. induction l as [|a l IH]; simpl; [reflexivity|].
  fold (Js.sort cmpA l). fold (Js.sort cmpB (map f l)).
  now rewrite (insert_map f cmpA cmpB H), IH.
Qed.

Lemma filter_map_comm {A B : Type} (f : A -> B) (p : B -> bool) (l : list A) :
  filter p (map f l) = map f (filter (fun x => p (f x)) l).
Proof.
  induction l as [|a l IH]; simpl; [reflexivity|].
  destruct (p (f a)); simpl; now rewrite IH.
Qed.

Lemma to_shap_value_entry (props : list (string * json)) :
  map (to_shap_value Number) props = map as_value (map (ShapPage.to_entry Number) props).
Proof. rewrite map_map. reflexivity. Qed.

(** Both call sites rank alike: the summary is the signed first three of
    the page's ranking. *)
Lemma rank_top3_of_entries (props : list (string * json)) :
  rank_top3 Number (JObj props) =
  Exn.Normal
    (map signed
       (firstn 3
          (Js.sort ShapPage.by_magnitude_desc
             (filter entry_finite (map (ShapPage.to_entry Number) props))))).
Proof.
  unfold rank_top3. cbn [Object_entries Exn.bind]. f_equal. unfold Js.slice0.
  rewrite to_shap_value_entry, filter_map_comm.
  rewrite <- (sort_map as_value ShapPage.by_magnitude_desc by_magnitude_desc)
    by reflexivity.
  rewrite firstn_map, map_map. reflexivity.
Qed.

Lemma filter_all {A : Type} (p : A -> bool) (l : list A) :
  Forall (fun x => p x = true) (filter p l).
Proof.
  apply Forall_forall. intros x Hx. now apply filter_In in Hx.
Qed.

(** The summary ranks whatever mapping it is given as the page does. *)
Lemma rank_top3_ranking (shapDict : json) (entries : list (string * json)) :
  Object_entries shapDict = Exn.Normal entries ->
  rank_top3 Number shapDict
  = Exn.Normal (map signed (firstn 3 (page_ranking Number entries))).
Proof.
  intros H. unfold rank_top3, page_ranking. rewrite H. cbn [Exn.bind]. f_equal.
  unfold Js.slice0.
  rewrite to_shap_value_entry, filter_map_comm.
  rewrite <- (sort_map as_value ShapPage.by_magnitude_desc by_magnitude_desc)
    by reflexivity.
  rewrite firstn_map, map_map. reflexivity.
Qed.

Lemma summarize_ranking (JSON_parse : string -> Exn.completion json)
  (names : JsMap.t string) (p : RiskPredictionHistoryRow)
  (answer : Answer (list ShapExplanationsRow)) (sm : ShapSummary) :
  summarize JSON_parse Number names p answer = Exn.Normal sm ->
  summarises JSON_parse Number names answer p sm.
Proof.
  unfold summarize, summarises. fold (payload_of answer).
  destruct (error answer); [discriminate|].
  destruct (parseShapValues JSON_parse (payload_of answer)) as [shapDict|e];
    [|discriminate].
  cbn [Exn.bind].
  destruct (Object_entries shapDict) as [entries|e] eqn:He.
  - rewrite (rank_top3_ranking shapDict entries He). cbn [Exn.bind].
    intros H. injection H as <-. exists shapDict, entries. now rewrite He.
  - unfold rank_top3. rewrite He. discriminate.
Qed.

Lemma summarize_all_ranking (JSON_parse : string -> Exn.completion json)
  (names : JsMap.t string)
  (shapQuery : RiskPredictionHistoryRow -> Answer (list ShapExplanationsRow))
  (latest3 : list RiskPredictionHistoryRow) :
  forall summaries,
    summarize_all JSON_parse Number names shapQuery latest3 = Exn.Normal summaries ->
    Forall2 (fun p sm => summarises JSON_parse Number names (shapQuery p) p sm)
      latest3 summaries.
Proof.
  induction latest3 as [|p rest IH]; intros summaries H.
  - injection H as <-. constructor.
  - cbn [summarize_all] in H.
    destruct (summarize JSON_parse Number names p (shapQuery p)) as [sm|e] eqn:Hs;
      [|discriminate].
    cbn [Exn.bind] in H.
    destruct (summarize_all JSON_parse Number names shapQuery rest) as [sms|e];
      [|discriminate].
    cbn [Exn.bind] in H. injection H as <-.
    constructor; [now apply summarize_ranking | now apply IH].
Qed.

End RankingFacts.


(* ================================================================== *)
(** * Decoding of explanation payloads *)
(* ================================================================== *)

Section DecodingFacts.

Variable JSON_parse : string -> Exn.completion json.
Variable Number : json -> Js.jsnum.

Lemma parseShapValues_total (raw : json) :
  exists v, parseShapValues JSON_parse raw = Exn.Normal v.
Proof.
  unfold parseShapValues. destruct (negb (truthy raw)); [eauto|].
  destruct raw; eauto.
  unfold Exn.try_catch. destruct (JSON_parse s); eauto.
Qed.

Lemma parseShapValues_undecodable (s : string) (e : Exn.error) :
  JSON_parse s = Exn.Thrown e ->
  parseShapValues JSON_parse (JStr s) = Exn.Normal empty_object.
Proof.
  intros H. unfold parseShapValues.
  destruct (negb (truthy (JStr s))); [reflexivity|].
  now rewrite H.
Qed.

Lemma summarize_empty_object names p rows raw :
  parseShapValues JSON_parse raw = Exn.Normal empty_object ->
  summarize JSON_parse Number names p (answered (shap_row raw :: rows))
  = Exn.Normal (bare_summary names p).
Proof.
  intros H. unfold summarize. cbn [answered error data nullish shap_row shap_values].
  rewrite H. reflexivity.
Qed.

(** A payload that decodes, but to [null], is handed on as it is; the
    ranking then fails on it. *)
Remark summarize_null_text names p rows :
  JSON_parse "null" = Exn.Normal JNull ->
  exists e,
    summarize JSON_parse Number names p (answered (shap_row (JStr "null") :: rows))
    = Exn.Thrown e.
Proof.
  intros H. unfold summarize.
  cbn [answered error data nullish shap_row shap_values].
  unfold parseShapValues. cbn [truthy String.eqb negb Ascii.eqb Bool.eqb].
  rewrite H. cbn. eauto.
Qed.

End DecodingFacts.

(** C9.  Decoding an explanation payload always completes normally.  A null
    or missing payload, and a string that the JSON parser rejects, decode to
    the empty mapping; a mapping that arrives decoded is returned as it is.
    Hence the summary of a prediction whose payload is null or undecodable
    completes normally, with no features, and the loop goes on to the next
    prediction. *)
Theorem shap_decoding_never_throws :
  forall (JSON_parse : string -> Exn.completion json) (raw : json),
    (exists v, parseShapValues JSON_parse raw = Exn.Normal v)
    /\ parseShapValues JSON_parse JNull = Exn.Normal empty_object
    /\ (forall s e, JSON_parse s = Exn.Thrown e ->
          parseShapValues JSON_parse (JStr s) = Exn.Normal empty_object)
    /\ (forall props,
          parseShapValues JSON_parse (JObj props) = Exn.Normal (JObj props))
    /\ (forall Number names p rows,
          summarize JSON_parse Number names p (answered (shap_row JNull :: rows))
          = Exn.Normal (bare_summary names p))
    /\ (forall Number names p,
          summarize JSON_parse Number names p (answered [])
          = Exn.Normal (bare_summary names p))
    /\ (forall Number names p rows s e, JSON_parse s = Exn.Thrown e ->
          summarize JSON_parse Number names p (answered (shap_row (JStr s) :: rows))
          = Exn.Normal (bare_summary names p)).
Proof.
  intros JSON_parse raw.
  split; [apply parseShapValues_total|].
  split; [reflexivity|].
  split; [apply parseShapValues_undecodable|].
  split; [reflexivity|].
  split; [reflexivity|].
  split; [reflexivity|].
  intros Number names p rows s e H.
  apply summarize_empty_object. eapply parseShapValues_undecodable, H.
Qed.

(* ================================================================== *)
(** * The count of unscored snapshot rows *)
(* ================================================================== *)

Lemma selected_unpredicted (r : SupplierRiskMasterRow) :
  selected unpredicted_filter r = unscored r.
Proof.
  unfold selected, unscored, unpredicted_filter. simpl.
  destruct (is_predicted r) as [[|]|]; reflexivity.
Qed.

Lemma filter_ext_length {A : Type} (f g : A -> bool) (l : list A) :
  (forall x, f x = g x) -> List.length (filter f l) = List.length (filter g l).
Proof.
  intros H. induction l as [|a l IH]; simpl; [reflexivity|].
  rewrite H. destruct (g a); simpl; now rewrite IH.
Qed.

Lemma unscored_split (table : list SupplierRiskMasterRow) :
  List.length (filter unscored table) =
  List.length (filter (flag_is (Some false)) table)
  + List.length (filter (flag_is None) table).
Proof.
  induction table as [|r table IH]; simpl; [reflexivity|].
  destruct (unscored r) eqn:U, (flag_is (Some false) r) eqn:F1,
    (flag_is None r) eqn:F2; simpl; try lia;
    exfalso; unfold unscored, flag_is in U, F1, F2;
    destruct (is_predicted r) as [[|]|]; discriminate.
Qed.

(** C10.  The unscored-row count is the number of snapshot rows whose flag
    is false plus the number whose flag is null: a row whose flag was never
    set is selected by the query and counted, although the test "flag
    equals false" alone is not true of it. *)
Theorem unpredicted_count_includes_null_flags :
  forall (table : list SupplierRiskMasterRow),
    getUnpredictedCount (count_query unpredicted_filter table)
    = Exn.Normal
        (List.length (filter (flag_is (Some false)) table)
         + List.length (filter (flag_is None) table))
    /\ (forall r, selected unpredicted_filter r = unscored r)
    /\ (forall r, is_predicted r = None ->
          selected unpredicted_filter r = true
          /\ selected (is_predicted_eq false) r = false).
Proof.
  intros table. split; [|split].
  - unfold getUnpredictedCount, count_query. cbn [error count nullish]. f_equal.
    rewrite <- unscored_split. apply filter_ext_length, selected_unpredicted.
  - apply selected_unpredicted.
  - intros r H. unfold selected, unpredicted_filter. simpl. now rewrite H.
Qed.

(* ================================================================== *)
(** * The trigger client *)
(* ================================================================== *)

Section TriggerFacts.

Variable JSON_parse : string -> Exn.completion json.

Lemma trigger_on_error_text (response : Airflow.Response) (s : string) :
  Airflow.ok response = false ->
  Airflow.error_text JSON_parse response = Some s ->
  Airflow.triggerPredictionDag JSON_parse (Exn.Normal response) =
  if spelled_no_new_rows s
  then {| Airflow.success := true; Airflow.message := noop_message;
          Airflow.details := Airflow.read_data JSON_parse response |}
  else {| Airflow.success := false; Airflow.message := JStr s;
          Airflow.details := Airflow.read_data JSON_parse response |}.
Proof.
  intros Hok Htext. unfold Airflow.error_text in Htext.
  unfold Airflow.triggerPredictionDag, Airflow.trigger_body.
  cbn [Exn.bind]. rewrite Hok. cbn [negb].
  destruct (Airflow.errorMsg_of JSON_parse response) as [| | |s'| |] eqn:E;
    try discriminate.
  injection Htext as ->. unfold spelled_no_new_rows.
  cbn [Airflow.includes Exn.bind].
  destruct (Js.includes s "No new rows to predict"); cbn [orb Exn.bind];
    [reflexivity|].
  destruct (Js.includes s "no new rows"); reflexivity.
Qed.

End TriggerFacts.

(** C4, as the design states it, fails: an HTTP 400 reply whose error text
    is "NO NEW ROWS" contains "no new rows" when case is ignored, and the
    client reports it as a failure. *)
Lemma noop_ignoring_case_fails : ~ noop_ignoring_case.
Proof.
  intros H.
  specialize (H (parse_detail "NO NEW ROWS") (bad_request "NO NEW ROWS")
                "NO NEW ROWS" eq_refl eq_refl eq_refl).
  vm_compute in H. discriminate.
Qed.

(** C4, amended.  For every non-2xx trigger reply with an error text: when
    the text contains "No new rows to predict" or "no new rows", spelled
    exactly so, the client returns a successful outcome with the
    informational message; otherwise it returns a failure carrying the
    text.  An HTTP 400 reply with error text "No new rows to predict" is a
    success. *)
Theorem benign_noop_exact_spelling :
  forall (JSON_parse : string -> Exn.completion json)
         (response : Airflow.Response) (s : string),
    Airflow.ok response = false ->
    Airflow.error_text JSON_parse response = Some s ->
    let result := Airflow.triggerPredictionDag JSON_parse (Exn.Normal response) in
    (spelled_no_new_rows s = true ->
       Airflow.success result = true /\ Airflow.message result = noop_message)
    /\ (spelled_no_new_rows s = false ->
          Airflow.success result = false /\ Airflow.message result = JStr s)
    /\ Airflow.success
         (Airflow.triggerPredictionDag (parse_detail "No new rows to predict")
            (Exn.Normal (bad_request "No new rows to predict"))) = true.
Proof.
  intros JSON_parse response s Hok Htext result. subst result.
  rewrite (trigger_on_error_text _ _ _ Hok Htext).
  split; [|split].
  - intros ->. now split.
  - intros ->. now split.
  - reflexivity.
Qed.

(* ================================================================== *)
(** * The status poller *)
(* ================================================================== *)

Section PollerFacts.

Import UploadPage.

Variables runId triggerTime : string.
Variable replies : nat -> StatusReply.

Lemma run_stopped (fuel : nat) (p : Poller) :
  scheduled p = None -> run runId triggerTime replies fuel p = p.
Proof. intros H. destruct fuel; simpl; [reflexivity | now rewrite H]. Qed.

Lemma poll_nonterminal (r : StatusReply) (p : Poller) :
  nonterminal r ->
  exists s,
    poll runId triggerTime r p =
    if attempts p + 1 <? maxAttempts
    then again (attempts p + 1) (effects p ++ [FetchStatus runId]) [SetDagStatus s]
    else stop (attempts p + 1) (effects p ++ [FetchStatus runId])
           [SetDagStatus s; SetTriggering false;
            SetTriggerResult false timeout_message].
Proof.
  intros [s [-> [-> | ->]]]; eexists; reflexivity.
Qed.

Lemma fetches_app (n : nat) (sched : option nat) (es es' : list Effect) :
  fetches {| attempts := n; scheduled := sched; effects := es ++ es' |} =
  List.length (filter is_fetch es) + List.length (filter is_fetch es').
Proof. unfold fetches. simpl. now rewrite filter_app, length_app. Qed.

(** One poll of a run that is still queued or running: one more request,
    no handler, and a new timer unless this was the sixtieth attempt. *)
Lemma poll_nonterminal_step (r : StatusReply) (p : Poller) :
  nonterminal r ->
  let q := poll runId triggerTime r p in
  attempts q = attempts p + 1
  /\ fetches q = fetches p + 1
  /\ (quiet p -> quiet q)
  /\ (attempts p + 1 < maxAttempts -> scheduled q = Some 5000)
  /\ (attempts p + 1 = maxAttempts ->
        scheduled q = None /\ terminal q = Some TimedOut).
Proof.
  intros Hr q. destruct (poll_nonterminal r p Hr) as [s Hs].
  subst q. rewrite Hs. clear Hs.
  destruct (Nat.ltb_spec (attempts p + 1) maxAttempts) as [Hlt | Hge].
  - split; [reflexivity|]. split.
    { unfold again. rewrite fetches_app, filter_app, length_app. simpl.
      unfold fetches. lia. }
    split.
    { intros [H1 H2]. unfold quiet, again. simpl.
      rewrite !existsb_app, H1, H2. simpl. now split. }
    split; [reflexivity | lia].
  - split; [reflexivity|]. split.
    { unfold stop. rewrite fetches_app, filter_app, length_app. simpl.
      unfold fetches. lia. }
    split.
    { intros [H1 H2]. unfold quiet, stop. simpl.
      rewrite !existsb_app, H1, H2. simpl. now split. }
    split; [lia|]. intros _. split; [reflexivity|].
    unfold terminal, stop. simpl. rewrite !rev_app_distr. reflexivity.
Qed.

Hypothesis still_running : forall i, nonterminal (replies i).

Lemma run_to_timeout (n : nat) : forall (p : Poller) (fuel : nat),
  attempts p + S n = maxAttempts ->
  scheduled p <> None ->
  S n <= fuel ->
  let q := run runId triggerTime replies fuel p in
  attempts q = maxAttempts
  /\ scheduled q = None
  /\ terminal q = Some TimedOut
  /\ fetches q = fetches p + S n
  /\ (quiet p -> quiet q).
Proof.
  induction n as [|n IH]; intros p fuel Hatt Hsched Hfuel q; subst q;
    (destruct fuel as [|fuel]; [lia|]); cbn [run];
    (destruct (scheduled p) eqn:Esched; [|congruence]);
    destruct (poll_nonterminal_step (replies (attempts p)) p (still_running _))
      as (Ha & Hf & Hq & Hlt & Heq).
  - destruct (Heq ltac:(lia)) as [Hnone Hterm].
    rewrite run_stopped by exact Hnone.
    split; [lia|]. split; [exact Hnone|]. split; [exact Hterm|].
    split; [exact Hf | exact Hq].
  - specialize (Hlt ltac:(lia)).
    destruct (IH (poll runId triggerTime (replies (attempts p)) p) fuel)
      as (Ha' & Hs' & Ht' & Hf' & Hq'); [lia | congruence | lia |].
    split; [exact Ha'|]. split; [exact Hs'|]. split; [exact Ht'|].
    split; [lia | tauto].
Qed.

End PollerFacts.

(** C5.  When every status reply reports the run as queued or running, the
    poll loop makes exactly 60 status requests and stops in the timed-out
    state: no timer is left pending, and nothing the success branch or the
    failure branch does has happened. *)
Theorem poller_times_out_after_sixty_checks :
  forall (runId triggerTime : string) (replies : nat -> UploadPage.StatusReply)
         (fuel : nat),
    (forall i, nonterminal (replies i)) ->
    UploadPage.maxAttempts <= fuel ->
    let final :=
      UploadPage.run runId triggerTime replies fuel UploadPage.pollDagStatus in
    fetches final = 60
    /\ UploadPage.attempts final = 60
    /\ UploadPage.scheduled final = None
    /\ UploadPage.terminal final = Some UploadPage.TimedOut
    /\ existsb UploadPage.is_success_effect (UploadPage.effects final) = false
    /\ existsb UploadPage.is_failure_effect (UploadPage.effects final) = false.
Proof.
  intros runId triggerTime replies fuel Hrun Hfuel final.
  destruct (run_to_timeout runId triggerTime replies Hrun 59
              UploadPage.pollDagStatus fuel)
    as (Ha & Hs & Ht & Hf & Hq);
    [reflexivity | discriminate | exact Hfuel |].
  fold final in Ha, Hs, Ht, Hf, Hq.
  destruct Hq as [Hq1 Hq2]; [split; reflexivity|].
  split; [exact Hf|]. split; [exact Ha|]. split; [exact Hs|].
  split; [exact Ht|]. split; [exact Hq1 | exact Hq2].
Qed.

(* ================================================================== *)
(** * The properties at concrete inputs *)
(* ================================================================== *)

Lemma majority_follows_priority_order_witness :
  In "E1" (map supplier_id sample_history)
  /\ tally_of sample_history "E1"
     = {| high := 2; medium := 2; low := 0; unknown := 0 |}
  /\ riskCounts (getExecutiveOverview [] [] sample_history 2 5)
     = {| High := 1; Medium := 0; Low := 1; Unknown := 0 |}
  /\ (JsMap.get (supplierRiskCounts sample_history) "E1"
        = Some (tally_of sample_history "E1")
      /\ first_at_max (tally_of sample_history "E1")
         = Some (majority (tally_of sample_history "E1"))
      /\ (forall rc c,
            risk_count (assign_step rc ("E1", tally_of sample_history "E1")) c
            = risk_count rc c
              + (if classified_as c (tally_of sample_history "E1") then 1 else 0))
      /\ (forall (profiles : list SupplierProfile)
                 (latest : list RiskPredictionHistoryRow)
                 (nSuppliers nPredictions : nat) c,
            risk_count
              (riskCounts
                 (getExecutiveOverview profiles latest sample_history
                    nSuppliers nPredictions)) c
            = List.length
                (filter (fun s' => classified_as c (tally_of sample_history s'))
                   (distinct_suppliers sample_history)))
      /\ majority {| high := 2; medium := 2; low := 0; unknown := 0 |} = CatHigh
      /\ majority {| high := 0; medium := 3; low := 3; unknown := 0 |} = CatMedium
      /\ riskCounts_of [("A", {| high := 2; medium := 2; low := 0; unknown := 0 |})]
         = {| High := 1; Medium := 0; Low := 0; Unknown := 0 |}
      /\ riskCounts_of [("B", {| high := 0; medium := 3; low := 3; unknown := 0 |})]
         = {| High := 0; Medium := 1; Low := 0; Unknown := 0 |}).
Proof.
  split; [simpl; left; reflexivity|].
  split; [reflexivity|]. split; [reflexivity|].
  apply (majority_follows_priority_order sample_history "E1").
  simpl. left. reflexivity.
Defined.

(** The sample history tallies E1 as 2/2/0/0, which is a High majority. *)
Example sample_history_tally :
  tally_of sample_history "E1" = {| high := 2; medium := 2; low := 0; unknown := 0 |}
  /\ riskCounts (getExecutiveOverview [] [] sample_history 2 5)
     = {| High := 1; Medium := 0; Low := 1; Unknown := 0 |}.
Proof. split; reflexivity. Qed.

Lemma code_unit_collation : collation code_unit_lt.
Proof.
  split.
  - intros a H. exact (String_as_OT.lt_not_eq _ _ H eq_refl).
  - exact String_as_OT.lt_trans.
Defined.

Lemma sample_answer_sorted : Sorted (store_order code_unit_lt) sample_answer.
Proof.
  unfold sample_answer.
  apply Sorted_cons; [apply Sorted_cons; [apply Sorted_cons|] |].
  - apply Sorted_nil.
  - apply HdRel_nil.
  - apply HdRel_cons. left. simpl.
    apply String_as_OT.lts_tail, String_as_OT.lts_head. vm_compute. apply le_n.
  - apply HdRel_cons. right. split; [reflexivity | simpl; lia].
Defined.

Lemma latest_record_per_supplier_witness :
  collation code_unit_lt
  /\ Permutation sample_table sample_answer
  /\ Sorted (store_order code_unit_lt) sample_answer
  /\ exists out,
      getLatestPredictionsPerSupplier (answered sample_answer) = Exn.Normal out
      /\ NoDup (map supplier_id out)
      /\ (forall s, In s (map supplier_id out) <-> In s (map supplier_id sample_table))
      /\ (forall r, In r out ->
            In r sample_table
            /\ (forall r', In r' sample_table -> supplier_id r' = supplier_id r ->
                  (prediction_date r' <= prediction_date r)%Z)
            /\ first_of (supplier_id r) sample_answer = Some r)
      /\ getLatestPredictionsPerSupplier (answered []) = Exn.Normal []
      /\ getLatestPredictionsPerSupplier
           {| data := None; error := None; count := None |} = Exn.Normal [].
Proof.
  split; [exact code_unit_collation|].
  split; [apply perm_swap|].
  split; [exact sample_answer_sorted|].
  apply (latest_record_per_supplier code_unit_lt sample_table sample_answer).
  - exact code_unit_collation.
  - apply perm_swap.
  - exact sample_answer_sorted.
Defined.

(** Of E1 on 2024-01-01 and 2024-02-01 and E2 on 2024-01-15, the resolver
    keeps two rows, E1's being the one of 2024-02-01. *)
Example resolver_sample :
  getLatestPredictionsPerSupplier (answered sample_answer)
  = Exn.Normal [labelled_row "E1" 20240201 "High"; labelled_row "E2" 20240115 "Medium"].
Proof. reflexivity. Qed.

(** The executable ordering puts the sample table in the order of the
    sample answer. *)
Example order_by_sample : order_by sample_table = sample_answer.
Proof. reflexivity. Qed.

Lemma benign_noop_exact_spelling_witness :
  Airflow.ok (bad_request "Skipped: no new rows found") = false
  /\ Airflow.error_text (parse_detail "Skipped: no new rows found")
       (bad_request "Skipped: no new rows found")
     = Some "Skipped: no new rows found"
  /\ (let result :=
        Airflow.triggerPredictionDag (parse_detail "Skipped: no new rows found")
          (Exn.Normal (bad_request "Skipped: no new rows found")) in
      (spelled_no_new_rows "Skipped: no new rows found" = true ->
         Airflow.success result = true /\ Airflow.message result = noop_message)
      /\ (spelled_no_new_rows "Skipped: no new rows found" = false ->
            Airflow.success result = false
            /\ Airflow.message result = JStr "Skipped: no new rows found")
      /\ Airflow.success
           (Airflow.triggerPredictionDag (parse_detail "No new rows to predict")
              (Exn.Normal (bad_request "No new rows to predict"))) = true).
Proof.
  split; [reflexivity|]. split; [reflexivity|].
  apply (benign_noop_exact_spelling (parse_detail "Skipped: no new rows found")
           (bad_request "Skipped: no new rows found")
           "Skipped: no new rows found");
    reflexivity.
Defined.

(** A reply that spells the phrase with a capital N only is a failure. *)
Example capitalised_no_new_rows_fails :
  Airflow.triggerPredictionDag (parse_detail "No new rows")
    (Exn.Normal (bad_request "No new rows"))
  = {| Airflow.success := false; Airflow.message := JStr "No new rows";
       Airflow.details := JObj [("detail", JStr "No new rows")] |}.
Proof. reflexivity. Qed.

Lemma always_running_nonterminal : forall i, nonterminal (always_running i).
Proof.
  intros i. exists "running". split; [reflexivity | left; reflexivity].
Defined.

Lemma poller_times_out_after_sixty_checks_witness :
  (forall i, nonterminal (always_running i))
  /\ UploadPage.maxAttempts <= 75
  /\ (let final :=
        UploadPage.run "run-1" "2024-01-01T00:00:00.000Z" always_running 75
          UploadPage.pollDagStatus in
      fetches final = 60
      /\ UploadPage.attempts final = 60
      /\ UploadPage.scheduled final = None
      /\ UploadPage.terminal final = Some UploadPage.TimedOut
      /\ existsb UploadPage.is_success_effect (UploadPage.effects final) = false
      /\ existsb UploadPage.is_failure_effect (UploadPage.effects final) = false).
Proof.
  split; [exact always_running_nonterminal|].
  split; [unfold UploadPage.maxAttempts; lia|].
  apply (poller_times_out_after_sixty_checks "run-1" "2024-01-01T00:00:00.000Z"
           always_running 75).
  - exact always_running_nonterminal.
  - unfold UploadPage.maxAttempts. lia.
Defined.

(** On the replies queued, queued, running, success the loop makes four
    status requests, ends in the success state and runs the success branch
    once. *)
Example poller_scripted_success :
  let final :=
    UploadPage.run "run-1" "t0" scripted_run 75 UploadPage.pollDagStatus in
  fetches final = 4
  /\ UploadPage.terminal final = Some UploadPage.Success
  /\ List.length
       (filter (fun e => match e with
                         | UploadPage.SetShowPredictions true => true
                         | _ => false
                         end) (UploadPage.effects final)) = 1.
Proof. repeat split. Qed.

Lemma shap_decoding_never_throws_witness :
  parse_detail "x" "{not json" = Exn.Thrown
    {| Exn.name := "SyntaxError"; Exn.message := "Unexpected token" |}
  /\ parseShapValues (parse_detail "x") (JStr "{not json") = Exn.Normal empty_object.
Proof.
  split; [reflexivity|].
  destruct (shap_decoding_never_throws (parse_detail "x") (JStr "{not json"))
    as (_ & _ & H & _).
  apply (H "{not json"
           {| Exn.name := "SyntaxError"; Exn.message := "Unexpected token" |}).
  reflexivity.
Defined.

Lemma unpredicted_count_includes_null_flags_witness :
  is_predicted (snapshot_row None) = None
  /\ selected unpredicted_filter (snapshot_row None) = true
  /\ selected (is_predicted_eq false) (snapshot_row None) = false.
Proof.
  split; [reflexivity|].
  destruct (unpredicted_count_includes_null_flags [snapshot_row None]) as (_ & _ & H).
  apply (H (snapshot_row None)). reflexivity.
Defined.

(** Three snapshot rows, one scored, one not, one never flagged: two are
    pending. *)
Example unpredicted_count_sample :
  getUnpredictedCount
    (count_query unpredicted_filter
       [snapshot_row (Some true); snapshot_row (Some false); snapshot_row None])
  = Exn.Normal 2.
Proof. reflexivity. Qed.

(** The ranking example of the design: with a coercion that keeps numbers
    and turns the text "x" into NaN, the contributions a 0.5, b -0.8,
    c 0.1, d "x" rank as b (reduces), a (increases), c (increases). *)
Example ranking_sample (Number : json -> Js.jsnum) :
  (forall n, Number (JNum n) = n) ->
  Number (JStr "x") = Js.NaN ->
  rank_top3 Number (JObj sample_contributions)
  = Exn.Normal
      [ {| feature := "b"; shap := Js.Fin (- (8 # 10)); direction := reduces |};
        {| feature := "a"; shap := Js.Fin (5 # 10); direction := increases |};
        {| feature := "c"; shap := Js.Fin (1 # 10); direction := increases |} ].
Proof.
  intros Hnum Hx. unfold rank_top3, sample_contributions.
  unfold Object_entries, Exn.bind, to_shap_value. cbn [map fst snd].
  rewrite !Hnum, Hx. reflexivity.
Qed.

(* ================================================================== *)
(** * The status poller on every reply sequence *)
(* ================================================================== *)

Section PollerInvariants.

Import UploadPage.

Variables runId triggerTime : string.
Variable replies : nat -> StatusReply.

Lemma timers_app (n : nat) (sched : option nat) (es es' : list Effect) :
  timers {| attempts := n; scheduled := sched; effects := es ++ es' |} =
  List.length (filter is_timer es) + List.length (filter is_timer es').
Proof. unfold timers. simpl. now rewrite filter_app, length_app. Qed.

(** Every poll either stops, or sets one timer while attempts remain; in
    between it makes one request and sets no other timer. *)
Lemma poll_cases (r : StatusReply) (p : Poller) :
  exists es,
    existsb is_fetch es = false /\ existsb is_timer es = false
    /\ (poll runId triggerTime r p
          = stop (attempts p + 1) (effects p ++ [FetchStatus runId]) es
        \/ (attempts p + 1 < maxAttempts
            /\ forallb is_progress_effect es = true
            /\ poll runId triggerTime r p
               = again (attempts p + 1) (effects p ++ [FetchStatus runId]) es)).
Proof.
  assert (forall es,
    existsb is_fetch es = false -> existsb is_timer es = false ->
    forallb is_progress_effect es = true ->
    forall es',
    existsb is_fetch es' = false -> existsb is_timer es' = false ->
    exists es0,
      existsb is_fetch es0 = false /\ existsb is_timer es0 = false
      /\ ((if attempts p + 1 <? maxAttempts
           then again (attempts p + 1) (effects p ++ [FetchStatus runId]) es
           else stop (attempts p + 1) (effects p ++ [FetchStatus runId]) es')
          = stop (attempts p + 1) (effects p ++ [FetchStatus runId]) es0
          \/ (attempts p + 1 < maxAttempts
              /\ forallb is_progress_effect es0 = true
              /\ (if attempts p + 1 <? maxAttempts
                  then again (attempts p + 1) (effects p ++ [FetchStatus runId]) es
                  else stop (attempts p + 1) (effects p ++ [FetchStatus runId]) es')
                 = again (attempts p + 1) (effects p ++ [FetchStatus runId]) es0)))
    as Hretry.
  { intros es H1 H2 H3 es' H4 H5.
    destruct (Nat.ltb_spec (attempts p + 1) maxAttempts) as [Hlt | Hge].
    - exists es. split; [exact H1|]. split; [exact H2|]. right. now repeat split.
    - exists es'. split; [exact H4|]. split; [exact H5|]. now left. }
  assert (forall es,
    existsb is_fetch es = false -> existsb is_timer es = false ->
    exists es0,
      existsb is_fetch es0 = false /\ existsb is_timer es0 = false
      /\ (stop (attempts p + 1) (effects p ++ [FetchStatus runId]) es
          = stop (attempts p + 1) (effects p ++ [FetchStatus runId]) es0
          \/ (attempts p + 1 < maxAttempts
              /\ forallb is_progress_effect es0 = true
              /\ stop (attempts p + 1) (effects p ++ [FetchStatus runId]) es
                 = again (attempts p + 1) (effects p ++ [FetchStatus runId]) es0)))
    as Hstop.
  { intros es H1 H2. exists es. split; [exact H1|]. split; [exact H2|]. now left. }
  unfold poll. destruct r as [e | ok [d|]].
  - apply Hretry; reflexivity.
  - destruct ok; [|apply Hretry; reflexivity].
    destruct (String.eqb (state d) "success"); [apply Hstop; reflexivity|].
    destruct (String.eqb (state d) "failed"); [apply Hstop; reflexivity|].
    destruct (String.eqb (state d) "running" || String.eqb (state d) "queued").
    + apply Hretry; reflexivity.
    + apply Hstop; reflexivity.
  - destruct ok; apply Hretry; reflexivity.
Qed.

Lemma filter_none {A : Type} (f : A -> bool) (l : list A) :
  existsb f l = false -> filter f l = [].
Proof.
  induction l as [|a l IH]; simpl; [reflexivity|].
  destruct (f a); simpl; [discriminate | exact IH].
Qed.

Lemma poll_keeps_inv (r : StatusReply) (p : Poller) :
  poller_inv p -> scheduled p <> None -> poller_inv (poll runId triggerTime r p).
Proof.
  intros (Hle & Hf & Ht & Hs) Hsched. destruct (Hs Hsched) as [Hlt Hprog].
  unfold pending in Ht. destruct (scheduled p) eqn:Esched; [|congruence].
  destruct (poll_cases r p) as (es & Hnf & Hnt & [Hstop | (Hlt' & Hpr & Hagain)]).
  - rewrite Hstop. unfold poller_inv, stop, pending. cbn [attempts scheduled].
    split; [lia|]. split.
    { rewrite fetches_app, filter_app, length_app, (filter_none _ _ Hnf).
      unfold fetches in Hf. simpl. lia. }
    split.
    { rewrite timers_app, fetches_app, !filter_app, !length_app,
        (filter_none _ _ Hnf), (filter_none _ _ Hnt).
      unfold timers, fetches in *. simpl. lia. }
    intros H. congruence.
  - rewrite Hagain. unfold poller_inv, again, pending. cbn [attempts scheduled].
    split; [lia|]. split.
    { rewrite fetches_app, !filter_app, !length_app, (filter_none _ _ Hnf).
      unfold fetches in Hf. simpl. lia. }
    split.
    { rewrite timers_app, fetches_app, !filter_app, !length_app,
        (filter_none _ _ Hnf), (filter_none _ _ Hnt).
      unfold timers, fetches in *. simpl. lia. }
    intros _. split; [exact Hlt'|]. cbn [effects].
    rewrite !forallb_app, Hprog, Hpr. reflexivity.
Qed.

Lemma start_inv : poller_inv pollDagStatus.
Proof.
  unfold poller_inv, pollDagStatus, fetches, timers, pending, maxAttempts. simpl.
  split; [lia|]. split; [reflexivity|]. split; [reflexivity|].
  intros _. split; [lia | reflexivity].
Qed.

Lemma run_keeps_inv (fuel : nat) : forall p,
  poller_inv p -> poller_inv (run runId triggerTime replies fuel p).
Proof.
  induction fuel as [|fuel IH]; intros p Hinv; simpl; [exact Hinv|].
  destruct (scheduled p) eqn:E; [|exact Hinv].
  apply IH, poll_keeps_inv; [exact Hinv | congruence].
Qed.

Lemma poll_counts (r : StatusReply) (p : Poller) :
  attempts (poll runId triggerTime r p) = attempts p + 1.
Proof.
  destruct (poll_cases r p) as (es & _ & _ & [H | (_ & _ & H)]); now rewrite H.
Qed.

Lemma run_halts (fuel : nat) : forall p,
  poller_inv p -> maxAttempts <= attempts p + fuel ->
  scheduled (run runId triggerTime replies fuel p) = None.
Proof.
  induction fuel as [|fuel IH]; intros p Hinv Hfuel; simpl.
  - destruct (scheduled p) eqn:E; [|reflexivity].
    destruct Hinv as (_ & _ & _ & Hs). destruct Hs as [Hlt _]; [congruence | lia].
  - destruct (scheduled p) eqn:E; [|exact E].
    apply IH.
    + apply poll_keeps_inv; [exact Hinv | congruence].
    + rewrite poll_counts. lia.
Qed.

Lemma run_add (a b : nat) : forall p,
  run runId triggerTime replies (a + b) p
  = run runId triggerTime replies b (run runId triggerTime replies a p).
Proof.
  induction a as [|a IH]; intros p; simpl; [reflexivity|].
  destruct (scheduled p) eqn:E; [apply IH|].
  symmetry. now apply run_stopped.
Qed.

End PollerInvariants.

(** X1.  Whatever the status replies are and however long the timer loop
    runs: at most 60 status requests are made, one per attempt; every timer
    set so far has fired exactly one poll, except the one still pending; and
    as long as a poll is pending, the poller has done nothing but request,
    show the state and set timers (in particular it has not cleared the
    page's triggering mark). *)
Theorem poller_budget_and_timers :
  forall (runId triggerTime : string) (replies : nat -> UploadPage.StatusReply)
         (fuel : nat),
    let p := UploadPage.run runId triggerTime replies fuel UploadPage.pollDagStatus in
    fetches p <= 60
    /\ fetches p = UploadPage.attempts p
    /\ timers p = fetches p + pending p
    /\ (UploadPage.scheduled p <> None ->
          UploadPage.attempts p < 60
          /\ forallb is_progress_effect (UploadPage.effects p) = true
          /\ existsb is_set_triggering (UploadPage.effects p) = false).
Proof.
  intros runId triggerTime replies fuel p.
  destruct (run_keeps_inv runId triggerTime replies fuel _ (start_inv))
    as (Hle & Hf & Ht & Hs).
  fold p in Hle, Hf, Ht, Hs.
  split; [rewrite Hf; exact Hle|]. split; [exact Hf|]. split; [exact Ht|].
  intros Hp. destruct (Hs Hp) as [Hlt Hprog].
  split; [exact Hlt|]. split; [exact Hprog|].
  clear -Hprog. induction (UploadPage.effects p) as [|e es IH]; [reflexivity|].
  simpl in *. apply andb_true_iff in Hprog as [He Hes].
  rewrite (IH Hes). destruct e; simpl in *; congruence.
Qed.

(** X2.  The poll loop always stops: after 60 firings (or more) no timer is
    pending, whatever the replies were, and running it longer changes
    nothing. *)
Theorem poller_always_stops :
  forall (runId triggerTime : string) (replies : nat -> UploadPage.StatusReply)
         (fuel : nat),
    UploadPage.maxAttempts <= fuel ->
    let p := UploadPage.run runId triggerTime replies fuel UploadPage.pollDagStatus in
    UploadPage.scheduled p = None
    /\ p = UploadPage.run runId triggerTime replies UploadPage.maxAttempts
             UploadPage.pollDagStatus.
Proof.
  intros runId triggerTime replies fuel Hfuel p.
  assert (UploadPage.scheduled
            (UploadPage.run runId triggerTime replies UploadPage.maxAttempts
               UploadPage.pollDagStatus) = None) as H60.
  { apply run_halts; [apply start_inv | simpl; lia]. }
  assert (p = UploadPage.run runId triggerTime replies UploadPage.maxAttempts
                UploadPage.pollDagStatus) as Heq.
  { subst p. replace fuel with (UploadPage.maxAttempts + (fuel - UploadPage.maxAttempts)) by lia.
    rewrite run_add. now apply run_stopped. }
  split; [|exact Heq]. rewrite Heq. exact H60.
Qed.

Section PollerPaths.

Import UploadPage.

Variables runId triggerTime : string.
Variable replies : nat -> StatusReply.

Lemma poll_keeps_polling (r : StatusReply) (p : Poller) :
  keeps_polling r -> attempts p + 1 < maxAttempts ->
  exists es,
    forallb is_progress_effect es = true
    /\ existsb is_fetch es = false
    /\ poll runId triggerTime r p
       = again (attempts p + 1) (effects p ++ [FetchStatus runId]) es.
Proof.
  intros Hr Hlt. apply Nat.ltb_lt in Hlt. destruct Hr as [Hn | Hf].
  - destruct (poll_nonterminal runId triggerTime r p Hn) as [s Hs].
    rewrite Hlt in Hs. exists [SetDagStatus s]. now repeat split.
  - exists []. split; [reflexivity|]. split; [reflexivity|]. unfold poll.
    destruct r as [e | [|] [d|]]; simpl in Hf; try discriminate; now rewrite Hlt.
Qed.

(** After [k] replies that keep the loop going, [k] requests have been made
    and the next poll is pending. *)
Lemma run_prefix (k : nat) : forall p,
  (forall i, i < k -> keeps_polling (replies (attempts p + i))) ->
  attempts p + k < maxAttempts ->
  scheduled p <> None ->
  forallb is_progress_effect (effects p) = true ->
  let q := run runId triggerTime replies k p in
  attempts q = attempts p + k
  /\ scheduled q <> None
  /\ forallb is_progress_effect (effects q) = true
  /\ fetches q = fetches p + k.
Proof.
  induction k as [|k IH]; intros p Hrep Hlt Hsched Hprog q; subst q; simpl.
  - split; [lia|]. split; [exact Hsched|]. split; [exact Hprog | lia].
  - destruct (scheduled p) eqn:E; [|congruence].
    destruct (poll_keeps_polling (replies (attempts p)) p) as (es & Hes & Hnf & Hpoll).
    { specialize (Hrep 0 ltac:(lia)). now rewrite Nat.add_0_r in Hrep. }
    { lia. }
    destruct (IH (poll runId triggerTime (replies (attempts p)) p))
      as (Ha & Hs & Hp & Hf).
    + intros i Hi. rewrite Hpoll. cbn [again attempts].
      replace (attempts p + 1 + i) with (attempts p + S i) by lia.
      apply Hrep. lia.
    + rewrite Hpoll. cbn [again attempts]. lia.
    + rewrite Hpoll. discriminate.
    + rewrite Hpoll. cbn [again effects].
      rewrite !forallb_app, Hprog, Hes. reflexivity.
    + split; [rewrite Ha, Hpoll; cbn [again attempts]; lia|].
      split; [exact Hs|]. split; [exact Hp|].
      rewrite Hf, Hpoll. unfold again. rewrite fetches_app, !filter_app, !length_app.
      rewrite (filter_none _ _ Hnf). unfold fetches. simpl. lia.
Qed.

(** The loop up to and including the poll that sees reply [k]. *)
Lemma run_through (k fuel : nat) :
  (forall i, i < k -> keeps_polling (replies i)) ->
  k < maxAttempts -> k < fuel ->
  exists q,
    attempts q = k /\ forallb is_progress_effect (effects q) = true
    /\ fetches q = k
    /\ run runId triggerTime replies fuel pollDagStatus
       = run runId triggerTime replies (fuel - S k)
           (poll runId triggerTime (replies k) q).
Proof.
  intros Hrep Hk Hfuel.
  destruct (run_prefix k pollDagStatus) as (Ha & Hs & Hp & Hf);
    [exact Hrep | exact Hk | discriminate | reflexivity |].
  exists (run runId triggerTime replies k pollDagStatus).
  split; [exact Ha|]. split; [exact Hp|]. split; [exact Hf|].
  replace fuel with (k + S (fuel - S k)) at 1 by lia.
  rewrite run_add. cbn [run].
  destruct (scheduled (run runId triggerTime replies k pollDagStatus)) eqn:E;
    [|congruence].
  now rewrite Ha.
Qed.

End PollerPaths.

(** X3.  When the first [k] replies (k below 60) are faults or report the
    run queued or running, and the next one reports success, the loop makes
    exactly k + 1 status requests and stops in the success state; before
    that it only requested, showed states and set timers, and it ends by
    showing the state, clearing the triggering mark, refreshing the pending
    count, fetching the predictions made since the trigger time and showing
    them, in this order and once. *)
Theorem poller_success_path :
  forall (runId triggerTime : string) (replies : nat -> UploadPage.StatusReply)
         (k fuel : nat),
    k < UploadPage.maxAttempts ->
    (forall i, i < k -> keeps_polling (replies i)) ->
    replies k = reports "success" ->
    k < fuel ->
    let final :=
      UploadPage.run runId triggerTime replies fuel UploadPage.pollDagStatus in
    fetches final = k + 1
    /\ UploadPage.scheduled final = None
    /\ UploadPage.terminal final = Some UploadPage.Success
    /\ exists before,
         forallb is_progress_effect before = true
         /\ UploadPage.effects final
            = before ++
              [UploadPage.SetDagStatus "success"; UploadPage.SetTriggering false;
               UploadPage.RefreshUnpredicted;
               UploadPage.FetchRecentPredictions triggerTime;
               UploadPage.SetShowPredictions true].
Proof.
  intros runId triggerTime replies k fuel Hk Hrep Hsucc Hfuel final.
  destruct (run_through runId triggerTime replies k fuel Hrep Hk Hfuel)
    as (q & Ha & Hp & Hf & Hrun).
  subst final. rewrite Hrun, Hsucc. unfold reports, UploadPage.poll.
  cbn [UploadPage.state String.eqb Ascii.eqb Bool.eqb andb].
  rewrite run_stopped by reflexivity.
  split.
  { unfold UploadPage.stop. rewrite fetches_app, filter_app, length_app.
    unfold fetches in Hf. rewrite Hf. simpl. lia. }
  split; [reflexivity|]. split.
  { unfold UploadPage.terminal, UploadPage.stop. cbn [UploadPage.scheduled UploadPage.effects].
    rewrite rev_app_distr. reflexivity. }
  exists (UploadPage.effects q ++ [UploadPage.FetchStatus runId]).
  split; [|reflexivity].
  rewrite forallb_app, Hp. reflexivity.
Qed.

(** X4.  When the first [k] replies (k below 60) keep the loop going and the
    next one reports failure, the loop makes exactly k + 1 status requests
    and stops in the failed state with the DAG-failed result; nothing of
    the success branch happens. *)
Theorem poller_failure_path :
  forall (runId triggerTime : string) (replies : nat -> UploadPage.StatusReply)
         (k fuel : nat),
    k < UploadPage.maxAttempts ->
    (forall i, i < k -> keeps_polling (replies i)) ->
    replies k = reports "failed" ->
    k < fuel ->
    let final :=
      UploadPage.run runId triggerTime replies fuel UploadPage.pollDagStatus in
    fetches final = k + 1
    /\ UploadPage.scheduled final = None
    /\ UploadPage.terminal final = Some UploadPage.Failed
    /\ existsb UploadPage.is_success_effect (UploadPage.effects final) = false
    /\ exists before,
         forallb is_progress_effect before = true
         /\ UploadPage.effects final
            = before ++
              [UploadPage.SetDagStatus "failed"; UploadPage.SetTriggering false;
               UploadPage.SetTriggerResult false UploadPage.failed_message].
Proof.
  intros runId triggerTime replies k fuel Hk Hrep Hfail Hfuel final.
  destruct (run_through runId triggerTime replies k fuel Hrep Hk Hfuel)
    as (q & Ha & Hp & Hf & Hrun).
  subst final. rewrite Hrun, Hfail. unfold reports, UploadPage.poll.
  cbn [UploadPage.state String.eqb Ascii.eqb Bool.eqb andb].
  rewrite run_stopped by reflexivity.
  assert (existsb UploadPage.is_success_effect (UploadPage.effects q) = false) as Hq.
  { clear -Hp. induction (UploadPage.effects q) as [|e es IH]; [reflexivity|].
    simpl in *. apply andb_true_iff in Hp as [He Hes].
    rewrite (IH Hes). destruct e; simpl in *; congruence. }
  split.
  { unfold UploadPage.stop. rewrite fetches_app, filter_app, length_app.
    unfold fetches in Hf. rewrite Hf. simpl. lia. }
  split; [reflexivity|]. split.
  { unfold UploadPage.terminal, UploadPage.stop. cbn [UploadPage.scheduled UploadPage.effects].
    rewrite rev_app_distr. reflexivity. }
  split.
  { unfold UploadPage.stop. cbn [UploadPage.effects].
    rewrite !existsb_app, Hq. reflexivity. }
  exists (UploadPage.effects q ++ [UploadPage.FetchStatus runId]).
  split; [|reflexivity].
  rewrite forallb_app, Hp. reflexivity.
Qed.

Lemma progress_is_quiet (es : list UploadPage.Effect) :
  forallb is_progress_effect es = true ->
  existsb UploadPage.is_success_effect es = false
  /\ existsb UploadPage.is_failure_effect es = false
  /\ existsb is_set_triggering es = false.
Proof.
  induction es as [|e es IH]; intros H; [now repeat split|].
  simpl in H. apply andb_true_iff in H as [He Hes].
  destruct (IH Hes) as (H1 & H2 & H3). simpl. rewrite H1, H2, H3.
  destruct e; simpl in *; try discriminate; now repeat split.
Qed.

(** X5.  When the first [k] replies (k below 60) keep the loop going and the
    next one reports a state other than success, failed, running or queued,
    the loop stops there without a word: no further poll is scheduled, no
    terminal state is reached, and all that ever happened is requests,
    state displays and timers, so the triggering mark is never cleared and
    no result is shown. *)
Theorem poller_unknown_state_halts_silently :
  forall (runId triggerTime : string) (replies : nat -> UploadPage.StatusReply)
         (k fuel : nat) (s : string),
    k < UploadPage.maxAttempts ->
    (forall i, i < k -> keeps_polling (replies i)) ->
    replies k = reports s ->
    known_state s = false ->
    k < fuel ->
    let final :=
      UploadPage.run runId triggerTime replies fuel UploadPage.pollDagStatus in
    fetches final = k + 1
    /\ UploadPage.scheduled final = None
    /\ UploadPage.terminal final = None
    /\ forallb is_progress_effect (UploadPage.effects final) = true
    /\ existsb is_set_triggering (UploadPage.effects final) = false.
Proof.
  intros runId triggerTime replies k fuel s Hk Hrep Hs Hunknown Hfuel final.
  destruct (run_through runId triggerTime replies k fuel Hrep Hk Hfuel)
    as (q & Ha & Hp & Hf & Hrun).
  unfold known_state in Hunknown.
  apply orb_false_iff in Hunknown as [Hunknown Hq'].
  apply orb_false_iff in Hunknown as [Hunknown Hr'].
  apply orb_false_iff in Hunknown as [Hs' Hf'].
  assert (UploadPage.poll runId triggerTime (reports s) q
          = UploadPage.stop (UploadPage.attempts q + 1)
              (UploadPage.effects q ++ [UploadPage.FetchStatus runId])
              [UploadPage.SetDagStatus s]) as Hpoll.
  { unfold reports, UploadPage.poll. cbn [UploadPage.state].
    now rewrite Hs', Hf', Hr', Hq'. }
  subst final. rewrite Hrun, Hs, Hpoll. rewrite run_stopped by reflexivity.
  assert (forallb is_progress_effect
            (UploadPage.effects
               (UploadPage.stop (UploadPage.attempts q + 1)
                  (UploadPage.effects q ++ [UploadPage.FetchStatus runId])
                  [UploadPage.SetDagStatus s])) = true) as Hall.
  { unfold UploadPage.stop. cbn [UploadPage.effects].
    rewrite !forallb_app, Hp. reflexivity. }
  split.
  { unfold UploadPage.stop. rewrite fetches_app, filter_app, length_app.
    unfold fetches in Hf. rewrite Hf. simpl. lia. }
  split; [reflexivity|]. split.
  { unfold UploadPage.terminal, UploadPage.stop.
    cbn [UploadPage.scheduled UploadPage.effects].
    rewrite rev_app_distr. reflexivity. }
  split; [exact Hall|]. now apply progress_is_quiet.
Qed.

(** X6.  When each of the first 60 replies is a fault or reports the run
    queued or running, the loop makes exactly 60 status requests and stops;
    the terminal state depends on the sixtieth reply alone: a fault gives
    the poll-error state, a queued or running report the timed-out state.
    Neither the success branch nor the failure branch runs. *)
Theorem poller_exhausts_budget :
  forall (runId triggerTime : string) (replies : nat -> UploadPage.StatusReply)
         (fuel : nat),
    (forall i, i < UploadPage.maxAttempts -> keeps_polling (replies i)) ->
    UploadPage.maxAttempts <= fuel ->
    let final :=
      UploadPage.run runId triggerTime replies fuel UploadPage.pollDagStatus in
    fetches final = 60
    /\ UploadPage.scheduled final = None
    /\ UploadPage.terminal final
       = Some (if is_fault (replies 59) then UploadPage.PollError
               else UploadPage.TimedOut)
    /\ existsb UploadPage.is_success_effect (UploadPage.effects final) = false
    /\ existsb UploadPage.is_failure_effect (UploadPage.effects final) = false.
Proof.
  intros runId triggerTime replies fuel Hrep Hfuel final.
  destruct (run_through runId triggerTime replies 59 fuel)
    as (q & Ha & Hp & Hf & Hrun).
  { intros i Hi. apply Hrep. unfold UploadPage.maxAttempts. lia. }
  { unfold UploadPage.maxAttempts. lia. }
  { unfold UploadPage.maxAttempts in Hfuel. lia. }
  destruct (progress_is_quiet _ Hp) as (Hq1 & Hq2 & _).
  assert (exists es,
    UploadPage.poll runId triggerTime (replies 59) q
    = UploadPage.stop 60 (UploadPage.effects q ++ [UploadPage.FetchStatus runId]) es
    /\ existsb UploadPage.is_fetch es = false
    /\ existsb UploadPage.is_success_effect es = false
    /\ existsb UploadPage.is_failure_effect es = false
    /\ UploadPage.terminal
         (UploadPage.stop 60 (UploadPage.effects q ++ [UploadPage.FetchStatus runId]) es)
       = Some (if is_fault (replies 59) then UploadPage.PollError
               else UploadPage.TimedOut)) as (es & Hpoll & Hnf & Hns & Hnfail & Hterm).
  { destruct (Hrep 59) as [Hn | Hfault]; [unfold UploadPage.maxAttempts; lia | |].
    - destruct (poll_nonterminal runId triggerTime _ q Hn) as [s Hs].
      rewrite Ha in Hs. cbn in Hs. eexists. split; [exact Hs|].
      destruct Hn as [s' [-> _]].
      split; [reflexivity|]. split; [reflexivity|]. split; [reflexivity|].
      unfold UploadPage.terminal, UploadPage.stop.
      cbn [UploadPage.scheduled UploadPage.effects is_fault].
      rewrite rev_app_distr. reflexivity.
    - unfold UploadPage.poll. rewrite Ha.
      destruct (replies 59) as [e | [|] [d|]]; simpl in Hfault; try discriminate;
        cbn; eexists; (split; [reflexivity|]);
        (split; [reflexivity|]); (split; [reflexivity|]); (split; [reflexivity|]);
        unfold UploadPage.terminal, UploadPage.stop;
        cbn [UploadPage.scheduled UploadPage.effects];
        rewrite rev_app_distr; reflexivity. }
  subst final. rewrite Hrun, Hpoll. rewrite run_stopped by reflexivity.
  split.
  { unfold UploadPage.stop. rewrite fetches_app, filter_app, length_app.
    unfold fetches in Hf. rewrite Hf, (filter_none _ _ Hnf). simpl. lia. }
  split; [reflexivity|]. split; [exact Hterm|].
  unfold UploadPage.stop. cbn [UploadPage.effects].
  rewrite !existsb_app, Hq1, Hq2, Hns, Hnfail. split; reflexivity.
Qed.

(* ================================================================== *)
(** * The trigger client on every reply *)
(* ================================================================== *)

Section TriggerOutcomes.

Variable JSON_parse : string -> Exn.completion json.

Lemma includes_has_first (c : ascii) (sub s : string) :
  Js.includes s (String c sub) = true -> has_char c s = true.
Proof.
  induction s as [|a s IH]; simpl.
  - discriminate.
  - destruct (ascii_dec c a) as [->|Hne].
    + intros _. now rewrite Ascii.eqb_refl.
    + intros H. rewrite IH; [apply orb_true_r|].
      destruct sub; exact H.
Qed.

Lemma has_char_app (c : ascii) (s t : string) :
  has_char c (s ++ t) = has_char c s || has_char c t.
Proof.
  induction s as [|a s IH]; simpl; [reflexivity|].
  now rewrite IH, orb_assoc.
Qed.

Lemma decimal_no_letter (c : ascii) (n : nat) :
  (nat_of_ascii c <? 48) || (57 <? nat_of_ascii c) = true ->
  has_char c (Js.decimal n) = false.
Proof.
  intros Hc. unfold Js.decimal.
  assert (forall u, has_char c (DecimalString.NilEmpty.string_of_uint u) = false) as H.
  { induction u; cbn [has_char DecimalString.NilEmpty.string_of_uint];
      try reflexivity; rewrite IHu, orb_false_r;
      apply Ascii.eqb_neq; intros <-; vm_compute in Hc; discriminate. }
  unfold DecimalString.NilZero.string_of_uint.
  destruct (Nat.to_uint n) eqn:E; try apply H.
  cbn [has_char]. rewrite orb_false_r. apply Ascii.eqb_neq. intros <-.
  vm_compute in Hc. discriminate.
Qed.

Lemma http_status_not_benign (n : nat) :
  Js.includes ("HTTP " ++ Js.decimal n) "No new rows to predict" = false
  /\ Js.includes ("HTTP " ++ Js.decimal n) "no new rows" = false.
Proof.
  split.
  - destruct (Js.includes ("HTTP " ++ Js.decimal n) "No new rows to predict") eqn:E;
      [|reflexivity].
    apply includes_has_first in E. rewrite has_char_app in E.
    rewrite (decimal_no_letter "N" n eq_refl) in E. discriminate.
  - destruct (Js.includes ("HTTP " ++ Js.decimal n) "no new rows") eqn:E;
      [|reflexivity].
    apply includes_has_first in E. rewrite has_char_app in E.
    rewrite (decimal_no_letter "n" n eq_refl) in E. discriminate.
Qed.

Lemma no_json_body_data (response : Airflow.Response) :
  no_json_body JSON_parse response ->
  Airflow.read_data JSON_parse response = empty_object.
Proof.
  unfold Airflow.read_data.
  intros [[e ->] | [-> | (t & e & -> & Hp)]]; cbn [Exn.bind]; try reflexivity.
  destruct (String.eqb t ""); [reflexivity | now rewrite Hp].
Qed.

End TriggerOutcomes.

(** X7.  The trigger client reports success only when the request reached
    the orchestrator and the reply is 2xx or carries one of the two benign
    messages: a failed request, and a non-2xx reply whose error detail is
    neither a matching text nor a list holding it, are failures.  A 2xx
    reply is always a success, whatever its body; its details are the
    parsed body. *)
Theorem trigger_success_only_if_accepted_or_benign :
  forall (JSON_parse : string -> Exn.completion json)
         (fetched : Exn.completion Airflow.Response),
    (Airflow.success (Airflow.triggerPredictionDag JSON_parse fetched) = true ->
       exists response,
         fetched = Exn.Normal response /\ accepted_or_benign JSON_parse response)
    /\ (forall response,
          fetched = Exn.Normal response -> Airflow.ok response = true ->
          Airflow.triggerPredictionDag JSON_parse fetched
          = {| Airflow.success := true;
               Airflow.message := JStr "Airflow DAG triggered successfully!";
               Airflow.details := Airflow.read_data JSON_parse response |}).
Proof.
  intros JSON_parse fetched. split.
  - destruct fetched as [response | e]; [|discriminate].
    intros H. exists response. split; [reflexivity|].
    unfold accepted_or_benign.
    unfold Airflow.triggerPredictionDag, Airflow.trigger_body in H.
    cbn [Exn.bind] in H.
    destruct (Airflow.ok response); [now left | right]. cbn [negb] in H.
    destruct (Airflow.includes (Airflow.errorMsg_of JSON_parse response)
                "No new rows to predict") as [[|] | e1]; cbn [Exn.bind] in H.
    + now left.
    + right.
      destruct (Airflow.includes (Airflow.errorMsg_of JSON_parse response)
                  "no new rows") as [[|] | e2]; cbn [Exn.bind] in H;
        [reflexivity | discriminate | discriminate].
    + discriminate.
  - intros response -> Hok.
    unfold Airflow.triggerPredictionDag, Airflow.trigger_body.
    cbn [Exn.bind]. now rewrite Hok.
Qed.

(** X8.  A non-2xx reply whose body is empty, cannot be read or is not
    JSON is always reported as the failure "HTTP <status>", with empty
    details: the raw text is never searched, so even a plain-text body
    saying "No new rows to predict" is a failure. *)
Theorem trigger_non_json_error_is_http_status :
  forall (JSON_parse : string -> Exn.completion json)
         (response : Airflow.Response),
    Airflow.ok response = false ->
    no_json_body JSON_parse response ->
    Airflow.triggerPredictionDag JSON_parse (Exn.Normal response)
    = {| Airflow.success := false;
         Airflow.message := JStr ("HTTP " ++ Js.decimal (Airflow.status response));
         Airflow.details := empty_object |}.
Proof.
  intros JSON_parse response Hok Hbody.
  pose proof (no_json_body_data JSON_parse response Hbody) as Hdata.
  assert (Airflow.error_text JSON_parse response
          = Some ("HTTP " ++ Js.decimal (Airflow.status response))%string) as Htext.
  { unfold Airflow.error_text, Airflow.errorMsg_of. now rewrite Hdata. }
  rewrite (trigger_on_error_text JSON_parse response _ Hok Htext), Hdata.
  unfold spelled_no_new_rows.
  destruct (http_status_not_benign (Airflow.status response)) as [-> ->].
  reflexivity.
Qed.

(* ================================================================== *)
(** * From the orchestrator's reply to the page *)
(* ================================================================== *)

Section PageFacts.

Variable ToString : json -> string.
Variable JSON_parse : string -> Exn.completion json.
Variable triggerTime : string.

Lemma page_effects_success (r : Airflow.TriggerResult) :
  Airflow.success r = true ->
  UploadPage.triggerDag ToString triggerTime
    (Exn.Normal (TriggerRoute.POST (Exn.Normal r)))
  = trigger_preamble ++
    [UploadPage.PSetDagRunId (UploadPage.chain (Some (Airflow.details r)) "dag_run_id");
     UploadPage.PSetDagStatus (Some "running");
     UploadPage.PSetTriggerResult
       (Some {| UploadPage.shown_success := true;
                UploadPage.shown_message :=
                  Airflow.or_else (Some (Airflow.message r))
                    (JStr "✅ Airflow DAG triggered successfully!");
                UploadPage.shown_details := Some (Airflow.details r) |})]
    ++ match UploadPage.chain (Some (Airflow.details r)) "dag_run_id" with
       | Some v => if truthy v then [UploadPage.StartPolling v triggerTime] else []
       | None => []
       end.
Proof.
  intros H. unfold UploadPage.triggerDag, UploadPage.trigger_try, TriggerRoute.POST.
  rewrite H. reflexivity.
Qed.

Lemma page_effects_failure (r : Airflow.TriggerResult) :
  Airflow.success r = false ->
  UploadPage.triggerDag ToString triggerTime
    (Exn.Normal (TriggerRoute.POST (Exn.Normal r)))
  = trigger_preamble ++
    trigger_failure
      (ToString (Airflow.or_else (Some (Airflow.message r))
                   (JStr "Failed to trigger DAG"))).
Proof.
  intros H. unfold UploadPage.triggerDag, UploadPage.trigger_try, TriggerRoute.POST.
  rewrite H. reflexivity.
Qed.

End PageFacts.

(** X9.  After [triggerDag], the trigger button is disabled exactly when
    the trigger client reported success, and the poll loop is started
    exactly when, in addition, the details carry a truthy [dag_run_id] (with
    that id and the trigger time taken before the request).  So a benign
    no-op, which is a success without a run id, leaves the button disabled
    and starts no loop that could enable it again. *)
Theorem trigger_button_and_polling :
  forall (ToString : json -> string) (JSON_parse : string -> Exn.completion json)
         (triggerTime : string) (fetched : Exn.completion Airflow.Response),
    let r := Airflow.triggerPredictionDag JSON_parse fetched in
    let es := page_effects ToString JSON_parse triggerTime fetched in
    UploadPage.button_disabled (UploadPage.page_after es) = Airflow.success r
    /\ (forall v t,
          In (UploadPage.StartPolling v t) es <->
          Airflow.success r = true
          /\ UploadPage.chain (Some (Airflow.details r)) "dag_run_id" = Some v
          /\ truthy v = true /\ t = triggerTime).
Proof.
  intros ToString JSON_parse triggerTime fetched r es. subst es.
  unfold page_effects. fold r.
  destruct (Airflow.success r) eqn:Hs.
  - rewrite (page_effects_success ToString triggerTime r Hs).
    set (runId := UploadPage.chain (Some (Airflow.details r)) "dag_run_id").
    split.
    + unfold UploadPage.page_after. rewrite !fold_left_app.
      destruct runId as [v|]; [destruct (truthy v)|]; reflexivity.
    + intros v t. rewrite !in_app_iff. split.
      * intros [H | [H | H]].
        { simpl in H. repeat destruct H as [H | H]; try discriminate; contradiction. }
        { simpl in H. repeat destruct H as [H | H]; try discriminate; contradiction. }
        { destruct runId as [v'|]; [|contradiction].
          destruct (truthy v') eqn:Ht; [|contradiction].
          destruct H as [H | []]. injection H as <- <-. now repeat split. }
      * intros (_ & Hv & Ht & ->). right. right.
        rewrite Hv, Ht. now left.
  - rewrite (page_effects_failure ToString triggerTime r Hs).
    split; [reflexivity|].
    intros v t. split.
    + intros H. exfalso. simpl in H.
      repeat destruct H as [H | H]; try discriminate; contradiction.
    + intros (H & _). discriminate.
Qed.

(** X10.  A failed trigger is shown with the orchestrator's own words: for
    a non-2xx reply whose error text is not one of the benign spellings,
    the page clears the run state, shows a failure carrying exactly that
    text and leaves triggering mode; when the request itself failed, it
    shows the error's message, or "Failed to trigger DAG" if that is
    empty. *)
Theorem trigger_failure_is_shown_verbatim :
  forall (ToString : json -> string) (JSON_parse : string -> Exn.completion json)
         (triggerTime : string),
    (forall s, ToString (JStr s) = s) ->
    (forall response s,
       Airflow.ok response = false ->
       Airflow.error_text JSON_parse response = Some s ->
       spelled_no_new_rows s = false ->
       page_effects ToString JSON_parse triggerTime (Exn.Normal response)
       = trigger_preamble ++ trigger_failure s)
    /\ (forall err,
          page_effects ToString JSON_parse triggerTime (Exn.Thrown err)
          = trigger_preamble ++
            trigger_failure
              (if String.eqb (Exn.message err) "" then "Failed to trigger DAG"
               else Exn.message err)).
Proof.
  intros ToString JSON_parse triggerTime Hstr. split.
  - intros response s Hok Htext Hspell. unfold page_effects.
    rewrite (trigger_on_error_text JSON_parse response s Hok Htext), Hspell.
    rewrite page_effects_failure by reflexivity.
    cbn [Airflow.message Airflow.or_else truthy].
    assert (String.eqb s "" = false) as Hne.
    { unfold Airflow.error_text, Airflow.errorMsg_of, Airflow.or_else in Htext.
      destruct (Airflow.opt_prop (Airflow.read_data JSON_parse response) "detail")
        as [d|] eqn:Ed.
      - destruct (truthy d) eqn:Td.
        + destruct d; try discriminate. injection Htext as <-.
          simpl in Td. now apply negb_true_iff in Td.
        + destruct (Airflow.opt_prop (Airflow.read_data JSON_parse response) "error")
            as [e|] eqn:Ee.
          * destruct (truthy e) eqn:Te.
            { destruct e; try discriminate. injection Htext as <-.
              simpl in Te. now apply negb_true_iff in Te. }
            { injection Htext as <-. reflexivity. }
          * injection Htext as <-. reflexivity.
      - destruct (Airflow.opt_prop (Airflow.read_data JSON_parse response) "error")
          as [e|] eqn:Ee.
        + destruct (truthy e) eqn:Te.
          * destruct e; try discriminate. injection Htext as <-.
            simpl in Te. now apply negb_true_iff in Te.
          * injection Htext as <-. reflexivity.
        + injection Htext as <-. reflexivity. }
    rewrite Hne. cbn [negb]. now rewrite Hstr.
  - intros err. unfold page_effects.
    rewrite page_effects_failure by reflexivity.
    cbn [Airflow.triggerPredictionDag Exn.bind Airflow.message Airflow.or_else truthy].
    destruct (String.eqb (Exn.message err) ""); cbn [negb]; now rewrite Hstr.
Qed.

(* ================================================================== *)
(** * The aggregates on every history *)
(* ================================================================== *)

Section AggregateFacts.

Lemma votes_total (rows : list RiskPredictionHistoryRow) (s : string) :
  tally_total (tally_of rows s) = rows_of rows s.
Proof.
  unfold tally_total, tally_of, rows_of. cbn [high medium low unknown].
  rewrite !votes_occurrences. unfold occurrences.
  rewrite (filter_categories_total (fun x => x)). apply length_map.
Qed.

Lemma map_total_set (m : JsMap.t Tally) (k : string) (v : Tally) :
  map_total (JsMap.set m k v) + tally_total (nullish (JsMap.get m k) zero_tally)
  = map_total m + tally_total v.
Proof.
  induction m as [|[k' v'] m IH]; simpl.
  - unfold map_total, tally_total. simpl. lia.
  - destruct (String.eqb k' k); simpl.
    + unfold map_total. simpl. lia.
    + unfold map_total in *. simpl. lia.
Qed.

Lemma bump_total (t : Tally) (c : RiskCategory) :
  tally_total (bump_tally t c) = tally_total t + 1.
Proof. destruct c; unfold tally_total; simpl; lia. Qed.

Lemma tally_step_total (m : JsMap.t Tally) (p : RiskPredictionHistoryRow) :
  map_total (tally_step m p) = map_total m + 1.
Proof.
  unfold tally_step.
  destruct (JsMap.has m (supplier_id p)) eqn:Hhas.
  - destruct (has_get_some _ _ Hhas) as [c Hc]. rewrite Hc.
    pose proof (map_total_set m (supplier_id p)
                  (bump_tally c (label_category (normalizeRiskLabel (predicted_risk p)))))
      as H.
    rewrite Hc, bump_total in H. cbn [nullish] in H. lia.
  - rewrite get_set_same.
    pose proof (map_total_set m (supplier_id p) zero_tally) as H0.
    rewrite (has_get_none _ _ Hhas) in H0. cbn [nullish] in H0.
    change (tally_total zero_tally) with 0 in H0.
    pose proof (map_total_set (JsMap.set m (supplier_id p) zero_tally) (supplier_id p)
                  (bump_tally zero_tally
                     (label_category (normalizeRiskLabel (predicted_risk p))))) as H1.
    rewrite get_set_same, bump_total in H1. cbn [nullish] in H1.
    change (tally_total zero_tally) with 0 in H1. lia.
Qed.

Lemma fold_tally_total (rows : list RiskPredictionHistoryRow) : forall m,
  map_total (fold_left tally_step rows m) = map_total m + List.length rows.
Proof.
  induction rows as [|p rows IH]; intros m; simpl; [lia|].
  rewrite IH, tally_step_total. lia.
Qed.

Lemma tally_of_perm (rows rows' : list RiskPredictionHistoryRow) (s : string) :
  Permutation rows rows' -> tally_of rows s = tally_of rows' s.
Proof.
  intros H. unfold tally_of, votes.
  now rewrite !(filter_length_perm _ _ _ H).
Qed.

Lemma distinct_perm (rows rows' : list RiskPredictionHistoryRow) :
  Permutation rows rows' ->
  Permutation (distinct_suppliers rows) (distinct_suppliers rows').
Proof.
  intros H. unfold distinct_suppliers.
  apply NoDup_Permutation; try apply NoDup_nodup.
  intros s. rewrite !nodup_In.
  split; apply Permutation_in; [|symmetry]; now apply Permutation_map.
Qed.

Lemma risk_ext (a b : RiskCounts) :
  (forall c, risk_count a c = risk_count b c) -> a = b.
Proof.
  intros H. destruct a, b.
  pose proof (H CatHigh). pose proof (H CatMedium).
  pose proof (H CatLow). pose proof (H CatUnknown).
  simpl in *. congruence.
Qed.

Lemma riskCounts_perm (rows rows' : list RiskPredictionHistoryRow) :
  Permutation rows rows' ->
  riskCounts_of (supplierRiskCounts rows) = riskCounts_of (supplierRiskCounts rows').
Proof.
  intros H. apply risk_ext. intros c.
  rewrite !riskCounts_by_category.
  rewrite (filter_length_perm _ _ _ (distinct_perm _ _ H)).
  apply filter_ext_length. intros s. now rewrite (tally_of_perm _ _ s H).
Qed.

Lemma latest_count (rows : list RiskPredictionHistoryRow) :
  List.length (JsMap.values (latestBySupplier rows))
  = List.length (distinct_suppliers rows).
Proof.
  destruct (fold_keep_first_keys rows JsMap.empty (NoDup_nil _)) as [Hnd Hkeys].
  fold (latestBySupplier rows) in Hnd, Hkeys.
  unfold JsMap.values. rewrite length_map.
  rewrite <- (length_map fst). fold (JsMap.keys (latestBySupplier rows)).
  apply Permutation_length, NoDup_Permutation;
    [exact Hnd | apply NoDup_nodup |].
  intros s. unfold distinct_suppliers. rewrite nodup_In, Hkeys. simpl. tauto.
Qed.

Lemma risk_total_distinct (rows : list RiskPredictionHistoryRow) :
  risk_total (riskCounts_of (supplierRiskCounts rows))
  = List.length (distinct_suppliers rows).
Proof.
  rewrite <- (filter_categories_total (fun s => majority (tally_of rows s))
                (distinct_suppliers rows)).
  rewrite <- !riskCounts_by_category. reflexivity.
Qed.

Lemma keep_first_fresh (rows : list RiskPredictionHistoryRow) : forall m,
  NoDup (JsMap.keys m ++ map supplier_id rows) ->
  fold_left keep_first rows m = m ++ map (fun r => (supplier_id r, r)) rows.
Proof.
  induction rows as [|r rows IH]; intros m Hnd; simpl.
  - now rewrite app_nil_r.
  - assert (JsMap.has m (supplier_id r) = false) as Hhas.
    { apply has_false_keys. intros Hin.
      apply NoDup_remove_2 in Hnd. apply Hnd, in_or_app. now left. }
    unfold keep_first at 2. rewrite Hhas, (set_absent _ _ _ Hhas).
    rewrite IH.
    + now rewrite <- app_assoc.
    + unfold JsMap.keys. rewrite map_app. simpl. rewrite <- app_assoc. exact Hnd.
Qed.

End AggregateFacts.

(** X11.  Every prediction row is tallied exactly once, under its own
    supplier: the four counts of a supplier's tally add up to the number of
    its rows, and the tallies of the whole map add up to the number of rows
    of the history. *)
Theorem every_prediction_is_tallied_once :
  forall (allPredictions : list RiskPredictionHistoryRow),
    map_total (supplierRiskCounts allPredictions) = List.length allPredictions
    /\ forall s t,
         JsMap.get (supplierRiskCounts allPredictions) s = Some t ->
         tally_total t = rows_of allPredictions s /\ 1 <= tally_total t.
Proof.
  intros rows. split.
  - unfold supplierRiskCounts. rewrite fold_tally_total. reflexivity.
  - intros s t Hget.
    assert (In s (map supplier_id rows)) as Hin.
    { apply (proj2 (supplierRiskCounts_keys rows)).
      apply get_In in Hget. apply (in_map fst) in Hget. exact Hget. }
    rewrite (supplierRiskCounts_get rows s Hin) in Hget. injection Hget as <-.
    rewrite votes_total. split; [reflexivity|].
    unfold rows_of. apply in_map_iff in Hin as [p [Hp Hinp]].
    assert (In p (filter (fun p => String.eqb (supplier_id p) s) rows)) as Hf.
    { apply filter_In. split; [exact Hinp|]. subst s. apply String.eqb_refl. }
    destruct (filter _ rows); [contradiction | simpl; lia].
Qed.

(** X12.  The global category counts do not depend on the order in which
    the store returns the prediction rows (the query asks for none). *)
Theorem risk_counts_ignore_row_order :
  forall (profiles profiles' : list SupplierProfile)
         (latest latest' allPredictions allPredictions' : list RiskPredictionHistoryRow)
         (n1 n2 n1' n2' : nat),
    Permutation allPredictions allPredictions' ->
    riskCounts (getExecutiveOverview profiles latest allPredictions n1 n2)
    = riskCounts (getExecutiveOverview profiles' latest' allPredictions' n1' n2').
Proof.
  intros. simpl. now apply riskCounts_perm.
Qed.

(** X13.  A history with at most one row per supplier is returned by the
    resolver as it is, in the same order; in particular resolving an
    already resolved list changes nothing. *)
Theorem resolver_keeps_unique_histories :
  forall (rows : list RiskPredictionHistoryRow),
    NoDup (map supplier_id rows) ->
    getLatestPredictionsPerSupplier (answered rows) = Exn.Normal rows.
Proof.
  intros rows Hnd. unfold getLatestPredictionsPerSupplier, answered.
  cbn [error data nullish]. f_equal.
  unfold latestBySupplier. rewrite keep_first_fresh by exact Hnd.
  unfold JsMap.values, JsMap.empty. simpl. rewrite map_map. simpl.
  apply map_id.
Qed.

(** X14.  When the resolver and the aggregator read the same table, the
    overview lists as many latest predictions as its four category counts
    add up to, whatever the order of either answer. *)
Theorem overview_latest_matches_risk_counts :
  forall (profiles : list SupplierProfile)
         (rows allPredictions latest : list RiskPredictionHistoryRow)
         (nSuppliers nPredictions : nat),
    Permutation allPredictions rows ->
    getLatestPredictionsPerSupplier (answered rows) = Exn.Normal latest ->
    let o := getExecutiveOverview profiles latest allPredictions nSuppliers nPredictions in
    List.length (latestPredictions o) = risk_total (riskCounts o).
Proof.
  intros profiles rows all latest nS nP Hperm Hlatest o. subst o. simpl.
  unfold getLatestPredictionsPerSupplier, answered in Hlatest.
  cbn [error data nullish] in Hlatest. injection Hlatest as <-.
  rewrite length_map, latest_count, risk_total_distinct.
  apply Permutation_length, distinct_perm. now symmetry.
Qed.

(* ================================================================== *)
(** * Truncated rankings *)
(* ================================================================== *)

Section CutFacts.

Context {A : Type}.

Lemma sorted_app_cross (R : A -> A -> Prop) (l1 l2 : list A) :
  StronglySorted R (l1 ++ l2) ->
  forall a b, In a l1 -> In b l2 -> R a b.
Proof.
  induction l1 as [|x l1 IH]; simpl; intros Hs a b Ha Hb; [contradiction|].
  inversion Hs as [|? ? Hs' Hall]; subst.
  destruct Ha as [<- | Ha].
  - rewrite Forall_forall in Hall. apply Hall, in_or_app. now right.
  - now apply IH.
Qed.

Lemma sorted_filter (R : A -> A -> Prop) (f : A -> bool) (l : list A) :
  StronglySorted R l -> StronglySorted R (filter f l).
Proof.
  induction 1 as [|x l Hs IH Hall]; simpl; [constructor|].
  destruct (f x); [|exact IH]. constructor; [exact IH|].
  rewrite Forall_forall in *. intros y Hy. apply filter_In in Hy. now apply Hall.
Qed.

Lemma firstn_subset (n : nat) (l : list A) (x : A) :
  In x (firstn n l) -> In x l.
Proof.
  intros H. rewrite <- (firstn_skipn n l). apply in_or_app. now left.
Qed.

(** The first [n] of a sorted list and what is cut off. *)
Lemma sorted_cut (R : A -> A -> Prop) (n : nat) (l : list A) :
  StronglySorted R l ->
  Permutation l (firstn n l ++ skipn n l)
  /\ forall a b, In a (firstn n l) -> In b (skipn n l) -> R a b.
Proof.
  intros Hs. rewrite firstn_skipn. split; [reflexivity|].
  apply sorted_app_cross. now rewrite firstn_skipn.
Qed.

End CutFacts.

(** X15.  The top list holds ten records, or all of them if there are
    fewer, and no record left out has a higher [prob_high] (null read as 0)
    than a record in the list. *)
Theorem top_high_risk_dominates_the_rest :
  forall (profiles : list SupplierProfile)
         (latest allPredictions : list RiskPredictionHistoryRow)
         (nSuppliers nPredictions : nat),
    let top :=
      topHighRisk
        (getExecutiveOverview profiles latest allPredictions nSuppliers nPredictions) in
    List.length top = Nat.min 10 (List.length allPredictions)
    /\ exists rest,
         Permutation (map (with_name (nameById profiles)) allPredictions) (top ++ rest)
         /\ forall a b, In a top -> In b rest -> (prob_key b <= prob_key a)%Q.
Proof.
  intros profiles latest rows nS nP top. subst top.
  cbn [getExecutiveOverview topHighRisk]. unfold topHighRisk_of, Js.slice0.
  set (named := map (with_name (nameById profiles)) rows).
  set (sorted := Js.sort by_prob_high_desc named).
  assert (StronglySorted (key_desc prob_key) sorted) as Hs.
  { apply (sort_sorted by_prob_high_desc prob_key (fun _ => True)).
    - intros a b _ _. apply before_prob_high.
    - apply Forall_forall. trivial. }
  split.
  - rewrite length_firstn. subst sorted.
    rewrite <- (Permutation_length (sort_perm by_prob_high_desc named)).
    subst named. now rewrite length_map.
  - exists (skipn 10 sorted).
    destruct (sorted_cut _ 10 sorted Hs) as [Hp Hcut]. split.
    + etransitivity; [apply (sort_perm by_prob_high_desc named) | exact Hp].
    + intros a b Ha Hb. exact (Hcut a b Ha Hb).
Qed.

Section DetailFacts.

Variable Number : json -> Js.jsnum.

Lemma object_entries_guarded (latest : option (string * Z * json)) :
  exists entries,
    Object_entries (ShapPage.shap_values_or_empty latest) = Exn.Normal entries.
Proof.
  destruct latest as [[[id d] v]|]; [|now eexists].
  destruct v; simpl; eauto.
Qed.

Lemma shapEntries_ranked (latest : option (string * Z * json)) :
  exists entries,
    ShapPage.shapEntries Number latest
    = Exn.Normal
        (Js.sort ShapPage.by_magnitude_desc
           (filter entry_finite (map (ShapPage.to_entry Number) entries)))
    /\ Object_entries (ShapPage.shap_values_or_empty latest) = Exn.Normal entries.
Proof.
  destruct (object_entries_guarded latest) as [entries He].
  exists entries. split; [|exact He].
  unfold ShapPage.shapEntries. now rewrite He.
Qed.

Lemma ranked_sorted (entries : list (string * json)) :
  StronglySorted (key_desc entry_magnitude)
    (Js.sort ShapPage.by_magnitude_desc
       (filter entry_finite (map (ShapPage.to_entry Number) entries))).
Proof.
  apply (sort_sorted _ _ (fun e => entry_finite e = true)).
  - apply before_magnitude.
  - apply filter_all.
Qed.

End DetailFacts.

(** X16.  The detail page never fails, whatever the stored payload decoded
    to: for a missing row or a null payload the ranking is empty, and in
    general it is a list.  Its two lists are what "top five" says: each has
    at most five entries, "increasing" only positive and "reducing" only
    negative ones (an entry of value 0 is in neither, and no entry is in
    both), and every positive (negative) entry of the ranking that was left
    out has a magnitude no larger than those kept. *)
Theorem detail_lists_are_top_five :
  forall (Number : json -> Js.jsnum) (latest : option (string * Z * json)),
    exists ranked,
      ShapPage.shapEntries Number latest = Exn.Normal ranked
      /\ (ShapPage.shap_values_or_empty latest = empty_object -> ranked = [])
      /\ List.length (ShapPage.increasing ranked) <= 5
      /\ List.length (ShapPage.reducing ranked) <= 5
      /\ (forall e, In e (ShapPage.increasing ranked) ->
            In e ranked /\ Js.gt0 (ShapPage.value e) = true
            /\ ~ In e (ShapPage.reducing ranked))
      /\ (forall e, In e (ShapPage.reducing ranked) ->
            In e ranked /\ Js.lt0 (ShapPage.value e) = true)
      /\ (exists rest,
            Permutation (filter (fun e => Js.gt0 (ShapPage.value e)) ranked)
              (ShapPage.increasing ranked ++ rest)
            /\ forall a b, In a (ShapPage.increasing ranked) -> In b rest ->
                 (entry_magnitude b <= entry_magnitude a)%Q)
      /\ (exists rest,
            Permutation (filter (fun e => Js.lt0 (ShapPage.value e)) ranked)
              (ShapPage.reducing ranked ++ rest)
            /\ forall a b, In a (ShapPage.reducing ranked) -> In b rest ->
                 (entry_magnitude b <= entry_magnitude a)%Q).
Proof.
  intros Number latest.
  destruct (shapEntries_ranked Number latest) as (entries & Hr & He).
  eexists. split; [exact Hr|].
  pose proof (ranked_sorted Number entries) as Hs.
  set (ranked := Js.sort ShapPage.by_magnitude_desc
                   (filter entry_finite (map (ShapPage.to_entry Number) entries))) in *.
  split.
  { intros Hempty. rewrite Hempty in He. injection He as <-. reflexivity. }
  unfold ShapPage.increasing, ShapPage.reducing, Js.slice0.
  split; [rewrite length_firstn; lia|]. split; [rewrite length_firstn; lia|].
  split.
  { intros e Hin. apply firstn_subset, filter_In in Hin as [Hin Hpos].
    split; [exact Hin|]. split; [exact Hpos|].
    intros Hred. apply firstn_subset, filter_In in Hred as [_ Hneg].
    destruct (ShapPage.value e) as [q| | |]; simpl in *; try discriminate.
    apply negb_true_iff in Hpos, Hneg.
    destruct (Qle_bool q 0) eqn:E1; [discriminate|].
    destruct (Qle_bool 0 q) eqn:E2; [discriminate|].
    assert (Qle_bool 0 q = true) as Habs; [|congruence].
    apply Qle_bool_iff. apply Qlt_le_weak, Qnot_le_lt. intros Hle.
    apply Qle_bool_iff in Hle. congruence. }
  split.
  { intros e Hin. apply firstn_subset, filter_In in Hin. exact Hin. }
  split.
  - exists (skipn 5 (filter (fun e => Js.gt0 (ShapPage.value e)) ranked)).
    apply sorted_cut, sorted_filter, Hs.
  - exists (skipn 5 (filter (fun e => Js.lt0 (ShapPage.value e)) ranked)).
    apply sorted_cut, sorted_filter, Hs.
Qed.

(* ================================================================== *)
(** * The summaries of the latest predictions *)
(* ================================================================== *)

Section SummaryFacts.

Variable JSON_parse : string -> Exn.completion json.
Variable Number : json -> Js.jsnum.
Variable names : JsMap.t string.
Variable shapQuery : RiskPredictionHistoryRow -> Answer (list ShapExplanationsRow).

Lemma before_value_magnitude (a b : ShapValue) :
  value_finite a = true -> value_finite b = true ->
  Js.before by_magnitude_desc a b
  = Qle_bool (value_magnitude b) (value_magnitude a).
Proof.
  unfold value_finite, value_magnitude, Js.before, by_magnitude_desc.
  destruct (sv_shap a), (sv_shap b); simpl; try discriminate.
  intros _ _. now rewrite negb_involutive, Qle_bool_sub.
Qed.

Lemma sorted_map {A B : Type} (f : A -> B) (R : B -> B -> Prop) (l : list A) :
  StronglySorted (fun a b => R (f a) (f b)) l -> StronglySorted R (map f l).
Proof.
  induction 1 as [|x l Hs IH Hall]; simpl; constructor; [exact IH|].
  rewrite Forall_forall in *. intros y Hy.
  apply in_map_iff in Hy as [z [<- Hz]]. now apply Hall.
Qed.

Lemma sorted_firstn {A : Type} (R : A -> A -> Prop) (n : nat) (l : list A) :
  StronglySorted R l -> StronglySorted R (firstn n l).
Proof.
  intros Hs. revert n. induction Hs as [|x l Hs IH Hall]; intros [|n]; simpl;
    try constructor; [apply IH|].
  rewrite Forall_forall in *. intros y Hy. apply Hall.
  now apply (firstn_subset n).
Qed.

Lemma rank_top3_shape (shapDict : json) (top : list TopFeature) :
  rank_top3 Number shapDict = Exn.Normal top ->
  List.length top <= 3
  /\ Forall well_signed top
  /\ StronglySorted (key_desc feature_magnitude) top.
Proof.
  unfold rank_top3. destruct (Object_entries shapDict) as [entries | e];
    cbn [Exn.bind]; [|discriminate].
  intros H.
  assert (top = map classify
                  (firstn 3
                     (Js.sort by_magnitude_desc
                        (filter (fun x => Js.isFinite (sv_shap x))
                           (map (to_shap_value Number) entries))))) as ->
    by (unfold Js.slice0 in H; congruence).
  clear H.
  set (finite := filter (fun x => Js.isFinite (sv_shap x)) (map (to_shap_value Number) entries)).
  assert (Forall (fun x => value_finite x = true) finite) as Hfin by apply filter_all.
  split; [rewrite length_map, length_firstn; lia|]. split.
  - apply Forall_forall. intros t Ht.
    apply in_map_iff in Ht as [x [<- Hx]].
    apply firstn_subset in Hx.
    apply (sort_dom by_magnitude_desc) in Hfin. rewrite Forall_forall in Hfin.
    specialize (Hfin x Hx). unfold value_finite in Hfin.
    unfold well_signed, classify. cbn [shap direction].
    destruct (sv_shap x) as [q| | |]; try discriminate.
    exists q. split; reflexivity.
  - apply sorted_map, sorted_firstn.
    apply (sort_sorted by_magnitude_desc value_magnitude
             (fun x => value_finite x = true)); [|exact Hfin].
    apply before_value_magnitude.
Qed.

Lemma summarize_shape (p : RiskPredictionHistoryRow)
  (answer : Answer (list ShapExplanationsRow)) (sm : ShapSummary) :
  summarize JSON_parse Number names p answer = Exn.Normal sm ->
  summary_supplier_id sm = supplier_id p
  /\ summary_prediction_date sm = prediction_date p
  /\ List.length (top_features sm) <= 3
  /\ Forall well_signed (top_features sm)
  /\ StronglySorted (key_desc feature_magnitude) (top_features sm).
Proof.
  unfold summarize. destruct (error answer); [discriminate|].
  destruct (parseShapValues JSON_parse _) as [shapDict | e]; cbn [Exn.bind];
    [|discriminate].
  destruct (rank_top3 Number shapDict) as [top | e] eqn:Htop; cbn [Exn.bind];
    [|discriminate].
  intros [= <-]. cbn. split; [reflexivity|]. split; [reflexivity|].
  now apply rank_top3_shape with (shapDict := shapDict).
Qed.

Lemma summarize_all_shape (latest3 : list RiskPredictionHistoryRow) :
  forall summaries,
    summarize_all JSON_parse Number names shapQuery latest3 = Exn.Normal summaries ->
    map summary_supplier_id summaries = map supplier_id latest3
    /\ Forall (fun sm => List.length (top_features sm) <= 3
                         /\ Forall well_signed (top_features sm)
                         /\ StronglySorted (key_desc feature_magnitude)
                              (top_features sm)) summaries.
Proof.
  induction latest3 as [|p rest IH]; intros summaries; simpl.
  - intros [= <-]. split; [reflexivity | constructor].
  - destruct (summarize JSON_parse Number names p (shapQuery p)) as [sm | e] eqn:Hsm;
      cbn [Exn.bind]; [|discriminate].
    destruct (summarize_all JSON_parse Number names shapQuery rest) as [sms | e];
      cbn [Exn.bind]; [|discriminate].
    intros [= <-]. destruct (IH sms eq_refl) as [Hids Hall].
    destruct (summarize_shape _ _ _ Hsm) as (Hid & _ & Hshape).
    split; [simpl; now rewrite Hid, Hids|]. now constructor.
Qed.

Lemma summarize_decoded_null (p : RiskPredictionHistoryRow) (s : string) :
  explained_by_text shapQuery p s ->
  s <> "" ->
  JSON_parse s = Exn.Normal JNull ->
  summarize JSON_parse Number names p (shapQuery p)
  = Exn.Thrown (Exn.TypeError "Cannot convert undefined or null to object").
Proof.
  intros (r & rows & Hq & Hr) Hne Hparse. rewrite Hq.
  unfold summarize. cbn [answered error data nullish]. rewrite Hr.
  unfold parseShapValues. cbn [truthy].
  apply String.eqb_neq in Hne. rewrite Hne. cbn [negb].
  rewrite Hparse. reflexivity.
Qed.

Lemma summarize_all_aborts (latest3 : list RiskPredictionHistoryRow)
  (p : RiskPredictionHistoryRow) :
  In p latest3 ->
  (exists e, summarize JSON_parse Number names p (shapQuery p) = Exn.Thrown e) ->
  exists e, summarize_all JSON_parse Number names shapQuery latest3 = Exn.Thrown e.
Proof.
  intros Hin [e He]. induction latest3 as [|q rest IH]; [contradiction|].
  simpl. destruct Hin as [-> | Hin].
  - rewrite He. now eexists.
  - destruct (summarize JSON_parse Number names q (shapQuery q)); cbn [Exn.bind];
      [|now eexists].
    destruct (IH Hin) as [e' ->]. now eexists.
Qed.

End SummaryFacts.

(** X17.  When the summaries of the latest predictions complete, there is
    one summary per prediction, in the same order and for the same
    supplier; each holds at most three features, every one with a finite
    value and the direction of its sign, in descending order of
    magnitude. *)
Theorem summaries_are_well_formed :
  forall (JSON_parse : string -> Exn.completion json) (Number : json -> Js.jsnum)
         (preds : Answer (list RiskPredictionHistoryRow))
         (profiles : list SupplierProfile)
         (shapQuery : RiskPredictionHistoryRow -> Answer (list ShapExplanationsRow))
         (summaries : list ShapSummary),
    getLatest3ShapSummaries JSON_parse Number preds profiles shapQuery
    = Exn.Normal summaries ->
    map summary_supplier_id summaries = map supplier_id (nullish (data preds) [])
    /\ Forall (fun sm => List.length (top_features sm) <= 3
                         /\ Forall well_signed (top_features sm)
                         /\ StronglySorted (key_desc feature_magnitude)
                              (top_features sm)) summaries.
Proof.
  intros JSON_parse Number preds profiles shapQuery summaries.
  unfold getLatest3ShapSummaries. destruct (error preds); [discriminate|].
  apply summarize_all_shape.
Qed.

(** X18.  One explanation can take all summaries down: when the payload of
    any of the latest predictions is a non-empty text that the JSON parser
    reads as [null], the whole call throws instead of answering, although
    the decoder itself completed. *)
Theorem null_payload_aborts_all_summaries :
  forall (JSON_parse : string -> Exn.completion json) (Number : json -> Js.jsnum)
         (preds : Answer (list RiskPredictionHistoryRow))
         (profiles : list SupplierProfile)
         (shapQuery : RiskPredictionHistoryRow -> Answer (list ShapExplanationsRow))
         (p : RiskPredictionHistoryRow) (s : string),
    In p (nullish (data preds) []) ->
    explained_by_text shapQuery p s ->
    s <> "" ->
    JSON_parse s = Exn.Normal JNull ->
    (exists v, parseShapValues JSON_parse (JStr s) = Exn.Normal v)
    /\ exists e,
         getLatest3ShapSummaries JSON_parse Number preds profiles shapQuery
         = Exn.Thrown e.
Proof.
  intros JSON_parse Number preds profiles shapQuery p s Hin Hexp Hne Hparse.
  split; [apply parseShapValues_total|].
  unfold getLatest3ShapSummaries. destruct (error preds) as [msg|]; [now eexists|].
  apply summarize_all_aborts with (p := p); [exact Hin|].
  eexists. now apply summarize_decoded_null with (s := s).
Qed.

(* ================================================================== *)
(** * Distinct values and their default order *)
(* ================================================================== *)

Section DistinctFacts.

Lemma existsb_eqb_In (x : string) (s : list string) :
  existsb (String.eqb x) s = true <-> In x s.
Proof.
  rewrite existsb_exists. split.
  - intros [y [Hy He]]. apply String.eqb_eq in He. now subst.
  - intros H. exists x. split; [exact H | apply String.eqb_refl].
Qed.

Lemma set_add_spec (s : list string) (x : string) :
  NoDup s ->
  NoDup (set_add s x) /\ forall y, In y (set_add s x) <-> In y s \/ y = x.
Proof.
  intros Hnd. unfold set_add.
  destruct (existsb (String.eqb x) s) eqn:E.
  - apply existsb_eqb_In in E. split; [exact Hnd|].
    intros y. split; [tauto | intros [H | ->]; assumption].
  - split.
    + apply NoDup_snoc; [exact Hnd|]. intros Hin.
      apply existsb_eqb_In in Hin. congruence.
    + intros y. rewrite in_app_iff. simpl. split.
      * intros [H | [H | []]]; [now left | now right].
      * intros [H | ->]; [now left | right; now left].
Qed.

(** A loop that adds to a set the value [f] finds in each row. *)
Lemma fold_set_add {R : Type} (f : R -> option string) (rows : list R) :
  forall s,
    NoDup s ->
    let step set row := match f row with Some v => set_add set v | None => set end in
    NoDup (fold_left step rows s)
    /\ forall y, In y (fold_left step rows s) <->
                 In y s \/ exists row, In row rows /\ f row = Some y.
Proof.
  induction rows as [|row rows IH]; intros s Hnd step; simpl.
  - split; [exact Hnd|]. intros y. split; [tauto|].
    intros [H | [row [[] _]]]. exact H.
  - assert (NoDup (step s row)
            /\ forall y, In y (step s row) <-> In y s \/ f row = Some y) as [Hnd' Hin'].
    { unfold step. destruct (f row) as [v|] eqn:E.
      - destruct (set_add_spec s v Hnd) as [H1 H2]. split; [exact H1|].
        intros y. rewrite H2. split; intros [H | H]; auto; right; congruence.
      - split; [exact Hnd|]. intros y. split; [tauto|].
        intros [H | H]; [exact H | discriminate]. }
    destruct (IH (step s row) Hnd') as [H1 H2]. split; [exact H1|].
    intros y. fold step in H2. rewrite H2, Hin'. split.
    + intros [[H | H] | [r [Hr Hf]]]; [now left | right | right];
        [exists row | exists r]; tauto.
    + intros [H | [r [[<- | Hr] Hf]]]; [tauto | tauto |].
      right. exists r. tauto.
Qed.

Lemma add_string_prop_step (k : string) (set : list string) (row : json) :
  add_string_prop k set row
  = match text_prop k row with Some v => set_add set v | None => set end.
Proof.
  unfold add_string_prop, text_prop.
  destruct (row_prop row k) as [[]|]; reflexivity.
Qed.

Lemma add_nonblank_prop_step (k : string) (set : list string) (row : json) :
  add_nonblank_prop k set row
  = match (match text_prop k row with
           | Some v => if nonblank v then Some v else None
           | None => None
           end) with
    | Some v => set_add set v
    | None => set
    end.
Proof.
  unfold add_nonblank_prop, text_prop, nonblank.
  destruct (row_prop row k) as [[]|]; try reflexivity.
  now destruct (String.eqb (Js.trim s) "").
Qed.

Lemma fold_left_ext {A B : Type} (f g : A -> B -> A) (l : list B) :
  (forall a b, f a b = g a b) -> forall a, fold_left f l a = fold_left g l a.
Proof.
  intros H. induction l as [|b l IH]; intros a; simpl; [reflexivity|].
  now rewrite H, IH.
Qed.

Lemma text_props_In (k : string) (rows : list json) (y : string) :
  In y (text_props k rows) <-> exists row, In row rows /\ text_prop k row = Some y.
Proof.
  unfold text_props. rewrite in_flat_map. split.
  - intros [row [Hr Hy]]. exists row. split; [exact Hr|].
    destruct (text_prop k row); simpl in Hy; [|contradiction].
    destruct Hy as [-> | []]. reflexivity.
  - intros [row [Hr Hy]]. exists row. split; [exact Hr|]. rewrite Hy. now left.
Qed.

(** The set of text values of a property, as the loops build it. *)
Lemma string_set_spec (k : string) (rows : list json) :
  NoDup (fold_left (add_string_prop k) rows [])
  /\ forall y, In y (fold_left (add_string_prop k) rows []) <->
               In y (text_props k rows).
Proof.
  rewrite (fold_left_ext _ _ rows (add_string_prop_step k)).
  destruct (fold_set_add (text_prop k) rows [] (NoDup_nil _)) as [H1 H2].
  split; [exact H1|]. intros y. rewrite H2, text_props_In. simpl. tauto.
Qed.

Lemma nonblank_set_spec (k : string) (rows : list json) :
  NoDup (fold_left (add_nonblank_prop k) rows [])
  /\ forall y, In y (fold_left (add_nonblank_prop k) rows []) <->
               In y (text_props k rows) /\ nonblank y = true.
Proof.
  rewrite (fold_left_ext _ _ rows (add_nonblank_prop_step k)).
  destruct (fold_set_add
              (fun row => match text_prop k row with
                          | Some v => if nonblank v then Some v else None
                          | None => None
                          end) rows [] (NoDup_nil _)) as [H1 H2].
  split; [exact H1|]. intros y. rewrite H2, text_props_In. simpl. split.
  - intros [[] | [row [Hr Hf]]]. destruct (text_prop k row) as [v|] eqn:E;
      [|discriminate].
    destruct (nonblank v) eqn:Nb; [|discriminate]. injection Hf as <-.
    split; [|exact Nb]. exists row. tauto.
  - intros [[row [Hr Hf]] Nb]. right. exists row. split; [exact Hr|].
    now rewrite Hf, Nb.
Qed.

(** *** The default order *)

Lemma before_default (a b : string) :
  Js.before default_compare a b
  = match String.compare a b with Gt => false | _ => true end.
Proof.
  unfold Js.before, default_compare. now destruct (String.compare a b).
Qed.

Lemma code_unit_le_cases (a b : string) :
  code_unit_le a b <-> code_unit_lt a b \/ a = b.
Proof.
  unfold code_unit_le, code_unit_lt.
  destruct (String.compare a b) eqn:E.
  - apply String_as_OT.cmp_eq in E. split; [now right | discriminate].
  - apply String_as_OT.cmp_lt in E. split; [now left | discriminate].
  - split; [congruence|]. intros [H | H].
    + apply String_as_OT.cmp_lt in H. unfold String_as_OT.cmp in H. congruence.
    + apply String_as_OT.cmp_eq in H. unfold String_as_OT.cmp in H. congruence.
Qed.

Lemma code_unit_le_trans (a b c : string) :
  code_unit_le a b -> code_unit_le b c -> code_unit_le a c.
Proof.
  rewrite !code_unit_le_cases. intros [H1 | ->] [H2 | ->]; auto.
  left. exact (String_as_OT.lt_trans _ _ _ H1 H2).
Qed.

Lemma code_unit_le_total (a b : string) :
  ~ code_unit_le a b -> code_unit_le b a.
Proof.
  unfold code_unit_le. intros H.
  destruct (String.compare a b) eqn:E; try (exfalso; apply H; discriminate).
  pose proof (String_as_OT.cmp_antisym b a) as Ha.
  unfold String_as_OT.cmp in Ha. rewrite E in Ha. simpl in Ha.
  rewrite Ha. discriminate.
Qed.

Lemma insert_default_sorted (a : string) (l : list string) :
  StronglySorted code_unit_le l ->
  StronglySorted code_unit_le (Js.insert default_compare a l).
Proof.
  induction 1 as [|b l Hs IH Hall]; simpl.
  - repeat constructor.
  - rewrite before_default.
    destruct (String.compare a b) eqn:E.
    + constructor; [now constructor|]. constructor.
      * unfold code_unit_le. rewrite E. discriminate.
      * rewrite Forall_forall in *. intros x Hx.
        apply code_unit_le_trans with b; [|now apply Hall].
        unfold code_unit_le. rewrite E. discriminate.
    + constructor; [now constructor|]. constructor.
      * unfold code_unit_le. rewrite E. discriminate.
      * rewrite Forall_forall in *. intros x Hx.
        apply code_unit_le_trans with b; [|now apply Hall].
        unfold code_unit_le. rewrite E. discriminate.
    + constructor; [exact IH|].
      rewrite Forall_forall in *. intros x Hx.
      apply (Permutation_in _ (Permutation_sym (insert_perm default_compare a l))) in Hx.
      destruct Hx as [<- | Hx]; [|now apply Hall].
      apply code_unit_le_total. unfold code_unit_le. rewrite E. tauto.
Qed.

Lemma sorted_values_spec (set : list string) :
  NoDup set ->
  StronglySorted code_unit_lt (sorted_values set)
  /\ Permutation set (sorted_values set).
Proof.
  intros Hnd. unfold sorted_values.
  pose proof (sort_perm default_compare set) as Hperm.
  split; [|exact Hperm].
  assert (StronglySorted code_unit_le (Js.sort default_compare set)) as Hs.
  { clear. induction set as [|a set IH]; simpl; [constructor|].
    now apply insert_default_sorted. }
  assert (NoDup (Js.sort default_compare set)) as Hnd'
    by (eapply Permutation_NoDup; eassumption).
  clear Hperm. induction Hs as [|a l Hs IH Hall]; constructor.
  - apply IH. now inversion Hnd'.
  - inversion Hnd' as [|? ? Hnotin _]; subst.
    rewrite Forall_forall in *. intros x Hx.
    destruct (proj1 (code_unit_le_cases a x) (Hall x Hx)) as [H | ->];
      [exact H | contradiction].
Qed.

End DistinctFacts.

(** X19.  The supplier total is the number of distinct text ids among the
    rows of the answer: an id is counted once however often it occurs, rows
    whose id is missing or not text are ignored, and an answer without data
    counts 0; a store error is thrown on with its message. *)
Theorem total_suppliers_counts_distinct_ids :
  forall (rows : list json),
    getTotalSuppliers (answered rows)
    = Exn.Normal (List.length (nodup string_dec (text_props "supplier_id" rows)))
    /\ getTotalSuppliers {| data := None; error := None; count := None |}
       = Exn.Normal 0
    /\ forall msg d c,
         getTotalSuppliers {| data := d; error := Some msg; count := c |}
         = Exn.Thrown
             (Exn.Error
                ("Failed to fetch supplier_risk_master for supplier count: " ++ msg)).
Proof.
  intros rows. split; [|split; reflexivity].
  unfold getTotalSuppliers, answered. cbn [error data nullish]. f_equal.
  destruct (string_set_spec "supplier_id" rows) as [Hnd Hin].
  apply Permutation_length, NoDup_Permutation;
    [exact Hnd | apply NoDup_nodup |].
  intros y. now rewrite nodup_In, Hin.
Qed.

(** X20.  The supplier ids offered by the explanation page are exactly the
    text ids that occur in the answer, each once, in strictly ascending
    code-unit order. *)
Theorem shap_supplier_ids_sorted_distinct :
  forall (rows : list json),
    exists ids,
      getShapSupplierIds (answered rows) = Exn.Normal ids
      /\ StronglySorted code_unit_lt ids
      /\ forall id, In id ids <-> In id (text_props "supplier_id" rows).
Proof.
  intros rows. eexists. split; [reflexivity|].
  cbn [answered data nullish].
  destruct (string_set_spec "supplier_id" rows) as [Hnd Hin].
  destruct (sorted_values_spec _ Hnd) as [Hs Hp]. split; [exact Hs|].
  intros id. rewrite <- Hin. split; apply Permutation_in; [symmetry|]; exact Hp.
Qed.

(** X21.  Each of the three filter lists starts with "All" and goes on with
    the distinct values found in the answer, in strictly ascending code-unit
    order: every text supplier id, and every risk category and industry
    segment that is text and more than white space (kept untrimmed).  The
    row total is the store's count, or the number of rows when the store
    gives none. *)
Theorem filter_options_sorted_distinct :
  forall (rows : list json) (cnt : option nat),
    exists ids cats segs,
      getRiskMasterFilterOptions {| data := Some rows; error := None; count := cnt |}
      = Exn.Normal
          {| supplierIds := "All" :: ids; riskCategories := "All" :: cats;
             industrySegments := "All" :: segs;
             totalRows := nullish cnt (List.length rows) |}
      /\ StronglySorted code_unit_lt ids
      /\ StronglySorted code_unit_lt cats
      /\ StronglySorted code_unit_lt segs
      /\ (forall v, In v ids <-> In v (text_props "supplier_id" rows))
      /\ (forall v, In v cats <->
            In v (text_props "risk_category" rows) /\ nonblank v = true)
      /\ (forall v, In v segs <->
            In v (text_props "industry_segment" rows) /\ nonblank v = true).
Proof.
  intros rows cnt.
  assert (forall sets,
    fold_left collect_options rows sets
    = {| set_suppliers := fold_left (add_string_prop "supplier_id") rows (set_suppliers sets);
         set_categories := fold_left (add_nonblank_prop "risk_category") rows (set_categories sets);
         set_segments := fold_left (add_nonblank_prop "industry_segment") rows (set_segments sets) |})
    as Hfold.
  { induction rows as [|row rows IH]; intros sets; simpl; [now destruct sets|].
    rewrite IH. reflexivity. }
  do 3 eexists. split.
  { unfold getRiskMasterFilterOptions. cbn [error data count nullish].
    rewrite Hfold. cbn [set_suppliers set_categories set_segments]. reflexivity. }
  destruct (string_set_spec "supplier_id" rows) as [Hnd1 Hin1].
  destruct (nonblank_set_spec "risk_category" rows) as [Hnd2 Hin2].
  destruct (nonblank_set_spec "industry_segment" rows) as [Hnd3 Hin3].
  destruct (sorted_values_spec _ Hnd1) as [Hs1 Hp1].
  destruct (sorted_values_spec _ Hnd2) as [Hs2 Hp2].
  destruct (sorted_values_spec _ Hnd3) as [Hs3 Hp3].
  split; [exact Hs1|]. split; [exact Hs2|]. split; [exact Hs3|].
  split; [|split]; intros v.
  - rewrite <- Hin1. split; apply Permutation_in; [symmetry|]; exact Hp1.
  - rewrite <- Hin2. split; apply Permutation_in; [symmetry|]; exact Hp2.
  - rewrite <- Hin3. split; apply Permutation_in; [symmetry|]; exact Hp3.
Qed.

(* ================================================================== *)
(** * Pages *)
(* ================================================================== *)

Section PageFacts2.

Context {A : Type}.

Lemma firstn_plus (a b : nat) : forall l : list A,
  firstn (a + b) l = firstn a l ++ firstn b (skipn a l).
Proof.
  induction a as [|a IH]; intros l; simpl; [reflexivity|].
  destruct l as [|x l]; simpl.
  - now rewrite firstn_nil.
  - now rewrite IH.
Qed.

(** Consecutive windows of one size tile the list. *)
Lemma windows_tile (n : nat) (l : list A) (k : nat) :
  flat_map (fun i => firstn n (skipn (i * n) l)) (seq 0 k) = firstn (k * n) l.
Proof.
  induction k as [|k IH]; [reflexivity|].
  rewrite seq_S, flat_map_app, IH. simpl. rewrite app_nil_r.
  replace (n + k * n) with (k * n + n) by lia. now rewrite firstn_plus.
Qed.

Lemma window_of_page (lo hi : Z) (argSize : Z) (i : nat) (l : list A) :
  (0 < lo)%Z -> (lo <= hi)%Z ->
  let size := clamp lo hi argSize in
  let page := Z.max 1 (Z.of_nat i + 1) in
  let from := ((page - 1) * size)%Z in
  let to := (from + size - 1)%Z in
  firstn (Z.to_nat (to - from + 1)) (skipn (Z.to_nat from) l)
  = firstn (Z.to_nat size) (skipn (i * Z.to_nat size) l).
Proof.
  intros Hlo Hhi size page from to.
  assert (0 < size)%Z as Hsize by (unfold size, clamp; lia).
  replace (to - from + 1)%Z with size by (unfold to; lia).
  replace (Z.to_nat from) with (i * Z.to_nat size); [reflexivity|].
  unfold from, page. replace (Z.max 1 (Z.of_nat i + 1) - 1)%Z with (Z.of_nat i) by lia.
  rewrite Z2Nat.inj_mul by lia. now rewrite Nat2Z.id.
Qed.

End PageFacts2.


(** X23.  The pager of the supplier page, for a row total of at least 0
    and a positive page size: there is at least one page; the pages cover
    all rows, and when there are rows the last page is not empty; the page
    shown lies between 1 and the number of pages, and is the requested page
    whenever that is in range. *)
Theorem pager_covers_all_rows :
  forall (total pageSize page : Z),
    (0 <= total)%Z -> (0 < pageSize)%Z ->
    let pages := SupplierRiskMasterPage.totalPages total pageSize in
    (1 <= pages)%Z
    /\ (total <= pages * pageSize)%Z
    /\ ((0 < total)%Z -> ((pages - 1) * pageSize < total)%Z)
    /\ (1 <= SupplierRiskMasterPage.safePage page pages <= pages)%Z
    /\ ((1 <= page <= pages)%Z -> SupplierRiskMasterPage.safePage page pages = page).
Proof.
  intros total pageSize page Htotal Hsize pages.
  set (x := (inject_Z total / inject_Z pageSize)%Q).
  assert (0 < inject_Z pageSize)%Q as Hps by (rewrite <- (Zlt_Qlt 0); exact Hsize).
  assert (x * inject_Z pageSize == inject_Z total)%Q as Hx.
  { unfold x. field. intros H. rewrite H in Hps. discriminate. }
  assert (total <= Qceiling x * pageSize)%Z as Hup.
  { rewrite Zle_Qle, inject_Z_mult, <- Hx.
    apply Qmult_le_compat_r; [apply Qle_ceiling | now apply Qlt_le_weak]. }
  assert ((Qceiling x - 1) * pageSize < total)%Z as Hlow.
  { rewrite Zlt_Qlt, inject_Z_mult, <- Hx.
    apply Qmult_lt_r; [exact Hps | apply Qceiling_lt]. }
  unfold pages, SupplierRiskMasterPage.totalPages, SupplierRiskMasterPage.safePage.
  fold x.
  split; [lia|]. split; [nia|]. split; [intros Hpos; nia|].
  split; lia.
Qed.

(* ================================================================== *)
(** * Letter case, separators and blanks *)
(* ================================================================== *)

Section StringFacts.

Ltac by_cases c := destruct c as [[|] [|] [|] [|] [|] [|] [|] [|]]; reflexivity.

Lemma lower_upper_char (c : ascii) : Js.lower_char (Js.upper_char c) = Js.lower_char c.
Proof. by_cases c. Qed.

Lemma lower_lower_char (c : ascii) : Js.lower_char (Js.lower_char c) = Js.lower_char c.
Proof. by_cases c. Qed.

Lemma lower_char_underscore (c : ascii) :
  Ascii.eqb (Js.lower_char c) "_" = Ascii.eqb c "_".
Proof. by_cases c. Qed.


Lemma toLowerCase_upper (s : string) :
  Js.toLowerCase (Js.upper_ascii s) = Js.toLowerCase s.
Proof.
  induction s as [|c s IH]; simpl; [reflexivity|].
  now rewrite lower_upper_char, IH.
Qed.

Lemma toLowerCase_idem (s : string) :
  Js.toLowerCase (Js.toLowerCase s) = Js.toLowerCase s.
Proof.
  induction s as [|c s IH]; simpl; [reflexivity|].
  now rewrite lower_lower_char, IH.
Qed.

Lemma toLowerCase_app (s t : string) :
  Js.toLowerCase (s ++ t) = (Js.toLowerCase s ++ Js.toLowerCase t)%string.
Proof.
  induction s as [|c s IH]; simpl; [reflexivity | now rewrite IH].
Qed.

Lemma toLowerCase_length (s : string) :
  String.length (Js.toLowerCase s) = String.length s.
Proof.
  induction s as [|c s IH]; simpl; [reflexivity | now rewrite IH].
Qed.

Lemma replaceAll_length (s : string) (a b : ascii) :
  String.length (Js.replaceAll s a b) = String.length s.
Proof.
  induction s as [|c s IH]; simpl; [reflexivity | now rewrite IH].
Qed.

Lemma replaceAll_lower (s : string) :
  Js.replaceAll (Js.toLowerCase s) "_" " "
  = Js.toLowerCase (Js.replaceAll s "_" " ").
Proof.
  induction s as [|c s IH]; simpl; [reflexivity|].
  rewrite IH, lower_char_underscore.
  now destruct (Ascii.eqb c "_").
Qed.

Lemma replaceAll_idem (s : string) :
  Js.replaceAll (Js.replaceAll s "_" " ") "_" " " = Js.replaceAll s "_" " ".
Proof.
  induction s as [|c s IH]; simpl; [reflexivity|].
  rewrite IH. destruct (Ascii.eqb c "_") eqn:E; [reflexivity | now rewrite E].
Qed.

Lemma has_underscore_lower (s : string) :
  has_char "_" (Js.toLowerCase s) = has_char "_" s.
Proof.
  induction s as [|c s IH]; simpl; [reflexivity|].
  now rewrite IH, lower_char_underscore.
Qed.

Lemma replaceAll_no_underscore (s : string) :
  has_char "_" (Js.replaceAll s "_" " ") = false.
Proof.
  induction s as [|c s IH]; simpl; [reflexivity|].
  rewrite IH. destruct (Ascii.eqb c "_") eqn:E; [reflexivity | now rewrite E].
Qed.

(** *** Words *)

Lemma split_not_nil (s : string) (sep : ascii) : Js.split s sep <> [].
Proof.
  destruct s as [|c s]; simpl; [discriminate|].
  destruct (Ascii.eqb c sep); [discriminate|].
  destruct (Js.split s sep); discriminate.
Qed.

Lemma concat_cons2 (sep w w' : string) (ws : list string) :
  String.concat sep (w :: w' :: ws)
  = (w ++ sep ++ String.concat sep (w' :: ws))%string.
Proof. reflexivity. Qed.

Lemma join_split (s : string) (sep : ascii) :
  Js.join (Js.split s sep) (String sep EmptyString) = s.
Proof.
  unfold Js.join. induction s as [|c s IH]; [reflexivity|].
  cbn [Js.split]. pose proof (split_not_nil s sep) as Hnn.
  destruct (Js.split s sep) as [|w ws]; [contradiction|].
  destruct (Ascii.eqb c sep) eqn:E.
  - apply Ascii.eqb_eq in E. subst c.
    rewrite concat_cons2, IH. reflexivity.
  - destruct ws as [|w' ws].
    + cbn [String.concat] in *. now rewrite IH.
    + rewrite concat_cons2 in *. cbn [append] in *. now rewrite IH.
Qed.

Lemma toLowerCase_concat (sep : string) (l : list string) :
  Js.toLowerCase (String.concat sep l)
  = String.concat (Js.toLowerCase sep) (map Js.toLowerCase l).
Proof.
  induction l as [|w l IH]; [reflexivity|].
  destruct l as [|w' l]; [reflexivity|].
  change (String.concat sep (w :: w' :: l))
    with (w ++ sep ++ String.concat sep (w' :: l))%string.
  rewrite !toLowerCase_app, IH. reflexivity.
Qed.

Lemma capitalise_lower (word : string) :
  Js.toLowerCase (Js.upper_ascii (Js.charAt0 word) ++ Js.slice1 word)
  = Js.toLowerCase word.
Proof.
  destruct word as [|c w]; simpl; [reflexivity|].
  now rewrite lower_upper_char.
Qed.

Lemma capitalise_ascii (word : string) :
  Js.is_ascii word = true ->
  ShapPage.capitalise word
  = Some (Js.upper_ascii (Js.charAt0 word) ++ Js.slice1 word)%string.
Proof.
  intros H. unfold ShapPage.capitalise, Js.toUpperCase.
  destruct word as [|c w]; [reflexivity|].
  cbn [Js.is_ascii] in H. apply andb_true_iff in H as [Hc _].
  cbn [Js.charAt0 Js.is_ascii]. now rewrite Hc.
Qed.

Lemma replaceAll_ascii (s : string) :
  Js.is_ascii s = true -> Js.is_ascii (Js.replaceAll s "_" " ") = true.
Proof.
  induction s as [|c s IH]; [reflexivity|].
  cbn [Js.is_ascii Js.replaceAll]. intros H.
  apply andb_true_iff in H as [Hc Hs]. rewrite (IH Hs), andb_true_r.
  destruct (Ascii.eqb c "_"); [reflexivity | exact Hc].
Qed.

Lemma split_ascii (s : string) (sep : ascii) :
  Js.is_ascii s = true ->
  Forall (fun w => Js.is_ascii w = true) (Js.split s sep).
Proof.
  induction s as [|c s IH]; intros H.
  - constructor; [reflexivity | constructor].
  - cbn [Js.is_ascii] in H. apply andb_true_iff in H as [Hc Hs].
    specialize (IH Hs). cbn [Js.split].
    destruct (Ascii.eqb c sep).
    + constructor; [reflexivity | exact IH].
    + destruct (Js.split s sep) as [|w ws].
      * constructor; [|constructor]. cbn [Js.is_ascii]. now rewrite Hc.
      * inversion IH as [|? ? Hw Hws]; subst.
        constructor; [|exact Hws]. cbn [Js.is_ascii]. now rewrite Hc, Hw.
Qed.

Lemma map_all_total {A B : Type} (f : A -> option B) (g : A -> B) (l : list A) :
  Forall (fun a => f a = Some (g a)) l -> ShapPage.map_all f l = Some (map g l).
Proof.
  induction 1 as [|a l Ha _ IH]; [reflexivity|].
  cbn [ShapPage.map_all map]. now rewrite Ha, IH.
Qed.

(** On an ASCII name every word is capitalised. *)
Lemma prettyFeature_ascii (name : string) :
  Js.is_ascii name = true ->
  ShapPage.prettyFeature name
  = Some
      (Js.join
         (map (fun word => (Js.upper_ascii (Js.charAt0 word) ++ Js.slice1 word)%string)
            (Js.split (Js.replaceAll name "_" " ") " "))
         " ").
Proof.
  intros H. unfold ShapPage.prettyFeature.
  rewrite (map_all_total ShapPage.capitalise
             (fun word => (Js.upper_ascii (Js.charAt0 word) ++ Js.slice1 word)%string));
    [reflexivity|].
  eapply Forall_impl; [|apply split_ascii, replaceAll_ascii, H].
  intros w Hw. now apply capitalise_ascii.
Qed.

Lemma capitalised_lower (name : string) :
  Js.toLowerCase
    (Js.join
       (map (fun word => (Js.upper_ascii (Js.charAt0 word) ++ Js.slice1 word)%string)
          (Js.split (Js.replaceAll name "_" " ") " "))
       " ")
  = Js.toLowerCase (Js.replaceAll name "_" " ").
Proof.
  unfold Js.join.
  rewrite toLowerCase_concat, map_map.
  rewrite (map_ext _ Js.toLowerCase) by (intros w; apply capitalise_lower).
  rewrite <- (toLowerCase_concat " ").
  change (String.concat " " (Js.split (Js.replaceAll name "_" " ") " "))
    with (Js.join (Js.split (Js.replaceAll name "_" " ") " ") " ").
  now rewrite join_split.
Qed.

(** *** Blanks *)

Lemma trimEnd_blank (s : string) : Js.trimEnd (s ++ " ") = Js.trimEnd s.
Proof.
  induction s as [|c s IH]; [reflexivity|].
  cbn [append Js.trimEnd]. now rewrite IH.
Qed.

Lemma trimStart_blank (s : string) :
  Js.trimStart (s ++ " ")
  = match Js.trimStart s with
    | EmptyString => EmptyString
    | t => (t ++ " ")%string
    end.
Proof.
  induction s as [|c s IH]; [reflexivity|].
  cbn [append Js.trimStart]. destruct (Js.is_space c); [exact IH | reflexivity].
Qed.

Lemma trim_padded (s : string) : Js.trim (padded s) = Js.trim s.
Proof.
  unfold Js.trim, padded. cbn [append Js.trimStart].
  change (Js.is_space " ") with true. cbv iota.
  rewrite trimStart_blank.
  destruct (Js.trimStart s) as [|c t] eqn:E; [reflexivity|].
  apply trimEnd_blank.
Qed.


End StringFacts.

(** X24.  For a feature name of ASCII characters, the pretty name is the
    name with underscores turned into blanks and some letters capitalised,
    nothing else: it has the length of the name, contains no underscore,
    and in lower case it reads as the name does with blanks for
    underscores. *)
Theorem pretty_feature_only_recases :
  forall (name : string),
    Js.is_ascii name = true ->
    exists pretty,
      ShapPage.prettyFeature name = Some pretty
      /\ String.length pretty = String.length name
      /\ has_char "_" pretty = false
      /\ Js.toLowerCase pretty = Js.toLowerCase (Js.replaceAll name "_" " ").
Proof.
  intros name Hascii. eexists. split; [apply (prettyFeature_ascii name Hascii)|].
  pose proof (capitalised_lower name) as H.
  split; [|split; [|exact H]].
  - rewrite <- toLowerCase_length, H.
    now rewrite toLowerCase_length, replaceAll_length.
  - rewrite <- has_underscore_lower, H, has_underscore_lower.
    apply replaceAll_no_underscore.
Qed.

(** X25.  The badge of a label is the badge of the category the aggregator
    tallies the label under; and labels that differ only in letter case, in
    underscores for blanks, or in a blank added on either side are the same
    label to both. *)
Theorem badge_agrees_with_tally :
  forall (risk : option string),
    fst (RiskBadge.RiskBadge risk)
    = variant_of (label_category (normalizeRiskLabel risk))
    /\ forall s,
         normalizeRiskLabel (Some (Js.upper_ascii s)) = normalizeRiskLabel (Some s)
         /\ normalizeRiskLabel (Some (Js.toLowerCase s)) = normalizeRiskLabel (Some s)
         /\ normalizeRiskLabel (Some (Js.replaceAll s "_" " "))
            = normalizeRiskLabel (Some s)
         /\ normalizeRiskLabel (Some (padded s)) = normalizeRiskLabel (Some s).
Proof.
  intros risk. split.
  - unfold RiskBadge.RiskBadge, label_category, normalizeRiskLabel, nullish.
    set (n := Js.trim _).
    destruct (String.eqb n "high") eqn:E1, (String.eqb n "high risk") eqn:E2;
      try reflexivity;
      try (apply String.eqb_eq in E1; subst n; rewrite E1 in *; discriminate);
      cbn [orb];
      destruct (String.eqb n "medium") eqn:E3, (String.eqb n "medium risk") eqn:E4;
      try reflexivity; cbn [orb];
      destruct (String.eqb n "low") eqn:E5, (String.eqb n "low risk") eqn:E6;
      reflexivity.
  - intros s. unfold normalizeRiskLabel, nullish.
    split; [now rewrite toLowerCase_upper|].
    split; [now rewrite toLowerCase_idem|].
    split; [now rewrite <- replaceAll_lower, replaceAll_idem|].
    unfold padded. rewrite !toLowerCase_app. cbn [Js.toLowerCase].
    change (Js.lower_char " ") with " "%char.
    assert (forall a b, Js.replaceAll (a ++ b) "_" " "
                        = (Js.replaceAll a "_" " " ++ Js.replaceAll b "_" " ")%string)
      as Happ.
    { intros a b. induction a as [|c a IH]; simpl; [reflexivity | now rewrite IH]. }
    change (String " " (Js.toLowerCase s ++ " "))%string
      with (" " ++ (Js.toLowerCase s ++ " "))%string.
    rewrite !Happ. cbn [Js.replaceAll]. change (Ascii.eqb " " "_") with false.
    cbv iota. apply (trim_padded (Js.replaceAll (Js.toLowerCase s) "_" " ")).
Qed.

(* ================================================================== *)
(** * The CSV export read back *)
(* ================================================================== *)

Section CsvFacts.

Import ExportRoute.

Lemma append_nil_r (s : string) : (s ++ "")%string = s.
Proof. induction s as [|c s IH]; simpl; [reflexivity | now rewrite IH]. Qed.

Lemma append_assoc (s t u : string) :
  ((s ++ t) ++ u)%string = (s ++ (t ++ u))%string.
Proof. induction s as [|c s IH]; simpl; [reflexivity | now rewrite IH]. Qed.

Lemma snoc_append (cur : string) (c : ascii) (v : string) :
  (snoc cur c ++ v)%string = (cur ++ String c v)%string.
Proof. unfold snoc. now rewrite append_assoc. Qed.

Lemma plain_run (v : string) : forall cur fields recs rest,
  needs_quoting v = false ->
  csv_parse InPlain cur fields recs (v ++ rest)
  = csv_parse InPlain (cur ++ v) fields recs rest.
Proof.
  induction v as [|c v IH]; intros cur fields recs rest Hv.
  - now rewrite append_nil_r.
  - cbn [needs_quoting] in Hv.
    apply orb_false_iff in Hv as [Hc Hv].
    apply orb_false_iff in Hc as [Hc Hn].
    apply orb_false_iff in Hc as [Hq Hc].
    cbn [append csv_parse]. rewrite Hc, Hn, Hq.
    rewrite IH by exact Hv. now rewrite snoc_append.
Qed.

Lemma quoted_run (v : string) : forall cur fields recs rest,
  csv_parse InQuoted cur fields recs (double_quotes v ++ String quote rest)
  = csv_parse AfterQuote (cur ++ v) fields recs rest.
Proof.
  induction v as [|c v IH]; intros cur fields recs rest.
  - cbn [double_quotes append csv_parse]. rewrite Ascii.eqb_refl.
    now rewrite append_nil_r.
  - cbn [double_quotes]. destruct (Ascii.eqb c quote) eqn:E.
    + apply Ascii.eqb_eq in E. subst c.
      cbn [append csv_parse]. rewrite Ascii.eqb_refl.
      change (Ascii.eqb quote comma) with false.
      change (Ascii.eqb quote newline) with false. cbv iota.
      rewrite IH. now rewrite snoc_append.
    + cbn [append csv_parse]. rewrite E, IH. now rewrite snoc_append.
Qed.

Lemma close_from_any (m : csv_mode) (cur : string) fields recs (rest : string) :
  m <> InQuoted -> closes_field rest ->
  csv_parse m cur fields recs rest = csv_parse InPlain cur fields recs rest.
Proof.
  intros Hm Hrest. destruct rest as [|c rest]; [reflexivity|].
  destruct Hrest as [-> | ->]; destruct m; try contradiction; reflexivity.
Qed.

(** Reading one written cell. *)
Lemma read_cell (value : option string) fields recs (rest : string) :
  closes_field rest ->
  csv_parse AtStart EmptyString fields recs (csvEscape value ++ rest)
  = csv_parse InPlain (cell_text value) fields recs rest.
Proof.
  intros Hrest. unfold csvEscape. fold (cell_text value).
  destruct (needs_quoting (cell_text value)) eqn:E.
  - cbn [append csv_parse]. rewrite Ascii.eqb_refl.
    change (Ascii.eqb quote comma) with false.
    change (Ascii.eqb quote newline) with false. cbv iota.
    rewrite append_assoc. cbn [append].
    rewrite quoted_run. cbn [append].
    apply close_from_any; [discriminate | exact Hrest].
  - destruct (cell_text value) as [|c v] eqn:Ev.
    + cbn [append]. apply close_from_any; [discriminate | exact Hrest].
    + cbn [needs_quoting] in E.
      apply orb_false_iff in E as [Hc Hv].
      apply orb_false_iff in Hc as [Hc Hn].
      apply orb_false_iff in Hc as [Hq Hc].
      cbn [append csv_parse]. rewrite Hc, Hn, Hq.
      rewrite plain_run by exact Hv. reflexivity.
Qed.

Lemma read_line (cells : list (option string)) : forall v fields recs rest,
  closes_record rest ->
  csv_parse AtStart EmptyString fields recs (write_line (v :: cells) ++ rest)
  = after_record (fields ++ map cell_text (v :: cells)) recs rest.
Proof.
  unfold write_line, Js.join.
  induction cells as [|w cells IH]; intros v fields recs rest Hrest.
  - cbn [map String.concat]. rewrite read_cell.
    + destruct rest as [|c rest]; [reflexivity|].
      simpl in Hrest. subst c. reflexivity.
    + destruct rest as [|c rest]; [exact I | now right].
  - cbn [map]. rewrite concat_cons2, !append_assoc.
    rewrite read_cell by (now left).
    cbn [append csv_parse]. rewrite Ascii.eqb_refl.
    cbn [map] in IH. rewrite IH by exact Hrest.
    now rewrite <- app_assoc.
Qed.

Lemma read_lines (lines : list (list (option string))) : forall v cells recs,
  Forall (fun l => l <> []) lines ->
  csv_parse AtStart EmptyString [] recs
    (Js.join (map write_line ((v :: cells) :: lines)) (String newline EmptyString))
  = recs ++ map (map cell_text) ((v :: cells) :: lines).
Proof.
  unfold Js.join.
  induction lines as [|l lines IH]; intros v cells recs Hne.
  - cbn [map String.concat].
    rewrite <- (append_nil_r (write_line (v :: cells))).
    rewrite read_line by exact I. reflexivity.
  - inversion Hne as [|? ? Hl Hne']; subst.
    destruct l as [|w l]; [contradiction|].
    cbn [map]. rewrite concat_cons2.
    rewrite read_line by reflexivity.
    cbn [append after_record]. cbn [map] in IH. rewrite IH by exact Hne'.
    now rewrite <- app_assoc.
Qed.

Lemma toCsv_lines (first : Row) (rest : list Row) :
  toCsv (first :: rest)
  = Js.join
      (map write_line
         (map Some (map fst first)
          :: map (fun r => map (cell r) (map fst first)) (first :: rest)))
      (String newline EmptyString).
Proof.
  unfold toCsv, write_line. f_equal. cbn [map]. f_equal.
  - now rewrite !map_map.
  - f_equal; [now rewrite !map_map|].
    rewrite !map_map. apply map_ext. intros r. now rewrite !map_map.
Qed.

End CsvFacts.

(** X26.  The CSV export reads back as the table it was written from: for
    rows with at least one column, a reader of the usual convention finds
    the column names of the first row as the first record, and under them,
    for every row, the text of each cell (empty for a null or missing
    cell), whatever commas, double quotes and line feeds the names and the
    cells contain.  No rows give the empty text. *)
Theorem csv_export_reads_back :
  forall (rows : list ExportRoute.Row),
    (forall first rest, rows = first :: rest -> first <> []) ->
    (rows <> [] -> read_csv (ExportRoute.toCsv rows) = table_of rows)
    /\ (rows = [] -> ExportRoute.toCsv rows = EmptyString).
Proof.
  intros rows Hcols. split; [|now intros ->].
  intros Hne. destruct rows as [|first rest]; [contradiction|].
  specialize (Hcols first rest eq_refl).
  destruct first as [|[h0 v0] first]; [contradiction|].
  rewrite toCsv_lines. unfold read_csv, table_of.
  change (map Some (map fst ((h0, v0) :: first)))
    with (Some h0 :: map Some (map fst first)).
  rewrite (read_lines _ (Some h0) (map Some (map fst first)) []).
  - cbn [app map cell_text]. f_equal.
    + f_equal. rewrite map_map. apply map_id.
    + f_equal.
      * f_equal. now rewrite !map_map.
      * rewrite !map_map. apply map_ext. intros r.
        cbn [map]. f_equal. now rewrite !map_map.
  - apply Forall_forall. intros l Hl. apply in_map_iff in Hl as [r [<- _]].
    discriminate.
Qed.

(* ================================================================== *)
(** * Uploading a file *)
(* ================================================================== *)

Section UploadFacts.

Lemma required_columns_agree :
  UploadPage.REQUIRED_COLUMNS = UploadRoute.REQUIRED_COLUMNS.
Proof. reflexivity. Qed.

Lemma missing_columns_spec (fields : list string) (c : string) :
  In c (UploadPage.missing_columns (map Js.trim fields))
  <-> In c UploadRoute.REQUIRED_COLUMNS /\ ~ header_has fields c.
Proof.
  unfold UploadPage.missing_columns. rewrite filter_In, required_columns_agree.
  assert (existsb (String.eqb c) (map Js.trim fields) = true <-> header_has fields c)
    as Hh.
  { rewrite existsb_eqb_In, in_map_iff. unfold header_has. split.
    - intros [h [Ht Hi]]. exists h. tauto.
    - intros [h [Hi Ht]]. exists h. tauto. }
  destruct (existsb (String.eqb c) (map Js.trim fields)); simpl.
  - split; [intros [_ H]; discriminate | intros [_ H]; exfalso; apply H; now apply Hh].
  - split; intros [H _]; (split; [exact H|]); [|reflexivity].
    intros H'. apply Hh in H'. discriminate.
Qed.

Lemma missing_none_complete (fields : list string) :
  UploadPage.missing_columns (map Js.trim fields) = [] <-> complete_header fields.
Proof.
  split.
  - intros Hm c Hc.
    assert (existsb (String.eqb c) (map Js.trim fields) = true) as He.
    { destruct (existsb (String.eqb c) (map Js.trim fields)) eqn:E; [reflexivity|].
      assert (In c (UploadPage.missing_columns (map Js.trim fields))) as Hin.
      { unfold UploadPage.missing_columns. apply filter_In.
        rewrite required_columns_agree, E. now split. }
      rewrite Hm in Hin. destruct Hin. }
    apply existsb_eqb_In, in_map_iff in He as [h [Ht Hi]]. exists h. tauto.
  - intros Hc.
    destruct (UploadPage.missing_columns (map Js.trim fields)) as [|c cols] eqn:E;
      [reflexivity|].
    assert (In c (UploadPage.missing_columns (map Js.trim fields))) as Hin
      by (rewrite E; now left).
    apply missing_columns_spec in Hin as [Hreq Habs]. exfalso. apply Habs, Hc, Hreq.
Qed.

Lemma set_add_length (s : list string) (x : string) :
  List.length (set_add s x) <= S (List.length s).
Proof.
  unfold set_add. destruct (existsb (String.eqb x) s).
  - lia.
  - rewrite length_app. simpl. lia.
Qed.

Lemma fold_set_add_length (l : list string) :
  forall s, List.length (fold_left set_add l s) <= List.length s + List.length l.
Proof.
  induction l as [|x l IH]; intros s; simpl; [lia|].
  specialize (IH (set_add s x)). pose proof (set_add_length s x). lia.
Qed.

Lemma filter_length_le {A : Type} (f : A -> bool) (l : list A) :
  List.length (filter f l) <= List.length l.
Proof.
  induction l as [|a l IH]; simpl; [lia|]. destruct (f a); simpl; lia.
Qed.

Lemma get_absent_key {V : Type} (m : JsMap.t V) (k : string) :
  ~ In k (JsMap.keys m) -> JsMap.get m k = None.
Proof. intros H. now apply has_get_none, has_false_keys. Qed.

Lemma find_append {A : Type} (f : A -> bool) (l1 l2 : list A) :
  find f (l1 ++ l2)
  = match find f l1 with Some x => Some x | None => find f l2 end.
Proof.
  induction l1 as [|a l1 IH]; simpl; [reflexivity|]. now destruct (f a).
Qed.

Lemma get_last_profile (profiles : list SupplierProfile) (id : string) :
  forall m,
    JsMap.get
      (fold_left (fun m p => JsMap.set m (profile_supplier_id p) (profile_supplier_name p))
         profiles m) id
    = match last_profile profiles id with
      | Some p => Some (profile_supplier_name p)
      | None => JsMap.get m id
      end.
Proof.
  unfold last_profile.
  induction profiles as [|p profiles IH]; intros m; simpl; [reflexivity|].
  rewrite IH, find_append.
  destruct (find (fun p0 => String.eqb (profile_supplier_id p0) id) (rev profiles));
    [reflexivity|].
  simpl. destruct (String.eqb (profile_supplier_id p) id) eqn:E.
  - apply String.eqb_eq in E. subst id. apply get_set_same.
  - apply String.eqb_neq in E. now apply get_set_other.
Qed.

End UploadFacts.

(** X27.  The page and the route check the header alike: both reject a
    file exactly when a required column is absent from the header fields
    once blanks around them are dropped, and both name exactly the absent
    columns.  With a complete header the route stores one record per
    non-empty row, each flagged as not predicted, and rejects a file with no
    such row although the page calls it valid. *)
Theorem upload_header_check_agrees :
  forall (parseFloat : string -> Js.jsnum)
         (insert : list UploadRoute.UploadRecord
                   -> Answer (list UploadRoute.UploadRecord))
         (fields : list string) (parsed : list UploadPage.CsvRow),
    let summary := UploadPage.handleFileChange fields parsed in
    let reply := UploadRoute.POST parseFloat insert fields parsed in
    let rows := UploadPage.data_rows parsed in
    let absent c := In c UploadRoute.REQUIRED_COLUMNS /\ ~ header_has fields c in
    (complete_header fields \/ exists c, absent c)
    /\ ((exists c, absent c) ->
        exists cols,
          cols <> [] /\ (forall c, In c cols <-> absent c)
          /\ UploadPage.validation summary
             = Some {| UploadPage.valid := false; UploadPage.missing := cols |}
          /\ reply
             = UploadRoute.Status400
                 ("Missing required columns: " ++ Js.join cols ", "))
    /\ (complete_header fields ->
        UploadPage.validation summary
        = Some {| UploadPage.valid := true; UploadPage.missing := [] |}
        /\ UploadPage.rowCount summary = List.length rows
        /\ (rows = [] -> reply = UploadRoute.Status400 "No data rows found")
        /\ (rows <> [] ->
            exists records,
              List.length records = List.length rows
              /\ Forall (fun r => UploadRoute.is_predicted r = false) records
              /\ reply
                 = match error (insert records) with
                   | Some message => UploadRoute.Status400 message
                   | None =>
                       UploadRoute.Success
                         (match data (insert records) with
                          | Some stored => List.length stored
                          | None => List.length rows
                          end)
                   end)).
Proof.
  intros parseFloat insert fields parsed summary reply rows absent.
  subst summary reply rows absent.
  unfold UploadPage.handleFileChange, UploadRoute.POST.
  rewrite <- required_columns_agree.
  fold (UploadPage.missing_columns (map Js.trim fields)).
  fold (UploadPage.data_rows parsed).
  destruct (UploadPage.missing_columns (map Js.trim fields)) as [|c0 cols] eqn:E.
  - assert (complete_header fields) as Hc by now apply missing_none_complete.
    split; [now left|]. split.
    + intros [c [Hreq Habs]]. exfalso. apply Habs, Hc, Hreq.
    + intros _. cbn [List.length Nat.ltb Nat.leb UploadPage.validation
                     UploadPage.rowCount].
      split; [reflexivity|]. split; [reflexivity|]. split.
      * intros ->. reflexivity.
      * intros Hne.
        destruct (UploadPage.data_rows parsed) as [|r rs] eqn:Er; [contradiction|].
        exists (map (UploadRoute.to_record parseFloat) (r :: rs)).
        split; [apply length_map|]. split; [|reflexivity].
        apply Forall_forall. intros x Hx.
        apply in_map_iff in Hx as [row [<- _]]. reflexivity.
  - assert (In c0 UploadRoute.REQUIRED_COLUMNS /\ ~ header_has fields c0) as Ha.
    { apply missing_columns_spec. rewrite E. now left. }
    split; [right; now exists c0|]. split.
    + intros _. exists (c0 :: cols). split; [discriminate|]. split.
      * intros c. rewrite <- E. apply missing_columns_spec.
      * split; reflexivity.
    + intros Hc. exfalso. destruct Ha as [Hreq Habs]. apply Habs, Hc, Hreq.
Qed.

(** X28.  The records are read under the exact column names although the
    header check drops blanks: if the rows are keyed by the header fields
    and a required name is not literally among them, every stored record
    has no value in that column, even when the header passes the check. *)
Theorem upload_reads_exact_column_names :
  forall (parseFloat : string -> Js.jsnum)
         (fields : list string) (data : list UploadRoute.CsvRow) (c : string),
    (forall row k, In row data -> In k (JsMap.keys row) -> In k fields) ->
    In c UploadRoute.REQUIRED_COLUMNS ->
    ~ In c fields ->
    forall row, In row data ->
      column_empty c (UploadRoute.to_record parseFloat row) = true.
Proof.
  intros parseFloat fields data c Hkeys Hreq Hnot row Hrow.
  assert (JsMap.get row c = None) as Hget.
  { apply get_absent_key. intros Hk. apply Hnot. exact (Hkeys row c Hrow Hk). }
  unfold UploadRoute.REQUIRED_COLUMNS in Hreq. simpl in Hreq.
  repeat (destruct Hreq as [<- | Hreq];
          [unfold column_empty, UploadRoute.to_record; simpl;
           rewrite Hget; reflexivity|]).
  destruct Hreq.
Qed.

(** X29.  For a file with a complete header the page shows the number of
    non-empty rows, the first ten of them as preview, and as supplier count
    the number of distinct non-empty supplier ids once blanks around them
    are dropped, which is never above the row count. *)
Theorem upload_summary_counts :
  forall (fields : list string) (data : list UploadPage.CsvRow),
    complete_header fields ->
    let summary := UploadPage.handleFileChange fields data in
    let rows := UploadPage.data_rows data in
    UploadPage.rowCount summary = List.length rows
    /\ UploadPage.preview summary = firstn 10 rows
    /\ UploadPage.uniqueSuppliers summary <= UploadPage.rowCount summary
    /\ exists ids,
         NoDup ids
         /\ List.length ids = UploadPage.uniqueSuppliers summary
         /\ forall y, In y ids <->
                      y <> EmptyString /\ exists r, In r rows /\ shown_id r = y.
Proof.
  intros fields data Hc summary rows. subst summary rows.
  unfold UploadPage.handleFileChange.
  apply missing_none_complete in Hc. rewrite Hc.
  cbn [List.length Nat.ltb Nat.leb UploadPage.rowCount UploadPage.preview
       UploadPage.uniqueSuppliers].
  set (rows := UploadPage.data_rows data).
  split; [reflexivity|]. split; [reflexivity|]. split.
  - unfold UploadPage.supplier_ids.
    etransitivity; [apply fold_set_add_length|]. simpl.
    etransitivity; [apply filter_length_le|]. now rewrite length_map.
  - exists (UploadPage.supplier_ids rows).
    unfold UploadPage.supplier_ids.
    set (texts := filter (fun s => negb (String.eqb s EmptyString))
                    (map (fun r => Js.trim (nullish (JsMap.get r "supplier_id") ""))
                       rows)).
    destruct (fold_set_add (fun s : string => Some s) texts [] (NoDup_nil _))
      as [H1 H2].
    split; [exact H1|]. split; [reflexivity|].
    intros y. etransitivity; [apply H2|]. split.
    + intros [[] | [t [Ht Hy]]]. injection Hy as ->.
      subst texts. apply filter_In in Ht as [Hm Hne].
      apply in_map_iff in Hm as [r [Hr Hin]]. split.
      * intros ->. discriminate.
      * exists r. split; [exact Hin | exact Hr].
    + intros [Hne [r [Hin Hr]]]. right. exists y. split; [|reflexivity].
      subst texts. apply filter_In. split.
      * apply in_map_iff. exists r. split; [exact Hr | exact Hin].
      * apply String.eqb_neq in Hne. now rewrite Hne.
Qed.

(** X30.  Every record of the overview, in the latest list and in the top
    list, carries the name of its supplier's profile, the last one if the
    supplier has several, and no name if the supplier has no profile. *)
Theorem overview_names_come_from_profiles :
  forall (profiles : list SupplierProfile)
         (latest allPredictions : list RiskPredictionHistoryRow)
         (nSuppliers nPredictions : nat),
    let overview :=
      getExecutiveOverview profiles latest allPredictions nSuppliers nPredictions in
    forall e, In e (latestPredictions overview ++ topHighRisk overview) ->
      supplier_name e
      = option_map profile_supplier_name
          (last_profile profiles (supplier_id (row e))).
Proof.
  intros profiles latest rows nS nP overview e He. subst overview.
  cbn [getExecutiveOverview latestPredictions topHighRisk] in He.
  assert (exists p, with_name (nameById profiles) p = e) as [p <-].
  { apply in_app_or in He as [He | He].
    - apply in_map_iff in He as [p [Hp _]]. now exists p.
    - unfold topHighRisk_of, Js.slice0 in He. apply firstn_subset in He.
      apply (Permutation_in _ (Permutation_sym (sort_perm by_prob_high_desc _))) in He.
      apply in_map_iff in He as [p [Hp _]]. now exists p. }
  cbn [with_name supplier_name row]. unfold nameById.
  rewrite get_last_profile.
  now destruct (last_profile profiles (supplier_id p)).
Qed.

(* ================================================================== *)
(** * Instances *)
(* ================================================================== *)

Lemma poller_always_stops_witness :
  UploadPage.maxAttempts <= 100
  /\ (let p := UploadPage.run "run-1" "t0" scripted_run 100 UploadPage.pollDagStatus in
      UploadPage.scheduled p = None
      /\ p = UploadPage.run "run-1" "t0" scripted_run UploadPage.maxAttempts
               UploadPage.pollDagStatus).
Proof.
  split; [unfold UploadPage.maxAttempts; lia|].
  apply (poller_always_stops "run-1" "t0" scripted_run 100).
  unfold UploadPage.maxAttempts. lia.
Defined.

Lemma faults_keep_polling (k : nat) (s : string) :
  forall i, i < k -> keeps_polling (faults_then k s i).
Proof.
  intros i Hi. right. unfold faults_then.
  apply Nat.ltb_lt in Hi. now rewrite Hi.
Qed.

Lemma faults_then_report (k : nat) (s : string) :
  faults_then k s k = reports s.
Proof. unfold faults_then. now rewrite Nat.ltb_irrefl. Qed.

Lemma poller_success_path_witness :
  let final :=
    UploadPage.run "run-1" "t0" (faults_then 2 "success") 10 UploadPage.pollDagStatus in
  fetches final = 2 + 1
  /\ UploadPage.scheduled final = None
  /\ UploadPage.terminal final = Some UploadPage.Success
  /\ exists before,
       forallb is_progress_effect before = true
       /\ UploadPage.effects final
          = before ++
            [UploadPage.SetDagStatus "success"; UploadPage.SetTriggering false;
             UploadPage.RefreshUnpredicted;
             UploadPage.FetchRecentPredictions "t0";
             UploadPage.SetShowPredictions true].
Proof.
  apply (poller_success_path "run-1" "t0" (faults_then 2 "success") 2 10).
  - unfold UploadPage.maxAttempts. lia.
  - apply faults_keep_polling.
  - apply faults_then_report.
  - lia.
Defined.

Lemma poller_failure_path_witness :
  let final :=
    UploadPage.run "run-1" "t0" (faults_then 1 "failed") 10 UploadPage.pollDagStatus in
  fetches final = 1 + 1
  /\ UploadPage.scheduled final = None
  /\ UploadPage.terminal final = Some UploadPage.Failed
  /\ existsb UploadPage.is_success_effect (UploadPage.effects final) = false
  /\ exists before,
       forallb is_progress_effect before = true
       /\ UploadPage.effects final
          = before ++
            [UploadPage.SetDagStatus "failed"; UploadPage.SetTriggering false;
             UploadPage.SetTriggerResult false UploadPage.failed_message].
Proof.
  apply (poller_failure_path "run-1" "t0" (faults_then 1 "failed") 1 10).
  - unfold UploadPage.maxAttempts. lia.
  - apply faults_keep_polling.
  - apply faults_then_report.
  - lia.
Defined.

Lemma poller_unknown_state_halts_silently_witness :
  known_state "up_for_retry" = false
  /\ (let final :=
        UploadPage.run "run-1" "t0" (faults_then 1 "up_for_retry") 10
          UploadPage.pollDagStatus in
      fetches final = 1 + 1
      /\ UploadPage.scheduled final = None
      /\ UploadPage.terminal final = None
      /\ forallb is_progress_effect (UploadPage.effects final) = true
      /\ existsb is_set_triggering (UploadPage.effects final) = false).
Proof.
  split; [reflexivity|].
  apply (poller_unknown_state_halts_silently "run-1" "t0"
           (faults_then 1 "up_for_retry") 1 10 "up_for_retry").
  - unfold UploadPage.maxAttempts. lia.
  - apply faults_keep_polling.
  - apply faults_then_report.
  - reflexivity.
  - lia.
Defined.

Lemma poller_exhausts_budget_witness :
  let final :=
    UploadPage.run "run-1" "t0" (faults_then 60 "success") 60 UploadPage.pollDagStatus in
  fetches final = 60
  /\ UploadPage.scheduled final = None
  /\ UploadPage.terminal final
     = Some (if is_fault (faults_then 60 "success" 59) then UploadPage.PollError
             else UploadPage.TimedOut)
  /\ existsb UploadPage.is_success_effect (UploadPage.effects final) = false
  /\ existsb UploadPage.is_failure_effect (UploadPage.effects final) = false.
Proof.
  apply (poller_exhausts_budget "run-1" "t0" (faults_then 60 "success") 60).
  - apply faults_keep_polling.
  - unfold UploadPage.maxAttempts. lia.
Defined.

Lemma trigger_non_json_error_is_http_status_witness :
  Airflow.triggerPredictionDag parse_nothing
    (Exn.Normal (plain_reply 503 "No new rows to predict"))
  = {| Airflow.success := false;
       Airflow.message :=
         JStr ("HTTP " ++
               Js.decimal (Airflow.status (plain_reply 503 "No new rows to predict")));
       Airflow.details := empty_object |}.
Proof.
  apply (trigger_non_json_error_is_http_status parse_nothing
           (plain_reply 503 "No new rows to predict")).
  - reflexivity.
  - right. right. exists "No new rows to predict".
    exists {| Exn.name := "SyntaxError"; Exn.message := "Unexpected token" |}.
    split; reflexivity.
Defined.

Lemma trigger_failure_is_shown_verbatim_witness :
  Airflow.ok (bad_request "DAG is paused") = false
  /\ Airflow.error_text (parse_detail "DAG is paused") (bad_request "DAG is paused")
     = Some "DAG is paused"
  /\ spelled_no_new_rows "DAG is paused" = false
  /\ page_effects text_to_string (parse_detail "DAG is paused") "t0"
       (Exn.Normal (bad_request "DAG is paused"))
     = trigger_preamble ++ trigger_failure "DAG is paused"
  /\ page_effects text_to_string (parse_detail "DAG is paused") "t0"
       (Exn.Thrown (Exn.Error "connect ECONNREFUSED"))
     = trigger_preamble ++ trigger_failure "connect ECONNREFUSED"
  /\ page_effects text_to_string (parse_detail "DAG is paused") "t0"
       (Exn.Thrown (Exn.Error ""))
     = trigger_preamble ++ trigger_failure "Failed to trigger DAG".
Proof.
  destruct (trigger_failure_is_shown_verbatim text_to_string
              (parse_detail "DAG is paused") "t0" (fun s => eq_refl))
    as [Hreply Hthrown].
  split; [reflexivity|]. split; [reflexivity|]. split; [reflexivity|].
  split.
  - exact (Hreply (bad_request "DAG is paused") "DAG is paused"
             eq_refl eq_refl eq_refl).
  - split.
    + exact (Hthrown (Exn.Error "connect ECONNREFUSED")).
    + exact (Hthrown (Exn.Error "")).
Defined.

Lemma risk_counts_ignore_row_order_witness :
  Permutation sample_table sample_answer
  /\ riskCounts (getExecutiveOverview [] [] sample_table 0 0)
     = riskCounts (getExecutiveOverview sample_profiles sample_answer sample_answer 2 3).
Proof.
  split; [apply perm_swap|].
  apply (risk_counts_ignore_row_order [] sample_profiles [] sample_answer
           sample_table sample_answer 0 0 2 3).
  apply perm_swap.
Defined.

Lemma resolver_keeps_unique_histories_witness :
  getLatestPredictionsPerSupplier
    (answered [labelled_row "E1" 20240201 "High"; labelled_row "E2" 20240115 "Medium"])
  = Exn.Normal [labelled_row "E1" 20240201 "High"; labelled_row "E2" 20240115 "Medium"].
Proof.
  apply (resolver_keeps_unique_histories
           [labelled_row "E1" 20240201 "High"; labelled_row "E2" 20240115 "Medium"]).
  apply NoDup_cons; [|apply NoDup_cons; [|apply NoDup_nil]].
  - simpl. intros [H | []]. discriminate.
  - simpl. tauto.
Defined.

Lemma overview_latest_matches_risk_counts_witness :
  let o :=
    getExecutiveOverview sample_profiles
      [labelled_row "E1" 20240201 "High"; labelled_row "E2" 20240115 "Medium"]
      sample_table 2 3 in
  List.length (latestPredictions o) = risk_total (riskCounts o).
Proof.
  apply (overview_latest_matches_risk_counts sample_profiles sample_answer
           sample_table
           [labelled_row "E1" 20240201 "High"; labelled_row "E2" 20240115 "Medium"]
           2 3).
  - apply perm_swap.
  - reflexivity.
Defined.

Lemma summaries_are_well_formed_witness :
  exists summaries,
    getLatest3ShapSummaries parse_nothing number_of
      (answered [sample_row "S1" None; sample_row "S2" None]) sample_profiles
      (explained_with (JObj sample_contributions))
    = Exn.Normal summaries
    /\ map summary_supplier_id summaries = ["S1"; "S2"]
    /\ Forall (fun sm => List.length (top_features sm) <= 3
                         /\ Forall well_signed (top_features sm)
                         /\ StronglySorted (key_desc feature_magnitude)
                              (top_features sm)) summaries.
Proof.
  eexists. split; [reflexivity|].
  apply (summaries_are_well_formed parse_nothing number_of
           (answered [sample_row "S1" None; sample_row "S2" None]) sample_profiles
           (explained_with (JObj sample_contributions))).
  reflexivity.
Defined.

Lemma null_payload_aborts_all_summaries_witness :
  (exists v, parseShapValues parse_null (JStr "null") = Exn.Normal v)
  /\ exists e,
       getLatest3ShapSummaries parse_null number_of
         (answered [sample_row "S1" None; sample_row "S2" None]) sample_profiles
         (explained_with (JStr "null"))
       = Exn.Thrown e.
Proof.
  apply (null_payload_aborts_all_summaries parse_null number_of
           (answered [sample_row "S1" None; sample_row "S2" None]) sample_profiles
           (explained_with (JStr "null")) (sample_row "S2" None) "null").
  - right. left. reflexivity.
  - exists (shap_row (JStr "null")), []. split; reflexivity.
  - discriminate.
  - reflexivity.
Defined.

Lemma pager_covers_all_rows_witness :
  let pages := SupplierRiskMasterPage.totalPages 25 10 in
  (1 <= pages)%Z
  /\ (25 <= pages * 10)%Z
  /\ ((0 < 25)%Z -> ((pages - 1) * 10 < 25)%Z)
  /\ (1 <= SupplierRiskMasterPage.safePage 7 pages <= pages)%Z
  /\ ((1 <= 7 <= pages)%Z -> SupplierRiskMasterPage.safePage 7 pages = 7%Z).
Proof.
  apply (pager_covers_all_rows 25 10 7); lia.
Defined.

Lemma csv_export_reads_back_witness :
  (sample_export <> [] -> read_csv (ExportRoute.toCsv sample_export) = table_of sample_export)
  /\ (sample_export = [] -> ExportRoute.toCsv sample_export = EmptyString).
Proof.
  apply (csv_export_reads_back sample_export).
  intros first rest H. injection H as <- _. discriminate.
Defined.

Lemma padded_header_complete : complete_header padded_fields.
Proof. apply missing_none_complete. reflexivity. Qed.

Lemma upload_reads_exact_column_names_witness :
  UploadPage.validation (UploadPage.handleFileChange padded_fields [padded_row "S1"])
  = Some {| UploadPage.valid := true; UploadPage.missing := [] |}
  /\ UploadRoute.POST parse_float_digits store_all padded_fields [padded_row "S1"]
     = UploadRoute.Success 1
  /\ UploadRoute.quality_score (UploadRoute.to_record parse_float_digits (padded_row "S1"))
     = None
  /\ UploadRoute.total_risk_score
       (UploadRoute.to_record parse_float_digits (padded_row "S1"))
     = Some (inject_Z 4)
  /\ column_empty "quality_score"
       (UploadRoute.to_record parse_float_digits (padded_row "S1")) = true.
Proof.
  split; [reflexivity|]. split; [reflexivity|]. split; [reflexivity|].
  split; [reflexivity|].
  apply (upload_reads_exact_column_names parse_float_digits padded_fields
           [padded_row "S1"] "quality_score").
  - intros row k [<- | []] Hk. exact Hk.
  - simpl. tauto.
  - simpl. intros H.
    repeat (destruct H as [H | H]; [discriminate|]). exact H.
  - now left.
Defined.

Lemma upload_summary_counts_witness :
  let summary :=
    UploadPage.handleFileChange padded_fields
      [padded_row "S1"; padded_row " S1"; padded_row " "; padded_row "S2"] in
  let rows :=
    UploadPage.data_rows
      [padded_row "S1"; padded_row " S1"; padded_row " "; padded_row "S2"] in
  UploadPage.rowCount summary = List.length rows
  /\ UploadPage.preview summary = firstn 10 rows
  /\ UploadPage.uniqueSuppliers summary <= UploadPage.rowCount summary
  /\ exists ids,
       NoDup ids
       /\ List.length ids = UploadPage.uniqueSuppliers summary
       /\ forall y, In y ids <->
                    y <> EmptyString /\ exists r, In r rows /\ shown_id r = y.
Proof.
  apply (upload_summary_counts padded_fields
           [padded_row "S1"; padded_row " S1"; padded_row " "; padded_row "S2"]).
  exact padded_header_complete.
Defined.

Lemma overview_names_come_from_profiles_witness :
  supplier_name
    {| row := labelled_row "E1" 20240201 "High"; supplier_name := Some "Acme Ltd" |}
  = option_map profile_supplier_name
      (last_profile sample_profiles
         (supplier_id
            (row {| row := labelled_row "E1" 20240201 "High";
                    supplier_name := Some "Acme Ltd" |}))).
Proof.
  apply (overview_names_come_from_profiles sample_profiles sample_answer
           sample_table 2 3
           {| row := labelled_row "E1" 20240201 "High";
              supplier_name := Some "Acme Ltd" |}).
  left. reflexivity.
Defined.


Lemma pretty_feature_only_recases_witness :
  ShapPage.prettyFeature "on_time_delivery_rate" = Some "On Time Delivery Rate"
  /\ exists pretty,
       ShapPage.prettyFeature "on_time_delivery_rate" = Some pretty
       /\ String.length pretty = String.length "on_time_delivery_rate"
       /\ has_char "_" pretty = false
       /\ Js.toLowerCase pretty
          = Js.toLowerCase (Js.replaceAll "on_time_delivery_rate" "_" " ").
Proof.
  split; [reflexivity|].
  apply (pretty_feature_only_recases "on_time_delivery_rate"). reflexivity.
Defined.

